(** * grepcidr.py: a shallow embedding and its verified properties

    The program filters text lines by whether one whitespace-delimited
    field is an IP address inside a union of CIDR networks.  It is
    embedded here as Rocq functions: Python [str] values are lists of
    code points, Python [int] is [Z], the calls into the interpreter's
    [ipaddress] module are embedded next to the program (module
    [ipaddress] below, after CPython 3.11's Lib/ipaddress.py), and the
    effects of [load_cidrs] and [main] (writes, reads, [sys.exit]) are
    threaded through a small trace-and-exception monad.  [parse_args]
    is not embedded: a run starts from the [Namespace] it returns.  A
    file is given by the lines its iterator yields, already decoded. *)

From Stdlib Require Import String Ascii ZArith NArith List Bool Lia.
From Stdlib Require DecimalString DecimalPos.
Import ListNotations.
Open Scope Z_scope.

(** ** Python strings *)

(** A [str] is the sequence of its Unicode code points. *)
Definition char := N.
Definition str := list char.

(** A string literal of the source text, as a [str]. *)
Definition lit (s : string) : str := map N_of_ascii (list_ascii_of_string s).

Definition str_eqb (a b : str) : bool :=
  (length a =? length b)%nat && forallb (fun p => N.eqb (fst p) (snd p)) (combine a b).

(** The characters the program and the library look for. *)
Definition SLASH : char := Eval cbv in N_of_ascii "/".
Definition DOT : char := Eval cbv in N_of_ascii ".".
Definition COLON : char := Eval cbv in N_of_ascii ":".
Definition PERCENT : char := Eval cbv in N_of_ascii "%".
Definition ZERO : char := Eval cbv in N_of_ascii "0".

(** Truth value of a string or of a list: [if s:] holds for a non-empty
    one. *)
Definition nonempty {A : Type} (s : list A) : bool :=
  match s with [] => false | _ :: _ => true end.

(** The newline that [print] ends its text with by default. *)
Definition NL : str := Eval cbv in lit (String "010" "").

(** [c in s] for a one-character [c]. *)
Definition contains (c : char) (s : str) : bool := existsb (N.eqb c) s.

(** The code points [str.strip()] and [str.split()] treat as whitespace
    (CPython's _PyUnicode_IsWhitespace). *)
Definition py_isspace (c : char) : bool :=
  ((9 <=? c) && (c <=? 13) || (28 <=? c) && (c <=? 32)
   || (c =? 133) || (c =? 160) || (c =? 5760)
   || (8192 <=? c) && (c <=? 8202)
   || (c =? 8232) || (c =? 8233) || (c =? 8239) || (c =? 8287)
   || (c =? 12288))%N.

Fixpoint lstrip (s : str) : str :=
  match s with
  | [] => []
  | c :: t => if py_isspace c then lstrip t else s
  end.

Definition rstrip (s : str) : str := rev (lstrip (rev s)).

(** [s.strip()] *)
Definition strip (s : str) : str := rstrip (lstrip s).

(** [s.split()]: the maximal runs of non-whitespace, in order; no empty
    string is ever produced. *)
Fixpoint py_split (s : str) : list str :=
  match s with
  | [] => []
  | c :: t =>
      if py_isspace c then py_split t
      else match t with
           | [] => [[c]]
           | d :: _ =>
               if py_isspace d then [c] :: py_split t
               else match py_split t with
                    | w :: ws => (c :: w) :: ws
                    | [] => [[c]]
                    end
           end
  end.

(** [s.split(sep)] for a one-character separator: one more part than
    there are separators, empty parts included. *)
Fixpoint split_on (sep : char) (s : str) : list str :=
  match s with
  | [] => [[]]
  | c :: t =>
      if N.eqb c sep then [] :: split_on sep t
      else match split_on sep t with
           | p :: ps => (c :: p) :: ps
           | [] => [[c]]
           end
  end.

(** [s.partition(sep)] for a one-character separator: the text before
    the first separator, whether it was found, the text after it. *)
Fixpoint partition_on (sep : char) (s : str) : str * bool * str :=
  match s with
  | [] => ([], false, [])
  | c :: t =>
      if N.eqb c sep then ([], true, t)
      else let '(a, found, b) := partition_on sep t in (c :: a, found, b)
  end.

(** [s.startswith(p)] *)
Fixpoint startswith (s p : str) : bool :=
  match p, s with
  | [], _ => true
  | _ :: _, [] => false
  | x :: p', c :: s' => N.eqb c x && startswith s' p'
  end.

(** [str(n)] for an [int]: decimal digits, a minus sign when negative. *)
Definition str_of_int (n : Z) : str :=
  lit (DecimalString.NilZero.string_of_int (Z.to_int n)).

(** ** Python integers read from text *)

Definition is_ascii_digit (c : char) : bool := ((48 <=? c) && (c <=? 57))%N.

(** [s.isascii() and s.isdigit()]: at least one character, all in 0..9. *)
Definition isascii_isdigit (s : str) : bool :=
  nonempty s && forallb is_ascii_digit s.

(** Membership in [frozenset('0123456789ABCDEFabcdef')]. *)
Definition is_hex_digit (c : char) : bool :=
  (is_ascii_digit c || (65 <=? c) && (c <=? 70) || (97 <=? c) && (c <=? 102))%N.

Definition digit_value (c : char) : Z :=
  if is_ascii_digit c then Z.of_N c - 48
  else if (97 <=? c)%N then Z.of_N c - 87
  else Z.of_N c - 55.

Definition digits_value (base : Z) (s : str) : Z :=
  fold_left (fun acc c => acc * base + digit_value c) s 0.

(** [sys.int_info.default_max_str_digits]: [int()] refuses longer digit
    strings in a base that is not a power of two. *)
Definition int_max_str_digits : Z := 4300.

(** [int(s, base)] for base 10 or 16, on the strings that reach it in
    [ipaddress]: every caller has checked that [s] holds only digits of
    the base, so signs, blanks and underscores are not covered.  [None]
    is ValueError. *)
Definition py_int (s : str) (base : Z) : option Z :=
  if negb (nonempty s) then None
  else if negb (forallb (if base =? 16 then is_hex_digit else is_ascii_digit) s) then None
  else if (base =? 10) && (int_max_str_digits <? Z.of_nat (length s)) then None
  else Some (digits_value base s).

(** [int.bit_length()] *)
Definition bit_length (n : Z) : Z :=
  if Z.abs n =? 0 then 0 else Z.log2 (Z.abs n) + 1.

(** ['%x' % n] for [0 <= n < 65536]. *)
Definition hex_digit (d : Z) : char :=
  Z.to_N (if d <? 10 then 48 + d else 87 + d).

Definition format_x (n : Z) : str :=
  let d3 := Z.shiftr n 12 mod 16 in
  let d2 := Z.shiftr n 8 mod 16 in
  let d1 := Z.shiftr n 4 mod 16 in
  let d0 := n mod 16 in
  if 4096 <=? n then map hex_digit [d3; d2; d1; d0]
  else if 256 <=? n then map hex_digit [d2; d1; d0]
  else if 16 <=? n then map hex_digit [d1; d0]
  else map hex_digit [d0].

(** [range(a, b)] *)
Definition range (a b : Z) : list Z :=
  map (fun k => a + Z.of_nat k) (seq 0 (Z.to_nat (b - a))).

(** ** The [ipaddress] module of the Python standard library

    What [grepcidr.py] calls: [ip_address(s)], [ip_network(s,
    strict=False)], the [version] property and [address in network], on
    [str] arguments.  Each function below follows the function of the
    same name in Lib/ipaddress.py (CPython 3.11).  The two classes of a
    kind share their code through the class argument [cls], as the
    Python classes do through [cls._ALL_ONES] and [cls._max_prefixlen].
    The per-class netmask caches only memoise pure results and are left
    out, and so are the texts of the exceptions raised inside the
    module, which [ip_address] and [ip_network] replace by their own. *)
Module ipaddress.

Inductive family := V4 | V6.

Definition _version (cls : family) : Z :=
  match cls with V4 => 4 | V6 => 6 end.

(** IPV4LENGTH and IPV6LENGTH *)
Definition _max_prefixlen (cls : family) : Z :=
  match cls with V4 => 32 | V6 => 128 end.

Definition _ALL_ONES (cls : family) : Z := 2 ^ _max_prefixlen cls - 1.

Definition _HEXTET_COUNT : Z := 8.

(** An [IPv4Address] or [IPv6Address] object; [_scope_id] stays [None]
    for IPv4, which has no such slot. *)
Record Address := mkAddress {
  a_cls : family;
  _ip : Z;
  _scope_id : option str
}.

(** An [IPv4Network] or [IPv6Network] object. *)
Record Network := mkNetwork {
  n_cls : family;
  network_address : Address;
  netmask : Address;
  _prefixlen : Z
}.

(** The two subclasses of ValueError raised inside the module.  A plain
    ValueError is always caught where it is raised, and is [None]. *)
Inductive error := AddressValueError | NetmaskValueError.

Definition result (A : Type) : Type := error + A.

Definition bind {E A B : Type} (m : E + A) (k : A -> E + B) : E + B :=
  match m with
  | inl e => inl e
  | inr a => k a
  end.

Notation "'do' x <- m ; k" := (bind m (fun x => k))
  (at level 10, x pattern, m at level 100, k at level 200).

(** The ValueError that [ip_address] and [ip_network] raise, with the
    argument its message quotes. *)
Inductive ValueError :=
| not_an_address (address : str)
| not_a_network (address : str).

Definition _count_righthand_zero_bits (number bits : Z) : Z :=
  if number =? 0 then bits
  else Z.min bits (bit_length (Z.land (Z.lnot number) (number - 1))).

Definition _check_int_address (cls : family) (address : Z) : result unit :=
  if address <? 0 then inl AddressValueError
  else if _ALL_ONES cls <? address then inl AddressValueError
  else inr tt.

Definition _ip_int_from_prefix (cls : family) (prefixlen : Z) : Z :=
  Z.lxor (_ALL_ONES cls) (Z.shiftr (_ALL_ONES cls) prefixlen).

Definition _prefix_from_ip_int (cls : family) (ip_int : Z) : option Z :=
  let trailing_zeroes := _count_righthand_zero_bits ip_int (_max_prefixlen cls) in
  let prefixlen := _max_prefixlen cls - trailing_zeroes in
  let leading_ones := Z.shiftr ip_int trailing_zeroes in
  let all_ones := Z.shiftl 1 prefixlen - 1 in
  if negb (leading_ones =? all_ones) then None
  else Some prefixlen.

Definition _prefix_from_prefix_string (cls : family) (prefixlen_str : str) : result Z :=
  if negb (isascii_isdigit prefixlen_str) then inl NetmaskValueError
  else match py_int prefixlen_str 10 with
       | None => inl NetmaskValueError
       | Some prefixlen =>
           if negb ((0 <=? prefixlen) && (prefixlen <=? _max_prefixlen cls))
           then inl NetmaskValueError
           else inr prefixlen
       end.

(** [_split_optional_netmask] and [_split_addr_prefix] on a [str]: the
    mask is the text after the slash, or the integer [_max_prefixlen]
    when there is no slash. *)
Definition _split_addr_prefix (cls : family) (address : str) : result (str * (Z + str)) :=
  match split_on SLASH address with
  | [addr] => inr (addr, inl (_max_prefixlen cls))
  | [addr; mask] => inr (addr, inr mask)
  | _ => inl AddressValueError
  end.

(** [map(f, xs)] consumed to the end, [f] raising on the first failure. *)
Fixpoint map_opt {A B : Type} (f : A -> option B) (xs : list A) : option (list B) :=
  match xs with
  | [] => Some []
  | x :: t =>
      match f x with
      | None => None
      | Some y => option_map (cons y) (map_opt f t)
      end
  end.

(** [int.from_bytes(bs, 'big')] *)
Definition from_bytes_big (bs : list Z) : Z :=
  fold_left (fun acc b => acc * 256 + b) bs 0.

(** *** _BaseV4 *)

Definition _parse_octet (octet_str : str) : option Z :=
  if negb (nonempty octet_str) then None
  else if negb (isascii_isdigit octet_str) then None
  else if (3 <? length octet_str)%nat then None
  else if negb (str_eqb octet_str (lit "0")) && N.eqb (hd 0%N octet_str) ZERO then None
  else match py_int octet_str 10 with
       | None => None
       | Some octet_int => if 255 <? octet_int then None else Some octet_int
       end.

Definition V4_ip_int_from_string (ip_str : str) : result Z :=
  if negb (nonempty ip_str) then inl AddressValueError
  else
    let octets := split_on DOT ip_str in
    if negb (length octets =? 4)%nat then inl AddressValueError
    else match map_opt _parse_octet octets with
         | None => inl AddressValueError
         | Some bs => inr (from_bytes_big bs)
         end.

(** [IPv4Address(address)] for an [int] or a [str] argument. *)
Definition IPv4Address (address : Z + str) : result Address :=
  match address with
  | inl n =>
      do _ <- _check_int_address V4 n;
      inr (mkAddress V4 n None)
  | inr addr_str =>
      if contains SLASH addr_str then inl AddressValueError
      else do ip <- V4_ip_int_from_string addr_str;
           inr (mkAddress V4 ip None)
  end.

(** *** _BaseV6 *)

Definition _parse_hextet (hextet_str : str) : option Z :=
  if negb (forallb is_hex_digit hextet_str) then None
  else if (4 <? length hextet_str)%nat then None
  else py_int hextet_str 16.

(** [parts[i]], also for a negative [i]; every index the module uses is
    in range. *)
Definition item (parts : list str) (i : Z) : str :=
  nth (Z.to_nat (if i <? 0 then Z.of_nat (length parts) + i else i)) parts [].

(** The loop that looks for an empty part strictly between the two ends. *)
Definition find_skip_index (parts : list str) : result (option Z) :=
  fold_left
    (fun acc i =>
       do skip_index <- acc;
       if negb (nonempty (item parts i)) then
         match skip_index with
         | Some _ => inl AddressValueError
         | None => inr (Some i)
         end
       else inr skip_index)
    (range 1 (Z.of_nat (length parts) - 1)) (inr None).

(** [parts_hi], [parts_lo] and [parts_skipped]. *)
Definition hextet_layout (parts : list str) (skip_index : option Z) : result (Z * Z * Z) :=
  match skip_index with
  | Some skip_index =>
      let parts_hi := skip_index in
      let parts_lo := Z.of_nat (length parts) - skip_index - 1 in
      do parts_hi <-
        (if negb (nonempty (item parts 0)) then
           let parts_hi := parts_hi - 1 in
           if negb (parts_hi =? 0) then inl AddressValueError else inr parts_hi
         else inr parts_hi);
      do parts_lo <-
        (if negb (nonempty (item parts (-1))) then
           let parts_lo := parts_lo - 1 in
           if negb (parts_lo =? 0) then inl AddressValueError else inr parts_lo
         else inr parts_lo);
      let parts_skipped := _HEXTET_COUNT - (parts_hi + parts_lo) in
      if parts_skipped <? 1 then inl AddressValueError
      else inr (parts_hi, parts_lo, parts_skipped)
  | None =>
      if negb (Z.of_nat (length parts) =? _HEXTET_COUNT) then inl AddressValueError
      else if negb (nonempty (item parts 0)) then inl AddressValueError
      else if negb (nonempty (item parts (-1))) then inl AddressValueError
      else inr (Z.of_nat (length parts), 0, 0)
  end.

(** One round of [ip_int <<= 16; ip_int |= cls._parse_hextet(parts[i])]. *)
Definition shift_in_hextet (parts : list str) (acc : option Z) (i : Z) : option Z :=
  match acc with
  | None => None
  | Some ip_int =>
      match _parse_hextet (item parts i) with
      | None => None
      | Some h => Some (Z.lor (Z.shiftl ip_int 16) h)
      end
  end.

Definition V6_ip_int_from_string (ip_str : str) : result Z :=
  if negb (nonempty ip_str) then inl AddressValueError
  else
    let parts := split_on COLON ip_str in
    let _min_parts := 3 in
    if Z.of_nat (length parts) <? _min_parts then inl AddressValueError
    else
      do parts <-
        (if contains DOT (item parts (-1)) then
           match IPv4Address (inr (item parts (-1))) with
           | inl _ => inl AddressValueError
           | inr a =>
               let ipv4_int := _ip a in
               inr (removelast parts
                      ++ [format_x (Z.land (Z.shiftr ipv4_int 16) 65535)]
                      ++ [format_x (Z.land ipv4_int 65535)])
           end
         else inr parts);
      let _max_parts := _HEXTET_COUNT + 1 in
      if _max_parts <? Z.of_nat (length parts) then inl AddressValueError
      else
        do skip_index <- find_skip_index parts;
        do layout <- hextet_layout parts skip_index;
        let '(parts_hi, parts_lo, parts_skipped) := layout in
        let ip_int := fold_left (shift_in_hextet parts) (range 0 parts_hi) (Some 0) in
        let ip_int := option_map (fun n => Z.shiftl n (16 * parts_skipped)) ip_int in
        let ip_int := fold_left (shift_in_hextet parts) (range (- parts_lo) 0) ip_int in
        match ip_int with
        | None => inl AddressValueError
        | Some ip_int => inr ip_int
        end.

Definition _split_scope_id (ip_str : str) : result (str * option str) :=
  let '(addr, sep, scope_id) := partition_on PERCENT ip_str in
  if negb sep then inr (addr, None)
  else if negb (nonempty scope_id) || contains PERCENT scope_id then inl AddressValueError
  else inr (addr, Some scope_id).

(** [IPv6Address(address)] for an [int] or a [str] argument. *)
Definition IPv6Address (address : Z + str) : result Address :=
  match address with
  | inl n =>
      do _ <- _check_int_address V6 n;
      inr (mkAddress V6 n None)
  | inr addr_str =>
      if contains SLASH addr_str then inl AddressValueError
      else do split <- _split_scope_id addr_str;
           let '(addr_str, scope_id) := split in
           do ip <- V6_ip_int_from_string addr_str;
           inr (mkAddress V6 ip scope_id)
  end.

(** *** Dispatch on the class *)

Definition _address_class (cls : family) : Z + str -> result Address :=
  match cls with V4 => IPv4Address | V6 => IPv6Address end.

Definition _ip_int_from_string (cls : family) : str -> result Z :=
  match cls with V4 => V4_ip_int_from_string | V6 => V6_ip_int_from_string end.

Definition _prefix_from_ip_string (cls : family) (ip_str : str) : result Z :=
  match _ip_int_from_string cls ip_str with
  | inl _ => inl NetmaskValueError
  | inr ip_int =>
      match _prefix_from_ip_int cls ip_int with
      | Some prefixlen => inr prefixlen
      | None =>
          let ip_int := Z.lxor ip_int (_ALL_ONES cls) in
          match _prefix_from_ip_int cls ip_int with
          | Some prefixlen => inr prefixlen
          | None => inl NetmaskValueError
          end
      end
  end.

(** [_BaseV4._make_netmask] accepts a prefix length or a dotted netmask
    or hostmask; [_BaseV6._make_netmask] a prefix length only. *)
Definition _make_netmask (cls : family) (arg : Z + str) : result (Address * Z) :=
  do prefixlen <-
    match arg with
    | inl prefixlen =>
        if negb ((0 <=? prefixlen) && (prefixlen <=? _max_prefixlen cls))
        then inl NetmaskValueError
        else inr prefixlen
    | inr arg =>
        match cls with
        | V4 =>
            match _prefix_from_prefix_string V4 arg with
            | inl NetmaskValueError => _prefix_from_ip_string V4 arg
            | r => r
            end
        | V6 => _prefix_from_prefix_string V6 arg
        end
    end;
  do netmask <- _address_class cls (inl (_ip_int_from_prefix cls prefixlen));
  inr (netmask, prefixlen).

(** [IPv4Network(address, strict=False)] and [IPv6Network(address,
    strict=False)]: the two constructors are the same text.  The caller
    never passes [strict=True], whose only effect is to raise where this
    one masks. *)
Definition Network_init (cls : family) (address : str) : result Network :=
  do split <- _split_addr_prefix cls address;
  let '(addr, mask) := split in
  do network_address <- _address_class cls (inr addr);
  do made <- _make_netmask cls mask;
  let '(netmask, prefixlen) := made in
  let packed := _ip network_address in
  do network_address <-
    (if negb (Z.land packed (_ip netmask) =? packed)
     then _address_class cls (inl (Z.land packed (_ip netmask)))
     else inr network_address);
  inr (mkNetwork cls network_address netmask prefixlen).

Definition IPv4Network : str -> result Network := Network_init V4.
Definition IPv6Network : str -> result Network := Network_init V6.

(** [ipaddress.ip_address(address)] *)
Definition ip_address (address : str) : ValueError + Address :=
  match IPv4Address (inr address) with
  | inr a => inr a
  | inl _ =>
      match IPv6Address (inr address) with
      | inr a => inr a
      | inl _ => inl (not_an_address address)
      end
  end.

(** [ipaddress.ip_network(address, strict=False)] *)
Definition ip_network (address : str) : ValueError + Network :=
  match IPv4Network address with
  | inr n => inr n
  | inl _ =>
      match IPv6Network address with
      | inr n => inr n
      | inl _ => inl (not_a_network address)
      end
  end.

(** The [version] property of an address and of a network. *)
Definition version (a : Address) : Z := _version (a_cls a).
Definition net_version (n : Network) : Z := _version (n_cls n).

(** [other in self], [_BaseNetwork.__contains__] on an address. *)
Definition __contains__ (self : Network) (other : Address) : bool :=
  if negb (_version (n_cls self) =? _version (a_cls other)) then false
  else Z.land (_ip other) (_ip (netmask self)) =? _ip (network_address self).

(** The invariant of a network object built by [ip_network]: its netmask is the one of its
    prefix length, and its base address has no host bit. *)
Definition wf_network (net : Network) : Prop :=
  a_cls (network_address net) = n_cls net
  /\ netmask net = mkAddress (n_cls net) (_ip_int_from_prefix (n_cls net) (_prefixlen net)) None
  /\ 0 <= _prefixlen net <= _max_prefixlen (n_cls net)
  /\ Z.land (_ip (network_address net)) (_ip (netmask net)) = _ip (network_address net).

End ipaddress.

(** ** Effects: traces, [sys.exit] and uncaught exceptions *)

(** File objects are told apart by the [open] call that made them:
    the one for the CIDR file in [load_cidrs], the one for the input
    file in [main]. *)
Inductive handle :=
| sys_stdin
| cidr_fh (path : str)
| input_fh (path : str).

(** What a run does to the outside, in order. *)
Inductive event :=
| Open (path : str)                (* [open(path, "r", ...)] is called *)
| Read (fh : handle) (line : str)  (* [for line in fh] yields a line *)
| Close (fh : handle)
| Stdout (text : str)              (* text written to [sys.stdout] *)
| Stderr (text : str).             (* text written to [sys.stderr] *)

(** How a computation can end other than by returning. *)
Inductive raised :=
| SystemExit (code : Z)
| IndexError.

(** A computation: the events it performed, then its result. *)
Definition M (A : Type) : Type := list event * (raised + A).

Definition ret {A : Type} (a : A) : M A := ([], inr a).

Definition mbind {A B : Type} (m : M A) (k : A -> M B) : M B :=
  match m with
  | (t, inl e) => (t, inl e)
  | (t, inr a) => let (t', r) := k a in (t ++ t', r)
  end.

Notation "x <- m ;; k" := (mbind m (fun x => k))
  (at level 61, m at next level, right associativity).
Notation "m ;; k" := (mbind m (fun _ => k))
  (at level 61, right associativity).

Definition emit (e : event) : M unit := ([e], inr tt).

Definition raise {A : Type} (e : raised) : M A := ([], inl e).

(** [sys.exit(code)] *)
Definition sys_exit {A : Type} (code : Z) : M A := raise (SystemExit code).

(** [print(text, end=end_)] *)
Definition print (text end_ : str) : M unit := emit (Stdout (text ++ end_)).

(** [print(text, file=sys.stderr)] *)
Definition print_stderr (text : str) : M unit := emit (Stderr (text ++ NL)).

(** [try: body finally: fin] *)
Definition try_finally {A : Type} (body : M A) (fin : M unit) : M A :=
  let (t, r) := body in
  let (t', r') := fin in
  (t ++ t', match r' with inl e => inl e | inr _ => r end).

(** [for x in xs: acc = body(x, acc)], the loop variables being [acc]. *)
Fixpoint for_each {A S : Type} (xs : list A) (body : A -> S -> M S) (acc : S) : M S :=
  match xs with
  | [] => ret acc
  | x :: t => acc' <- body x acc ;; for_each t body acc'
  end.

(** [for line in fh: ...] over a file object that yields [lines]. *)
Definition for_lines {S : Type} (fh : handle) (lines : list str)
    (body : str -> S -> M S) (acc : S) : M S :=
  for_each lines (fun line acc => emit (Read fh line) ;; body line acc) acc.

(** [xs[i]] on a list, for any [int] index. *)
Definition getitem {A : Type} (xs : list A) (i : Z) : M A :=
  let n := Z.of_nat (length xs) in
  let j := if i <? 0 then n + i else i in
  if (j <? 0) || (n <=? j) then raise IndexError
  else match nth_error xs (Z.to_nat j) with
       | Some x => ret x
       | None => raise IndexError
       end.

(** The projections of a trace. *)
Definition stdout (t : list event) : list str :=
  flat_map (fun e => match e with Stdout s => [s] | _ => [] end) t.

Definition stderr (t : list event) : list str :=
  flat_map (fun e => match e with Stderr s => [s] | _ => [] end) t.

(** The lines taken from the input source: standard input or the file
    named on the command line. *)
Definition input_read (t : list event) : list str :=
  flat_map (fun e => match e with
                     | Read sys_stdin l | Read (input_fh _) l => [l]
                     | _ => []
                     end) t.

(** ** grepcidr.py *)

(** The [argparse.Namespace] that [parse_args] returns. *)
Record Namespace := mkNamespace {
  expr : list str;
  cidr_file : option str;
  invert_match : bool;
  count : bool;
  only_matching : bool;
  field : Z;
  args : list str
}.

(** The files and the standard input of a run: [fs_open path] is the
    text of the OSError that [open(path)] raises, or the lines that the
    opened file yields. *)
Record Env := mkEnv {
  fs_open : str -> str + list str;
  stdin_lines : list str
}.

(** [ip_matches_any], lines 113 to 116: the loop over the networks,
    which returns at the first match. *)
Fixpoint matches_any_loop (ip : ipaddress.Address) (networks : list ipaddress.Network)
    : bool :=
  match networks with
  | [] => false
  | net :: rest =>
      if (ipaddress.version ip =? ipaddress.net_version net)
         && ipaddress.__contains__ net ip
      then true
      else matches_any_loop ip rest
  end.

(** [ip_matches_any] *)
Definition ip_matches_any (ip_s : str) (networks : list ipaddress.Network) : bool :=
  match ipaddress.ip_address ip_s with
  | inl _ => false
  | inr ip => matches_any_loop ip networks
  end.

(** [load_cidrs], lines 78 to 90: the positional arguments. *)
Definition resolve_positional (positional : list str) (cidr_strings : list str)
    : list str * option str :=
  let infile := None in
  if nonempty positional then
    let maybe_last := last positional [] in
    match ipaddress.ip_network maybe_last with
    | inr _ => (cidr_strings ++ positional, infile)
    | inl _ => (cidr_strings ++ removelast positional, Some maybe_last)
    end
  else (cidr_strings, infile).

Section Program.

(** [repr] of a [str], which the messages of [ipaddress] quote their
    argument with; it depends on the interpreter's Unicode tables. *)
Variable repr : str -> str.

Variable env : Env.

(** [str(e)] *)
Definition str_of_ValueError (e : ipaddress.ValueError) : str :=
  match e with
  | ipaddress.not_an_address address =>
      repr address ++ lit " does not appear to be an IPv4 or IPv6 address"
  | ipaddress.not_a_network address =>
      repr address ++ lit " does not appear to be an IPv4 or IPv6 network"
  end.

(** [load_cidrs], lines 64 to 74: the CIDR file. *)
Definition load_cidr_file (ns : Namespace) (cidr_strings : list str) : M (list str) :=
  match cidr_file ns with
  | None => ret cidr_strings
  | Some path =>
      if negb (nonempty path) then ret cidr_strings
      else
        emit (Open path) ;;
        match fs_open env path with
        | inr lines =>
            try_finally
              (for_lines (cidr_fh path) lines
                 (fun line cidr_strings =>
                    let line := strip line in
                    if negb (nonempty line) || startswith line (lit "#")
                    then ret cidr_strings
                    else ret (cidr_strings ++ [line]))
                 cidr_strings)
              (emit (Close (cidr_fh path)))
        | inl e =>
            print_stderr (lit "Cannot open CIDR file '" ++ path ++ lit "': " ++ e) ;;
            sys_exit 3
        end
  end.

(** [load_cidrs], lines 58 to 90: the expressions of the three sources
    and the input file, before anything is parsed into a network. *)
Definition resolve (ns : Namespace) : M (list str * option str) :=
  let cidr_strings := [] ++ expr ns in
  cidr_strings <- load_cidr_file ns cidr_strings ;;
  ret (resolve_positional (args ns) cidr_strings).

(** [load_cidrs], lines 96 to 102. *)
Definition build_networks (cidr_strings : list str) : M (list ipaddress.Network) :=
  for_each cidr_strings
    (fun cidr networks =>
       match ipaddress.ip_network cidr with
       | inr net => ret (networks ++ [net])
       | inl e =>
           print_stderr (lit "Invalid CIDR: " ++ cidr ++ lit " ("
                           ++ str_of_ValueError e ++ lit ")") ;;
           sys_exit 2
       end)
    [].

Definition load_cidrs (ns : Namespace) : M (list ipaddress.Network * option str) :=
  resolved <- resolve ns ;;
  let '(cidr_strings, infile) := resolved in
  if negb (nonempty cidr_strings) then
    print_stderr (lit "No CIDRs provided.") ;;
    sys_exit 2
  else
    networks <- build_networks cidr_strings ;;
    ret (networks, infile).

(** The body of the loop of [main], lines 141 to 160: the new value of
    [selected]. *)
Definition loop_body (ns : Namespace) (networks : list ipaddress.Network)
    (field_index : Z) (line : str) (selected : Z) : M Z :=
  if negb (nonempty (strip line)) then ret selected
  else
    let parts := py_split line in
    if field_index >=? Z.of_nat (length parts) then ret selected
    else
      ip_s <- getitem parts field_index ;;
      let matched := ip_matches_any ip_s networks in
      let matched := if invert_match ns then negb matched else matched in
      if matched then
        let selected := selected + 1 in
        (if negb (count ns) then
           if only_matching ns then print ip_s NL
           else print line []
         else ret tt) ;;
        ret selected
      else ret selected.

(** [main], lines 128 to 134: the input source. *)
Definition open_input (infile : option str) : M (handle * list str) :=
  match infile with
  | None => ret (sys_stdin, stdin_lines env)
  | Some infile =>
      if negb (nonempty infile) then ret (sys_stdin, stdin_lines env)
      else
        emit (Open infile) ;;
        match fs_open env infile with
        | inr lines => ret (input_fh infile, lines)
        | inl e =>
            print_stderr (lit "Cannot open file '" ++ infile ++ lit "': " ++ e) ;;
            sys_exit 3
        end
  end.

Definition main (ns : Namespace) : M unit :=
  if field ns <? 1 then
    print_stderr (lit "Field number must be >= 1") ;;
    sys_exit 2
  else
    loaded <- load_cidrs ns ;;
    let '(networks, infile) := loaded in
    opened <- open_input infile ;;
    let '(fh, lines) := opened in
    let selected := 0 in
    let field_index := field ns - 1 in
    selected <-
      try_finally
        (for_lines fh lines (loop_body ns networks field_index) selected)
        (match fh with
         | sys_stdin => ret tt
         | _ => emit (Close fh)
         end) ;;
    if count ns then print (str_of_int selected) NL
    else ret tt.

End Program.

(** ** The per-line contract, in the words of the specification *)

(** The field the user selected (1-based [field ns]), when the line has
    that many whitespace-delimited fields. *)
Definition selected_field (ns : Namespace) (line : str) : option str :=
  nth_error (py_split line) (Z.to_nat (field ns - 1)).

(** Raw match XOR invert flag, for a line that reaches the membership
    test; [None] for a line that is skipped before it. *)
Definition effective_match (ns : Namespace) (networks : list ipaddress.Network)
    (line : str) : option bool :=
  option_map (fun ip_s => xorb (ip_matches_any ip_s networks) (invert_match ns))
             (selected_field ns line).

(** The lines whose effective match is true. *)
Definition selected_lines (ns : Namespace) (networks : list ipaddress.Network)
    (lines : list str) : list str :=
  filter (fun line => match effective_match ns networks line with
                      | Some true => true
                      | _ => false
                      end) lines.

(** A line made of whitespace only, or empty. *)
Definition blank (line : str) : Prop := forallb py_isspace line = true.

(** The events of the loop of [main] for one line. *)
Definition line_events (ns : Namespace) (networks : list ipaddress.Network)
    (fh : handle) (line : str) : list event :=
  Read fh line ::
  match selected_field ns line with
  | Some ip_s =>
      if xorb (ip_matches_any ip_s networks) (invert_match ns) then
        if count ns then []
        else [Stdout (if only_matching ns then ip_s ++ NL else line)]
      else []
  | None => []
  end.

(** ** Auxiliary definitions for the statements *)

(** The text written for a selected line when count mode is off. *)
Definition emitted_text (ns : Namespace) (line : str) : str :=
  if only_matching ns then
    match selected_field ns line with
    | Some ip_s => ip_s ++ NL
    | None => []
    end
  else line.

(** A trace that writes nothing to standard output and takes no line
    from the input source. *)
Definition silent (t : list event) : Prop := stdout t = [] /\ input_read t = [].

(** The events of closing the input source at the end of [main]. *)
Definition close_events (fh : handle) : list event :=
  match fh with
  | sys_stdin => []
  | _ => [Close fh]
  end.

(** What one line of the CIDR file adds to the expressions. *)
Definition cidr_file_step (cidr_strings : list str) (line : str) : list str :=
  if negb (nonempty (strip line)) || startswith (strip line) (lit "#")
  then cidr_strings
  else cidr_strings ++ [strip line].

(** The first expression that [ip_network] refuses, with the exception. *)
Fixpoint first_invalid (cidr_strings : list str) : option (str * ipaddress.ValueError) :=
  match cidr_strings with
  | [] => None
  | cidr :: rest =>
      match ipaddress.ip_network cidr with
      | inl e => Some (cidr, e)
      | inr _ => first_invalid rest
      end
  end.

(** The networks of the expressions that [ip_network] accepts. *)
Definition parsed (cidr_strings : list str) : list ipaddress.Network :=
  flat_map (fun cidr => match ipaddress.ip_network cidr with
                        | inr net => [net]
                        | inl _ => []
                        end) cidr_strings.

(** The text [load_cidrs] writes for an expression that does not parse. *)
Definition invalid_cidr_message (repr : str -> str) (cidr : str)
    (e : ipaddress.ValueError) : str :=
  (lit "Invalid CIDR: " ++ cidr ++ lit " (" ++ str_of_ValueError repr e ++ lit ")") ++ NL.

(** The namespace with the only-matching flag set to [b]. *)
Definition with_only_matching (b : bool) (ns : Namespace) : Namespace :=
  mkNamespace (expr ns) (cidr_file ns) (invert_match ns) (count ns) b (field ns) (args ns).


(** The namespace with the count flag set to [b]. *)
Definition with_count (b : bool) (ns : Namespace) : Namespace :=
  mkNamespace (expr ns) (cidr_file ns) (invert_match ns) b (only_matching ns) (field ns)
    (args ns).


(** The test of lines 69 and 70 on a stripped line of the CIDR file:
    neither empty nor a comment. *)
Definition is_expression_line (line : str) : bool :=
  nonempty line && negb (startswith line (lit "#")).

(** The expressions a run takes from its CIDR file. *)
Definition cidr_file_expressions (env : Env) (ns : Namespace) : list str :=
  match cidr_file ns with
  | Some path =>
      if nonempty path then
        match fs_open env path with
        | inr lines => filter is_expression_line (map strip lines)
        | inl _ => []
        end
      else []
  | None => []
  end.

(** The paths a trace calls [open] on, and the paths of the files it
    closes, in order. *)
Definition opened (t : list event) : list str :=
  flat_map (fun e => match e with Open p => [p] | _ => [] end) t.

Definition closed (t : list event) : list str :=
  flat_map (fun e => match e with
                     | Close (cidr_fh p) | Close (input_fh p) => [p]
                     | _ => []
                     end) t.

(** Whether [open(path)] returns a file. *)
Definition can_open (env : Env) (path : str) : bool :=
  match fs_open env path with
  | inr _ => true
  | inl _ => false
  end.

(** A string with no whitespace in it. *)
Definition no_space (s : str) : bool := forallb (fun c => negb (py_isspace c)) s.

(** A trace that closes, in the order they were opened, exactly the
    files whose [open] returned, and never closes standard input. *)
Definition releases_files (env : Env) (t : list event) : Prop :=
  closed t = filter (can_open env) (opened t) /\ ~ In (Close sys_stdin) t.

(** ** Example data *)

(** [repr] of a string of printable ASCII characters with no quote and
    no backslash in it. *)
Definition quote (s : str) : str := lit "'" ++ s ++ lit "'".

(** An input file of five lines: a match in field 2, a blank line, a
    non-match, a line with one field only, a field that is no address
    (and no newline at the end of the file). *)
Definition hosts_txt : list str :=
  [ lit "host1 10.1.2.3 up" ++ NL;
    lit "  " ++ NL;
    lit "host2 192.168.1.1 down" ++ NL;
    lit "short" ++ NL;
    lit "host3 nonsense x" ].

(** A file system that holds [hosts.txt] only, and a standard input of
    one line. *)
Definition demo_env : Env :=
  mkEnv (fun path =>
           if str_eqb path (lit "hosts.txt") then inr hosts_txt
           else inl (lit "[Errno 2] No such file or directory: " ++ quote path))
        [lit "10.0.0.1" ++ NL].

(** [grepcidr.py [-v] [-c] [-o] -f field 10.0.0.0/8 hosts.txt] *)
Definition demo_ns (invert count_only only : bool) (field : Z) : Namespace :=
  mkNamespace [] None invert count_only only field [lit "10.0.0.0/8"; lit "hosts.txt"].

Definition net_10_8 : ipaddress.Network :=
  ipaddress.mkNetwork ipaddress.V4
    (ipaddress.mkAddress ipaddress.V4 167772160 None)
    (ipaddress.mkAddress ipaddress.V4 4278190080 None) 8.

Definition net_192_168 : ipaddress.Network :=
  ipaddress.mkNetwork ipaddress.V4
    (ipaddress.mkAddress ipaddress.V4 3232235520 None)
    (ipaddress.mkAddress ipaddress.V4 4294901760 None) 16.

(** ** Facts about the string primitives *)

Lemma lstrip_nil_iff (s : str) : lstrip s = [] <-> forallb py_isspace s = true.
Proof.
  induction s as [|c t IH]; simpl.
  - tauto.
  - destruct (py_isspace c); simpl.
    + exact IH.
    + split; intro H; discriminate H.
Qed.

Lemma lstrip_head (s : str) c t : lstrip s = c :: t -> py_isspace c = false.
Proof.
  induction s as [|d u IH]; simpl; [discriminate|].
  destruct (py_isspace d) eqn:E; auto.
  intro H; injection H as -> _. exact E.
Qed.

Lemma forallb_rev {A} (f : A -> bool) (l : list A) :
  forallb f (rev l) = forallb f l.
Proof.
  induction l as [|x l IH]; simpl; auto.
  rewrite forallb_app, IH. simpl. rewrite andb_true_r. apply andb_comm.
Qed.

Lemma strip_nil_iff (s : str) : strip s = [] <-> blank s.
Proof.
  unfold strip, rstrip, blank. split.
  - intro H.
    assert (H1 : lstrip (rev (lstrip s)) = []).
    { destruct (lstrip (rev (lstrip s))) as [|x l]; auto.
      apply (f_equal (@length _)) in H. rewrite length_rev in H. discriminate H. }
    apply lstrip_nil_iff in H1. rewrite forallb_rev in H1.
    destruct (lstrip s) as [|c t] eqn:E.
    + apply lstrip_nil_iff; exact E.
    + apply lstrip_head in E. simpl in H1. rewrite E in H1. discriminate H1.
  - intro H. apply lstrip_nil_iff in H. rewrite H. reflexivity.
Qed.

Lemma py_split_nil_iff (s : str) : py_split s = [] <-> blank s.
Proof.
  unfold blank. induction s as [|c t IH]; simpl.
  - tauto.
  - destruct (py_isspace c); simpl; [exact IH|].
    split; [|discriminate].
    destruct t as [|d u]; [discriminate|].
    destruct (py_isspace d); [discriminate|].
    destruct (py_split (d :: u)); discriminate.
Qed.

(** A blank line has no field, and a line with a field is not blank. *)
Lemma blank_no_field (ns : Namespace) (line : str) :
  blank line -> selected_field ns line = None.
Proof.
  intro H. apply py_split_nil_iff in H. unfold selected_field. rewrite H.
  destruct (Z.to_nat (field ns - 1)); reflexivity.
Qed.

Lemma field_not_blank (ns : Namespace) (line ip_s : str) :
  selected_field ns line = Some ip_s -> nonempty (strip line) = true.
Proof.
  intro H. destruct (strip line) eqn:E; [|reflexivity].
  apply strip_nil_iff in E. rewrite (blank_no_field ns line E) in H. discriminate H.
Qed.

(** ** Facts about the effect monad *)

Lemma mbind_ret {A B} (a : A) (k : A -> M B) : mbind (ret a) k = k a.
Proof. unfold mbind, ret. destruct (k a). reflexivity. Qed.

Lemma mbind_emit {B} (e : event) (k : unit -> M B) :
  mbind (emit e) k = (e :: fst (k tt), snd (k tt)).
Proof. unfold mbind, emit. destruct (k tt). reflexivity. Qed.

Lemma for_each_app {A S} (xs ys : list A) (body : A -> S -> M S) (acc : S) :
  for_each (xs ++ ys) body acc = mbind (for_each xs body acc) (for_each ys body).
Proof.
  revert acc. induction xs as [|x xs IH]; intro acc; cbn [app for_each].
  - rewrite mbind_ret. reflexivity.
  - unfold mbind at 1 3. destruct (body x acc) as [t [e|acc']]; simpl.
    + reflexivity.
    + rewrite IH. unfold mbind.
      destruct (for_each xs body acc') as [t1 [e1|a1]]; simpl.
      * reflexivity.
      * destruct (for_each ys body a1) as [t2 r2]. rewrite app_assoc. reflexivity.
Qed.

Lemma getitem_nth {A} (xs : list A) (i : Z) (x : A) :
  0 <= i -> nth_error xs (Z.to_nat i) = Some x -> getitem xs i = ret x.
Proof.
  intros Hi Hn. unfold getitem.
  assert (Hlt : (Z.to_nat i < length xs)%nat)
    by (apply nth_error_Some; rewrite Hn; discriminate).
  destruct (Z.ltb_spec i 0); [lia|].
  destruct (Z.ltb_spec i 0); [lia|].
  destruct (Z.leb_spec (Z.of_nat (length xs)) i); [lia|].
  simpl. rewrite Hn. reflexivity.
Qed.

(** ** The loop body, line by line *)

Section LoopBody.

Variable ns : Namespace.
Variable networks : list ipaddress.Network.
Hypothesis field_ok : 1 <= field ns.

Lemma loop_body_no_field (line : str) (selected : Z) :
  selected_field ns line = None ->
  loop_body ns networks (field ns - 1) line selected = ret selected.
Proof.
  unfold selected_field, loop_body. intro H.
  destruct (nonempty (strip line)); simpl; [|reflexivity].
  apply nth_error_None in H.
  destruct (Z.geb_spec (field ns - 1) (Z.of_nat (length (py_split line)))); [reflexivity|lia].
Qed.

Lemma loop_body_field (line ip_s : str) (selected : Z) :
  selected_field ns line = Some ip_s ->
  loop_body ns networks (field ns - 1) line selected =
  if xorb (ip_matches_any ip_s networks) (invert_match ns) then
    ((if count ns then []
      else [Stdout (if only_matching ns then ip_s ++ NL else line)]),
     inr (selected + 1))
  else ret selected.
Proof.
  intro H. unfold loop_body. rewrite (field_not_blank _ _ _ H). simpl.
  unfold selected_field in H.
  assert (Hlt : (Z.to_nat (field ns - 1) < length (py_split line))%nat)
    by (apply nth_error_Some; rewrite H; discriminate).
  destruct (Z.geb_spec (field ns - 1) (Z.of_nat (length (py_split line)))); [lia|].
  assert (Hge : 0 <= field ns - 1) by lia.
  rewrite (getitem_nth _ _ _ Hge H), mbind_ret.
  unfold print. rewrite app_nil_r.
  destruct (ip_matches_any ip_s networks), (invert_match ns), (count ns),
    (only_matching ns); reflexivity.
Qed.

Lemma loop_body_events (fh : handle) (line : str) (selected : Z) :
  mbind (emit (Read fh line))
        (fun _ => loop_body ns networks (field ns - 1) line selected) =
  (line_events ns networks fh line,
   inr (selected + Z.of_nat (length (selected_lines ns networks [line])))).
Proof.
  rewrite mbind_emit. unfold line_events, selected_lines, effective_match. simpl.
  destruct (selected_field ns line) as [ip_s|] eqn:E; simpl.
  - rewrite (loop_body_field _ _ _ E).
    destruct (xorb (ip_matches_any ip_s networks) (invert_match ns)); simpl.
    + reflexivity.
    + rewrite Z.add_0_r. reflexivity.
  - rewrite (loop_body_no_field _ _ E). simpl. rewrite Z.add_0_r. reflexivity.
Qed.

Lemma for_lines_loop (fh : handle) (lines : list str) (selected : Z) :
  for_lines fh lines (loop_body ns networks (field ns - 1)) selected =
  (flat_map (line_events ns networks fh) lines,
   inr (selected + Z.of_nat (length (selected_lines ns networks lines)))).
Proof.
  unfold for_lines. revert selected.
  induction lines as [|line lines IH]; intro selected.
  - simpl. unfold ret. rewrite Z.add_0_r. reflexivity.
  - cbn [for_each flat_map]. rewrite loop_body_events. unfold mbind.
    rewrite IH. f_equal. f_equal.
    unfold selected_lines. simpl.
    destruct (effective_match ns networks line) as [[|]|]; simpl; lia.
Qed.

End LoopBody.

(** ** Facts about traces *)

Lemma stdout_app (a b : list event) : stdout (a ++ b) = stdout a ++ stdout b.
Proof. apply flat_map_app. Qed.

Lemma input_read_app (a b : list event) :
  input_read (a ++ b) = input_read a ++ input_read b.
Proof. apply flat_map_app. Qed.

Lemma stderr_app (a b : list event) : stderr (a ++ b) = stderr a ++ stderr b.
Proof. apply flat_map_app. Qed.

Lemma silent_nil : silent [].
Proof. split; reflexivity. Qed.

Lemma silent_app (a b : list event) : silent a -> silent b -> silent (a ++ b).
Proof.
  intros [Ha1 Ha2] [Hb1 Hb2]. split.
  - rewrite stdout_app, Ha1, Hb1. reflexivity.
  - rewrite input_read_app, Ha2, Hb2. reflexivity.
Qed.

Lemma silent_cidr_reads (path : str) (lines : list str) :
  silent (map (Read (cidr_fh path)) lines).
Proof.
  induction lines as [|l lines [IH1 IH2]]; [apply silent_nil|].
  split; simpl; assumption.
Qed.

(** A loop whose body only computes: it reads every line and folds. *)
Lemma for_lines_pure {S} (fh : handle) (lines : list str)
    (body : str -> S -> M S) (f : str -> S -> S) (acc : S) :
  (forall l a, body l a = ret (f l a)) ->
  for_lines fh lines body acc =
  (map (Read fh) lines, inr (fold_left (fun a l => f l a) lines acc)).
Proof.
  intro Hb. unfold for_lines. revert acc.
  induction lines as [|l lines IH]; intro acc; [reflexivity|].
  cbn [for_each map fold_left]. rewrite mbind_emit, Hb. cbn [fst snd ret].
  unfold mbind. rewrite IH. reflexivity.
Qed.

(** ** The networks built from a list of expressions *)

Lemma first_invalid_some (cidr_strings : list str) (bad : str) :
  In bad cidr_strings -> (exists e, ipaddress.ip_network bad = inl e) ->
  exists cidr e, first_invalid cidr_strings = Some (cidr, e).
Proof.
  induction cidr_strings as [|c rest IH]; simpl; [tauto|].
  intros [->|Hin] [e He].
  - rewrite He. eauto.
  - destruct (ipaddress.ip_network c); eauto.
Qed.

Lemma first_invalid_in (cidr_strings : list str) (cidr : str) e :
  first_invalid cidr_strings = Some (cidr, e) ->
  In cidr cidr_strings /\ ipaddress.ip_network cidr = inl e
  /\ e = ipaddress.not_a_network cidr.
Proof.
  induction cidr_strings as [|c rest IH]; simpl; [discriminate|].
  destruct (ipaddress.ip_network c) as [e'|n] eqn:E.
  - intro H. injection H as -> ->. repeat split; auto.
    unfold ipaddress.ip_network in E.
    destruct (ipaddress.IPv4Network cidr); [|discriminate].
    destruct (ipaddress.IPv6Network cidr); [|discriminate].
    injection E as <-. reflexivity.
  - intro H. destruct (IH H) as (H1 & H2 & H3). auto.
Qed.

Lemma first_invalid_none (cidr_strings : list str) :
  first_invalid cidr_strings = None ->
  Forall2 (fun cidr net => ipaddress.ip_network cidr = inr net)
          cidr_strings (parsed cidr_strings).
Proof.
  unfold parsed. induction cidr_strings as [|c rest IH]; simpl; [constructor|].
  destruct (ipaddress.ip_network c) eqn:E; [discriminate|].
  intro H. simpl. constructor; auto.
Qed.

Section Run.

Variable repr : str -> str.
Variable env : Env.

Lemma build_networks_from (cidr_strings : list str) (acc : list ipaddress.Network) :
  for_each cidr_strings
    (fun cidr networks =>
       match ipaddress.ip_network cidr with
       | inr net => ret (networks ++ [net])
       | inl e =>
           print_stderr (lit "Invalid CIDR: " ++ cidr ++ lit " ("
                           ++ str_of_ValueError repr e ++ lit ")") ;;
           sys_exit 2
       end) acc =
  match first_invalid cidr_strings with
  | Some (cidr, e) => ([Stderr (invalid_cidr_message repr cidr e)], inl (SystemExit 2))
  | None => ([], inr (acc ++ parsed cidr_strings))
  end.
Proof.
  revert acc. unfold parsed.
  induction cidr_strings as [|c rest IH]; intro acc; cbn [for_each first_invalid flat_map].
  - unfold ret. rewrite app_nil_r. reflexivity.
  - destruct (ipaddress.ip_network c) as [e|net].
    + reflexivity.
    + rewrite mbind_ret, IH.
      destruct (first_invalid rest) as [[cidr e]|]; [reflexivity|].
      rewrite <- app_assoc. reflexivity.
Qed.

Lemma build_networks_spec (cidr_strings : list str) :
  build_networks repr cidr_strings =
  match first_invalid cidr_strings with
  | Some (cidr, e) => ([Stderr (invalid_cidr_message repr cidr e)], inl (SystemExit 2))
  | None => ([], inr (parsed cidr_strings))
  end.
Proof. unfold build_networks. apply build_networks_from. Qed.

Lemma load_cidr_file_spec (ns : Namespace) (cidr_strings : list str) :
  load_cidr_file env ns cidr_strings =
  match cidr_file ns with
  | None => ret cidr_strings
  | Some path =>
      if nonempty path then
        match fs_open env path with
        | inr lines =>
            (Open path :: map (Read (cidr_fh path)) lines ++ [Close (cidr_fh path)],
             inr (fold_left cidr_file_step lines cidr_strings))
        | inl e =>
            ([Open path;
              Stderr ((lit "Cannot open CIDR file '" ++ path ++ lit "': " ++ e) ++ NL)],
             inl (SystemExit 3))
        end
      else ret cidr_strings
  end.
Proof.
  unfold load_cidr_file.
  destruct (cidr_file ns) as [path|]; [|reflexivity].
  destruct (nonempty path); cbn [negb]; [|reflexivity].
  rewrite mbind_emit.
  destruct (fs_open env path) as [e|lines]; [reflexivity|].
  erewrite for_lines_pure with (f := fun line cs => cidr_file_step cs line).
  2:{ intros l a. unfold cidr_file_step.
      destruct (negb (nonempty (strip l)) || startswith (strip l) (lit "#")); reflexivity. }
  reflexivity.
Qed.

Lemma load_cidr_file_silent (ns : Namespace) (cidr_strings : list str) :
  silent (fst (load_cidr_file env ns cidr_strings)).
Proof.
  rewrite load_cidr_file_spec.
  destruct (cidr_file ns) as [path|]; [|apply silent_nil].
  destruct (nonempty path); [|apply silent_nil].
  destruct (fs_open env path) as [e|lines]; cbn [fst].
  - split; reflexivity.
  - apply (silent_app [Open path]); [split; reflexivity|].
    apply silent_app; [apply silent_cidr_reads|split; reflexivity].
Qed.

Lemma load_cidr_file_raises (ns : Namespace) (cidr_strings : list str) t e :
  load_cidr_file env ns cidr_strings = (t, inl e) -> e = SystemExit 3.
Proof.
  rewrite load_cidr_file_spec.
  destruct (cidr_file ns) as [path|]; [|discriminate].
  destruct (nonempty path); [|discriminate].
  destruct (fs_open env path) as [msg|lines]; [|discriminate].
  intro E; injection E as _ <-. reflexivity.
Qed.

Lemma load_cidr_file_stderr (ns : Namespace) (cidr_strings : list str) t r :
  load_cidr_file env ns cidr_strings = (t, inr r) -> stderr t = [].
Proof.
  rewrite load_cidr_file_spec.
  destruct (cidr_file ns) as [path|].
  2:{ intro E; injection E as <- _. reflexivity. }
  destruct (nonempty path).
  2:{ intro E; injection E as <- _. reflexivity. }
  destruct (fs_open env path) as [msg|lines]; [discriminate|].
  intro E; injection E as <- _.
  change (stderr ([Open path] ++ map (Read (cidr_fh path)) lines ++ [Close (cidr_fh path)]) = []).
  rewrite !stderr_app. cbn. rewrite app_nil_r.
  induction lines as [|l lines IH]; [reflexivity|exact IH].
Qed.

Lemma resolve_silent (ns : Namespace) : silent (fst (resolve env ns)).
Proof.
  unfold resolve. pose proof (load_cidr_file_silent ns ([] ++ expr ns)) as H.
  unfold mbind. destruct (load_cidr_file env ns ([] ++ expr ns)) as [t [e|cs]]; simpl in *.
  - exact H.
  - rewrite app_nil_r. exact H.
Qed.

(** [load_cidrs] after the expressions are resolved. *)
Lemma load_cidrs_resolved (ns : Namespace) t cidr_strings infile :
  resolve env ns = (t, inr (cidr_strings, infile)) ->
  load_cidrs repr env ns =
  match cidr_strings with
  | [] => (t ++ [Stderr (lit "No CIDRs provided." ++ NL)], inl (SystemExit 2))
  | _ :: _ =>
      match first_invalid cidr_strings with
      | Some (cidr, e) =>
          (t ++ [Stderr (invalid_cidr_message repr cidr e)], inl (SystemExit 2))
      | None => (t, inr (parsed cidr_strings, infile))
      end
  end.
Proof.
  intro H. unfold load_cidrs. rewrite H. unfold mbind at 1.
  destruct cidr_strings as [|c rest]; [reflexivity|].
  cbn [nonempty negb]. rewrite build_networks_spec.
  destruct (first_invalid (c :: rest)) as [[cidr e]|]; cbn.
  - reflexivity.
  - rewrite !app_nil_r. reflexivity.
Qed.

Lemma load_cidrs_unresolved (ns : Namespace) t e :
  resolve env ns = (t, inl e) -> load_cidrs repr env ns = (t, inl e).
Proof. intro H. unfold load_cidrs. rewrite H. reflexivity. Qed.

Lemma load_cidrs_silent (ns : Namespace) : silent (fst (load_cidrs repr env ns)).
Proof.
  pose proof (resolve_silent ns) as H.
  destruct (resolve env ns) as [t [e|[cs infile]]] eqn:E.
  - rewrite (load_cidrs_unresolved _ _ _ E). exact H.
  - rewrite (load_cidrs_resolved _ _ _ _ E). simpl in H.
    destruct cs as [|c rest].
    + apply silent_app; [exact H|split; reflexivity].
    + destruct (first_invalid (c :: rest)) as [[cidr e]|]; simpl.
      * apply silent_app; [exact H|split; reflexivity].
      * exact H.
Qed.

Lemma open_input_silent (infile : option str) : silent (fst (open_input env infile)).
Proof.
  unfold open_input. destruct infile as [p|]; [|apply silent_nil].
  destruct (nonempty p); cbn [negb]; [|apply silent_nil].
  rewrite mbind_emit. destruct (fs_open env p); split; reflexivity.
Qed.

(** The runs of [main] that stop before the loop. *)
Lemma main_bad_field (ns : Namespace) :
  field ns < 1 ->
  main repr env ns =
  ([Stderr (lit "Field number must be >= 1" ++ NL)], inl (SystemExit 2)).
Proof.
  intro H. unfold main. apply Z.ltb_lt in H. rewrite H. reflexivity.
Qed.

Lemma main_load_fails (ns : Namespace) t e :
  1 <= field ns ->
  load_cidrs repr env ns = (t, inl e) ->
  main repr env ns = (t, inl e).
Proof.
  intros Hf Hl. unfold main. destruct (Z.ltb_spec (field ns) 1); [lia|].
  rewrite Hl. reflexivity.
Qed.

Lemma main_open_fails (ns : Namespace) t1 networks infile t2 e :
  1 <= field ns ->
  load_cidrs repr env ns = (t1, inr (networks, infile)) ->
  open_input env infile = (t2, inl e) ->
  main repr env ns = (t1 ++ t2, inl e).
Proof.
  intros Hf Hl Ho. unfold main. destruct (Z.ltb_spec (field ns) 1); [lia|].
  rewrite Hl. unfold mbind at 1. rewrite Ho. reflexivity.
Qed.

(** A run of [main] that gets as far as the loop. *)
Lemma main_run (ns : Namespace) t1 networks infile t2 fh lines :
  1 <= field ns ->
  load_cidrs repr env ns = (t1, inr (networks, infile)) ->
  open_input env infile = (t2, inr (fh, lines)) ->
  main repr env ns =
  (t1 ++ t2 ++ flat_map (line_events ns networks fh) lines ++ close_events fh
      ++ (if count ns
          then [Stdout (str_of_int (Z.of_nat (length (selected_lines ns networks lines))) ++ NL)]
          else []),
   inr tt).
Proof.
  intros Hf Hl Ho. unfold main.
  destruct (Z.ltb_spec (field ns) 1); [lia|].
  rewrite Hl. unfold mbind at 1. rewrite Ho. unfold mbind at 1.
  rewrite (for_lines_loop ns networks Hf).
  unfold try_finally, close_events.
  destruct fh, (count ns); cbn; rewrite <- ?app_assoc, ?app_nil_r; reflexivity.
Qed.

End Run.

(** ** Facts about the embedded [ipaddress] module *)

Module ipaddress_facts.
Import ipaddress.

Lemma max_prefixlen_pos (cls : family) : 0 < _max_prefixlen cls.
Proof. destruct cls; reflexivity. Qed.

Lemma ALL_ONES_ones (cls : family) : _ALL_ONES cls = Z.ones (_max_prefixlen cls).
Proof. destruct cls; reflexivity. Qed.

Lemma version_inj (c d : family) : _version c = _version d -> c = d.
Proof. destruct c, d; simpl; intro H; try reflexivity; discriminate H. Qed.

(** [_ALL_ONES >> p] is the host mask: ones in the low [max - p] bits. *)
Lemma hostmask_ones (cls : family) (p : Z) :
  0 <= p <= _max_prefixlen cls ->
  Z.shiftr (_ALL_ONES cls) p = Z.ones (_max_prefixlen cls - p).
Proof.
  intro H. rewrite ALL_ONES_ones, Z.shiftr_div_pow2 by lia.
  apply Z.ones_div_pow2. lia.
Qed.

(** The netmask of prefix length [p]: ones in the top [p] of the
    [max] bits of the family, zeros elsewhere. *)
Lemma netmask_testbit (cls : family) (p i : Z) :
  0 <= p <= _max_prefixlen cls -> 0 <= i ->
  Z.testbit (_ip_int_from_prefix cls p) i
  = (_max_prefixlen cls - p <=? i) && (i <? _max_prefixlen cls).
Proof.
  intros Hp Hi. unfold _ip_int_from_prefix.
  rewrite Z.lxor_spec, hostmask_ones, ALL_ONES_ones by assumption.
  rewrite !Z.testbit_ones_nonneg by lia.
  destruct (Z.ltb_spec i (_max_prefixlen cls)),
           (Z.ltb_spec i (_max_prefixlen cls - p)),
           (Z.leb_spec (_max_prefixlen cls - p) i); simpl; try reflexivity; lia.
Qed.

Lemma netmask_range (cls : family) (p : Z) :
  0 <= p <= _max_prefixlen cls ->
  0 <= _ip_int_from_prefix cls p <= _ALL_ONES cls.
Proof.
  intro Hp.
  assert (H : _ip_int_from_prefix cls p
              = Z.land (_ip_int_from_prefix cls p) (Z.ones (_max_prefixlen cls))).
  { apply Z.bits_inj'. intros i Hi.
    rewrite Z.land_spec, Z.testbit_ones_nonneg, netmask_testbit
      by (pose proof (max_prefixlen_pos cls); lia).
    destruct (i <? _max_prefixlen cls); rewrite ?andb_true_r, ?andb_false_r; reflexivity. }
  rewrite Z.land_ones in H by (pose proof (max_prefixlen_pos cls); lia).
  pose proof (Z.mod_pos_bound (_ip_int_from_prefix cls p) (2 ^ _max_prefixlen cls)
                ltac:(destruct cls; reflexivity)) as Hb.
  rewrite <- H in Hb. unfold _ALL_ONES. lia.
Qed.

(** Masking with the netmask clears every host bit. *)
Lemma masked_host_bits (cls : family) (p a : Z) :
  0 <= p <= _max_prefixlen cls ->
  Z.land (Z.land a (_ip_int_from_prefix cls p)) (Z.shiftr (_ALL_ONES cls) p) = 0.
Proof.
  intro Hp. rewrite hostmask_ones by assumption.
  apply Z.bits_inj'. intros i Hi.
  rewrite !Z.land_spec, Z.bits_0, netmask_testbit, Z.testbit_ones_nonneg by lia.
  destruct (Z.ltb_spec i (_max_prefixlen cls - p)),
           (Z.leb_spec (_max_prefixlen cls - p) i); simpl;
    rewrite ?andb_false_r; try reflexivity; lia.
Qed.

Lemma masked_idempotent (a m : Z) : Z.land (Z.land a m) m = Z.land a m.
Proof. rewrite <- Z.land_assoc, Z.land_diag. reflexivity. Qed.

(** Bounds of a masked value. *)
Lemma land_range (a b n : Z) :
  0 <= n -> 0 <= b < 2 ^ n -> 0 <= Z.land a b < 2 ^ n.
Proof.
  intros Hn Hb.
  assert (H0 : 0 <= Z.land a b) by (apply Z.land_nonneg; right; lia).
  split; [exact H0|].
  assert (H : Z.land a b = Z.land (Z.land a b) (Z.ones n)).
  { apply Z.bits_inj'. intros i Hi.
    rewrite !Z.land_spec, Z.testbit_ones_nonneg by lia.
    destruct (Z.ltb_spec i n); [rewrite andb_true_r; reflexivity|].
    rewrite andb_false_r.
    assert (Hbi : Z.testbit b i = false).
    { destruct (Z.eq_dec b 0) as [->|Hne]; [apply Z.bits_0|].
      apply Z.bits_above_log2; [lia|].
      assert (Z.log2 b < n) by (apply Z.log2_lt_pow2; lia). lia. }
    rewrite Hbi, andb_false_r. reflexivity. }
  rewrite Z.land_ones in H by lia.
  pose proof (Z.mod_pos_bound (Z.land a b) (2 ^ n)
                ltac:(apply Z.pow_pos_nonneg; lia)) as Hm.
  lia.
Qed.

(** The constructors from an [int]. *)
Lemma address_of_int (cls : family) (n : Z) (a : Address) :
  _address_class cls (inl n) = inr a ->
  a = mkAddress cls n None /\ 0 <= n <= _ALL_ONES cls.
Proof.
  unfold _address_class, IPv4Address, IPv6Address, bind, _check_int_address.
  destruct cls;
    (destruct (Z.ltb_spec n 0); [discriminate|]);
    [destruct (Z.ltb_spec (_ALL_ONES V4) n)|destruct (Z.ltb_spec (_ALL_ONES V6) n)];
    try discriminate; intro E; injection E as <-; split; auto; lia.
Qed.

Lemma address_of_int_ok (cls : family) (n : Z) :
  0 <= n <= _ALL_ONES cls ->
  _address_class cls (inl n) = inr (mkAddress cls n None).
Proof.
  intro Hr. unfold _address_class, IPv4Address, IPv6Address, bind, _check_int_address.
  destruct cls;
    (destruct (Z.ltb_spec n 0); [lia|]);
    [destruct (Z.ltb_spec (_ALL_ONES V4) n)|destruct (Z.ltb_spec (_ALL_ONES V6) n)];
    try lia; reflexivity.
Qed.

Lemma bit_length_nonneg (n : Z) : 0 <= bit_length n.
Proof.
  unfold bit_length. destruct (Z.abs n =? 0); [lia|].
  pose proof (Z.log2_nonneg (Z.abs n)). lia.
Qed.

Lemma count_righthand_range (n bits : Z) :
  0 <= bits -> 0 <= _count_righthand_zero_bits n bits <= bits.
Proof.
  intro H. unfold _count_righthand_zero_bits.
  destruct (n =? 0); [lia|].
  pose proof (bit_length_nonneg (Z.land (Z.lnot n) (n - 1))). lia.
Qed.

Lemma prefix_from_ip_int_range (cls : family) (x p : Z) :
  _prefix_from_ip_int cls x = Some p -> 0 <= p <= _max_prefixlen cls.
Proof.
  unfold _prefix_from_ip_int.
  pose proof (count_righthand_range x (_max_prefixlen cls)
                ltac:(pose proof (max_prefixlen_pos cls); lia)).
  destruct (negb _); [discriminate|]. intro E; injection E as <-. lia.
Qed.

Lemma prefix_from_prefix_string_range (cls : family) (s : str) (p : Z) :
  _prefix_from_prefix_string cls s = inr p ->
  0 <= p <= _max_prefixlen cls /\ forallb is_ascii_digit s = true.
Proof.
  unfold _prefix_from_prefix_string, isascii_isdigit.
  destruct (nonempty s); simpl; [|discriminate].
  destruct (forallb is_ascii_digit s); simpl; [|discriminate].
  destruct (py_int s 10); [|discriminate].
  destruct (Z.leb_spec 0 z), (Z.leb_spec z (_max_prefixlen cls)); simpl;
    try discriminate.
  intro E; injection E as <-. auto.
Qed.

Lemma prefix_from_ip_string_range (cls : family) (s : str) (p : Z) :
  _prefix_from_ip_string cls s = inr p -> 0 <= p <= _max_prefixlen cls.
Proof.
  unfold _prefix_from_ip_string.
  destruct (_ip_int_from_string cls s) as [e|x]; [discriminate|].
  destruct (_prefix_from_ip_int cls x) as [q|] eqn:E1.
  - intro E; injection E as <-. eapply prefix_from_ip_int_range; eauto.
  - destruct (_prefix_from_ip_int cls (Z.lxor x (_ALL_ONES cls))) as [q|] eqn:E2;
      [|discriminate].
    intro E; injection E as <-. eapply prefix_from_ip_int_range; eauto.
Qed.

(** What [_make_netmask] returns: the netmask of a prefix length within
    the width of the family. *)
Lemma make_netmask_inv (cls : family) (arg : Z + str) (nm : Address) (p : Z) :
  _make_netmask cls arg = inr (nm, p) ->
  nm = mkAddress cls (_ip_int_from_prefix cls p) None
  /\ 0 <= p <= _max_prefixlen cls.
Proof.
  unfold _make_netmask, bind.
  match goal with |- match ?m with _ => _ end = _ -> _ =>
    destruct m as [e|q] eqn:Eq end; [discriminate|].
  destruct (_address_class cls (inl (_ip_int_from_prefix cls q))) as [e|a] eqn:Ea;
    [discriminate|].
  intro E; injection E as <- <-.
  apply address_of_int in Ea. destruct Ea as [-> _]. split; [reflexivity|].
  destruct arg as [n|s].
  - destruct (Z.leb_spec 0 n), (Z.leb_spec n (_max_prefixlen cls));
      simpl in Eq; try discriminate.
    injection Eq as <-. lia.
  - destruct cls.
    + destruct (_prefix_from_prefix_string V4 s) as [[|]|q'] eqn:E1.
      * discriminate.
      * eapply prefix_from_ip_string_range; eauto.
      * injection Eq as <-. eapply prefix_from_prefix_string_range; eauto.
    + eapply prefix_from_prefix_string_range; eauto.
Qed.

Lemma address_class_cls (cls : family) (arg : Z + str) (a : Address) :
  _address_class cls arg = inr a -> a_cls a = cls.
Proof.
  destruct cls, arg as [n|s]; unfold _address_class, IPv4Address, IPv6Address, bind.
  - destruct (_check_int_address V4 n); [discriminate|]. intro E; injection E as <-. reflexivity.
  - destruct (contains SLASH s); [discriminate|].
    destruct (V4_ip_int_from_string s); [discriminate|].
    intro E; injection E as <-. reflexivity.
  - destruct (_check_int_address V6 n); [discriminate|]. intro E; injection E as <-. reflexivity.
  - destruct (contains SLASH s); [discriminate|].
    destruct (_split_scope_id s) as [e|[a0 sc]]; [discriminate|].
    destruct (V6_ip_int_from_string a0); [discriminate|].
    intro E; injection E as <-. reflexivity.
Qed.

Lemma Network_init_wf (cls : family) (s : str) (net : Network) :
  Network_init cls s = inr net -> n_cls net = cls /\ wf_network net.
Proof.
  unfold Network_init, bind.
  destruct (_split_addr_prefix cls s) as [e|[addr mask]]; [discriminate|].
  destruct (_address_class cls (inr addr)) as [e|a] eqn:Ea; [discriminate|].
  destruct (_make_netmask cls mask) as [e|[nm p]] eqn:Em; [discriminate|].
  apply make_netmask_inv in Em. destruct Em as [-> Hp].
  apply address_class_cls in Ea.
  cbn [_ip].
  destruct (Z.eqb_spec (Z.land (_ip a) (_ip_int_from_prefix cls p)) (_ip a)) as [Heq|Hne];
    cbn [negb].
  - intro E; injection E as <-. unfold wf_network. cbn. auto.
  - destruct (_address_class cls (inl (Z.land (_ip a) (_ip_int_from_prefix cls p))))
      as [e|b] eqn:Eb; [discriminate|].
    apply address_of_int in Eb. destruct Eb as [-> _].
    intro E; injection E as <-. unfold wf_network. cbn.
    repeat split; try lia. apply masked_idempotent.
Qed.

Lemma ip_network_wf (s : str) (net : Network) :
  ip_network s = inr net -> wf_network net.
Proof.
  unfold ip_network, IPv4Network, IPv6Network.
  destruct (Network_init V4 s) as [e|n4] eqn:E4.
  - destruct (Network_init V6 s) as [e6|n6] eqn:E6; [discriminate|].
    intro E; injection E as <-. apply (Network_init_wf _ _ _ E6).
  - intro E; injection E as <-. apply (Network_init_wf _ _ _ E4).
Qed.

(** *** Which characters an accepted text can hold *)

Lemma forallb_not_contains (P : char -> bool) (s : str) (c : char) :
  forallb P s = true -> P c = false -> contains c s = false.
Proof.
  intros Hs Hc. induction s as [|x t IH]; [reflexivity|].
  simpl in *. apply andb_prop in Hs. destruct Hs as [Hx Ht].
  rewrite (IH Ht), orb_false_r.
  destruct (N.eqb_spec c x) as [->|]; [congruence|reflexivity].
Qed.

Lemma split_on_no_sep (sep : char) (s : str) :
  contains sep s = false -> split_on sep s = [s].
Proof.
  induction s as [|c t IH]; [reflexivity|].
  simpl. intro H. apply orb_false_elim in H. destruct H as [Hc Ht].
  rewrite N.eqb_sym, Hc, (IH Ht). reflexivity.
Qed.

Lemma split_on_app (sep : char) (a b : str) :
  contains sep a = false -> split_on sep (a ++ sep :: b) = a :: split_on sep b.
Proof.
  induction a as [|c t IH]; simpl.
  - intros _. rewrite N.eqb_refl. reflexivity.
  - intro H. apply orb_false_elim in H. destruct H as [Hc Ht].
    rewrite N.eqb_sym, Hc, (IH Ht). reflexivity.
Qed.

Lemma split_on_forallb (sep : char) (P : char -> bool) (s : str) :
  Forall (fun part => forallb P part = true) (split_on sep s) ->
  forallb (fun c => P c || N.eqb c sep) s = true.
Proof.
  induction s as [|c t IH]; [reflexivity|].
  simpl. destruct (N.eqb c sep).
  - intro H. inversion H; subst. rewrite orb_true_r. simpl. auto.
  - destruct (split_on sep t) as [|p ps] eqn:E.
    + intro H. inversion H as [|? ? Hc _]; subst. simpl in Hc.
      apply andb_prop in Hc. destruct Hc as [Hc _]. rewrite Hc. simpl.
      apply IH. constructor.
    + intro H. inversion H as [|? ? Hc Hps]; subst. simpl in Hc.
      apply andb_prop in Hc. destruct Hc as [Hc Hp]. rewrite Hc. simpl.
      apply IH. constructor; assumption.
Qed.

Lemma map_opt_Forall {A B} (f : A -> option B) (xs : list A) (ys : list B) :
  map_opt f xs = Some ys -> Forall (fun x => exists y, f x = Some y) xs.
Proof.
  revert ys. induction xs as [|x t IH]; intros ys; simpl; [constructor|].
  destruct (f x) as [y|] eqn:E; [|discriminate].
  destruct (map_opt f t) as [zs|]; [|discriminate].
  intros _. constructor; eauto.
Qed.

Lemma parse_octet_digits (o : str) (v : Z) :
  _parse_octet o = Some v -> forallb is_ascii_digit o = true.
Proof.
  unfold _parse_octet, isascii_isdigit.
  destruct (nonempty o); simpl; [|discriminate].
  destruct (forallb is_ascii_digit o); simpl; [reflexivity|discriminate].
Qed.

(** A dotted quad holds only digits and dots. *)
Lemma V4_string_chars (s : str) (v : Z) :
  V4_ip_int_from_string s = inr v ->
  forallb (fun c => is_ascii_digit c || N.eqb c DOT) s = true.
Proof.
  unfold V4_ip_int_from_string.
  destruct (nonempty s); simpl; [|discriminate].
  destruct (length (split_on DOT s) =? 4)%nat; simpl; [|discriminate].
  destruct (map_opt _parse_octet (split_on DOT s)) as [bs|] eqn:E; [|discriminate].
  intros _. apply split_on_forallb. apply map_opt_Forall in E.
  eapply Forall_impl; [|exact E]. intros o [v' Hv]. eapply parse_octet_digits; eauto.
Qed.

(** An IPv6 text holds a colon. *)
Lemma V6_string_colon (s : str) (v : Z) :
  V6_ip_int_from_string s = inr v -> contains COLON s = true.
Proof.
  unfold V6_ip_int_from_string.
  destruct (nonempty s); simpl; [|discriminate].
  destruct (contains COLON s) eqn:E; [reflexivity|].
  rewrite (split_on_no_sep _ _ E). simpl. discriminate.
Qed.

Lemma partition_on_before (sep : char) (s : str) (c : char) :
  contains c (fst (fst (partition_on sep s))) = true -> contains c s = true.
Proof.
  induction s as [|x t IH]; simpl; [discriminate|].
  destruct (N.eqb x sep); simpl; [discriminate|].
  destruct (partition_on sep t) as [[a' f'] b']. simpl in *.
  destruct (N.eqb c x); [reflexivity|]. simpl. exact IH.
Qed.

(** No text is both an IPv4 and an IPv6 address. *)
Lemma IPv6_not_IPv4 (addr : str) (a : Address) :
  IPv6Address (inr addr) = inr a -> exists e, IPv4Address (inr addr) = inl e.
Proof.
  unfold IPv6Address, IPv4Address, bind, _split_scope_id.
  destruct (contains SLASH addr); [discriminate|].
  destruct (partition_on PERCENT addr) as [[a0 sep] sc] eqn:Ep.
  intro H.
  assert (Hc : contains COLON addr = true).
  { assert (exists v, V6_ip_int_from_string a0 = inr v) as [v Hv].
    { destruct sep; simpl in H.
      - destruct (negb (nonempty sc) || contains PERCENT sc); [discriminate|].
        destruct (V6_ip_int_from_string a0); [discriminate|eauto].
      - destruct (V6_ip_int_from_string a0); [discriminate|eauto]. }
    apply (partition_on_before PERCENT). rewrite Ep. simpl.
    eapply V6_string_colon; eauto. }
  destruct (V4_ip_int_from_string addr) as [e|v] eqn:E4; [eauto|].
  apply V4_string_chars in E4.
  rewrite (forallb_not_contains _ _ COLON E4 eq_refl) in Hc. discriminate Hc.
Qed.

Lemma address_no_slash (cls : family) (addr : str) (a : Address) :
  _address_class cls (inr addr) = inr a -> contains SLASH addr = false.
Proof.
  destruct cls; unfold _address_class, IPv4Address, IPv6Address;
    destruct (contains SLASH addr); [discriminate|reflexivity|discriminate|reflexivity].
Qed.

Lemma netmask_no_slash (cls : family) (mask : str) (r : Address * Z) :
  _make_netmask cls (inr mask) = inr r -> contains SLASH mask = false.
Proof.
  unfold _make_netmask, bind.
  assert (Hd : forall c p, _prefix_from_prefix_string c mask = inr p ->
                           contains SLASH mask = false).
  { intros c p Hp. apply prefix_from_prefix_string_range in Hp.
    apply (forallb_not_contains is_ascii_digit); [tauto|reflexivity]. }
  destruct cls.
  - destruct (_prefix_from_prefix_string V4 mask) as [[|]|q] eqn:E1.
    + discriminate.
    + unfold _prefix_from_ip_string, _ip_int_from_string.
      destruct (V4_ip_int_from_string mask) as [e|x] eqn:E2; [discriminate|].
      intros _. apply V4_string_chars in E2.
      apply (forallb_not_contains _ _ SLASH E2). reflexivity.
    + intros _. eapply Hd; eauto.
  - destruct (_prefix_from_prefix_string V6 mask) as [e|q] eqn:E1; [discriminate|].
    intros _. eapply Hd; eauto.
Qed.

(** *** The lenient constructor on [addr/mask] *)

Lemma split_addr_prefix_slash (cls : family) (addr mask : str) :
  contains SLASH addr = false -> contains SLASH mask = false ->
  _split_addr_prefix cls (addr ++ SLASH :: mask) = inr (addr, inr mask).
Proof.
  intros Ha Hm. unfold _split_addr_prefix.
  rewrite (split_on_app _ _ _ Ha), (split_on_no_sep _ _ Hm). reflexivity.
Qed.

(** An address and a mask that the class accepts make a network: the
    base address is the address masked, also when host bits were set. *)
Lemma Network_init_masks (cls : family) (addr mask : str) (a nm : Address) (p : Z) :
  _address_class cls (inr addr) = inr a ->
  _make_netmask cls (inr mask) = inr (nm, p) ->
  Network_init cls (addr ++ SLASH :: mask) =
  inr (mkNetwork cls
         (if Z.land (_ip a) (_ip nm) =? _ip a then a
          else mkAddress cls (Z.land (_ip a) (_ip nm)) None)
         nm p).
Proof.
  intros Ha Hm. unfold Network_init.
  rewrite (split_addr_prefix_slash cls addr mask
             (address_no_slash _ _ _ Ha) (netmask_no_slash _ _ _ Hm)).
  unfold bind at 1. rewrite Ha. unfold bind at 1. rewrite Hm. unfold bind at 1.
  destruct (Z.eqb_spec (Z.land (_ip a) (_ip nm)) (_ip a)); cbn [negb].
  - reflexivity.
  - pose proof (make_netmask_inv _ _ _ _ Hm) as [Hnm Hp].
    rewrite address_of_int_ok; [reflexivity|].
    pose proof (netmask_range cls p Hp) as Hr. rewrite Hnm. cbn [_ip].
    pose proof (land_range (_ip a) (_ip_int_from_prefix cls p) (_max_prefixlen cls)
                  ltac:(pose proof (max_prefixlen_pos cls); lia)) as Hl.
    unfold _ALL_ONES in *. lia.
Qed.

(** [ip_network] on [addr/mask]: the IPv4 constructor is tried first
    and refuses what the IPv6 constructor accepts. *)
Lemma ip_network_masks (cls : family) (addr mask : str) (a nm : Address) (p : Z) :
  _address_class cls (inr addr) = inr a ->
  _make_netmask cls (inr mask) = inr (nm, p) ->
  ip_network (addr ++ SLASH :: mask) =
  inr (mkNetwork cls
         (if Z.land (_ip a) (_ip nm) =? _ip a then a
          else mkAddress cls (Z.land (_ip a) (_ip nm)) None)
         nm p).
Proof.
  intros Ha Hm. unfold ip_network, IPv4Network, IPv6Network.
  destruct cls.
  - rewrite (Network_init_masks V4 _ _ _ _ _ Ha Hm). reflexivity.
  - destruct (IPv6_not_IPv4 _ _ Ha) as [e He].
    unfold Network_init at 1.
    rewrite (split_addr_prefix_slash V4 addr mask
               (address_no_slash _ _ _ Ha) (netmask_no_slash _ _ _ Hm)).
    unfold bind at 1. unfold _address_class at 1. rewrite He. unfold bind at 1.
    rewrite (Network_init_masks V6 _ _ _ _ _ Ha Hm). reflexivity.
Qed.

(** *** The range of a parsed address *)

Lemma testbit_above (b n i : Z) :
  0 <= b < 2 ^ n -> n <= i -> Z.testbit b i = false.
Proof.
  intros Hb Hi.
  destruct (Z.eq_dec b 0) as [->|Hne]; [apply Z.bits_0|].
  destruct (Z.lt_ge_cases n 0) as [Hn|Hn].
  - rewrite (Z.pow_neg_r 2 n Hn) in Hb. lia.
  - apply Z.bits_above_log2; [lia|].
    assert (Z.log2 b < n) by (apply Z.log2_lt_pow2; lia). lia.
Qed.

Lemma lor_range (a b n : Z) :
  0 <= n -> 0 <= a < 2 ^ n -> 0 <= b < 2 ^ n -> 0 <= Z.lor a b < 2 ^ n.
Proof.
  intros Hn Ha Hb.
  assert (H0 : 0 <= Z.lor a b) by (apply Z.lor_nonneg; lia).
  split; [exact H0|].
  assert (H : Z.lor a b = Z.land (Z.lor a b) (Z.ones n)).
  { apply Z.bits_inj'. intros i Hi.
    rewrite Z.land_spec, Z.lor_spec, Z.testbit_ones_nonneg by lia.
    destruct (Z.ltb_spec i n); [rewrite andb_true_r; reflexivity|].
    rewrite (testbit_above a n i Ha), (testbit_above b n i Hb) by lia. reflexivity. }
  rewrite Z.land_ones in H by lia.
  pose proof (Z.mod_pos_bound (Z.lor a b) (2 ^ n)
                ltac:(apply Z.pow_pos_nonneg; lia)) as Hm.
  lia.
Qed.

Lemma digit_value_dec (c : char) :
  is_ascii_digit c = true -> 0 <= digit_value c < 10.
Proof.
  unfold digit_value. intro H. rewrite H. unfold is_ascii_digit in H.
  apply andb_prop in H. destruct H as [H1 H2].
  apply N.leb_le in H1, H2. lia.
Qed.

Lemma digit_value_hex (c : char) :
  is_hex_digit c = true -> 0 <= digit_value c < 16.
Proof.
  unfold is_hex_digit, digit_value. intro H.
  destruct (is_ascii_digit c) eqn:Ed.
  - unfold is_ascii_digit in Ed. apply andb_prop in Ed. destruct Ed as [H1 H2].
    apply N.leb_le in H1, H2. lia.
  - simpl in H. apply orb_prop in H.
    destruct H as [H|H]; apply andb_prop in H; destruct H as [H1 H2];
      apply N.leb_le in H1, H2; destruct (N.leb_spec 97 c); lia.
Qed.

Lemma digits_value_range (base : Z) (P : char -> bool) (s : str) :
  0 < base ->
  (forall c, P c = true -> 0 <= digit_value c < base) ->
  forallb P s = true ->
  0 <= digits_value base s < base ^ Z.of_nat (length s).
Proof.
  intros Hb HP. unfold digits_value.
  assert (G : forall (t : str) (acc k : Z),
             0 <= k -> 0 <= acc < base ^ k -> forallb P t = true ->
             0 <= fold_left (fun a c => a * base + digit_value c) t acc
               < base ^ (k + Z.of_nat (length t))).
  { induction t as [|c t IH]; intros acc k Hk Hacc Ht.
    - simpl. rewrite Z.add_0_r. exact Hacc.
    - simpl in Ht. apply andb_prop in Ht. destruct Ht as [Hc Ht].
      cbn [fold_left length].
      replace (k + Z.of_nat (S (length t))) with ((k + 1) + Z.of_nat (length t)) by lia.
      apply IH; [lia| |exact Ht].
      pose proof (HP c Hc). rewrite Z.pow_add_r, Z.pow_1_r by lia. nia. }
  intro Hs. apply (G s 0 0); [lia|simpl; lia|exact Hs].
Qed.

Lemma parse_octet_range (o : str) (v : Z) :
  _parse_octet o = Some v -> 0 <= v <= 255.
Proof.
  unfold _parse_octet, isascii_isdigit, py_int.
  destruct (nonempty o); simpl; [|discriminate].
  destruct (forallb is_ascii_digit o) eqn:Ed; simpl; [|discriminate].
  destruct (3 <? length o)%nat; [discriminate|].
  destruct (negb (str_eqb o (lit "0")) && (hd 0%N o =? ZERO)%N); [discriminate|].
  destruct (int_max_str_digits <? Z.of_nat (length o)); [discriminate|].
  destruct (Z.ltb_spec 255 (digits_value 10 o)); [discriminate|].
  intro E; injection E as <-.
  pose proof (digits_value_range 10 is_ascii_digit o ltac:(lia) digit_value_dec Ed). lia.
Qed.

Lemma map_opt_spec {A B} (f : A -> option B) (xs : list A) (ys : list B) :
  map_opt f xs = Some ys -> Forall2 (fun x y => f x = Some y) xs ys.
Proof.
  revert ys. induction xs as [|x t IH]; intros ys; simpl.
  - intro E; injection E as <-. constructor.
  - destruct (f x) as [y|] eqn:Ey; [|discriminate].
    destruct (map_opt f t) as [zs|]; [|discriminate].
    intro E; injection E as <-. constructor; auto.
Qed.

Lemma V4_string_range (s : str) (v : Z) :
  V4_ip_int_from_string s = inr v -> 0 <= v <= _ALL_ONES V4.
Proof.
  unfold V4_ip_int_from_string.
  destruct (nonempty s); simpl; [|discriminate].
  destruct (length (split_on DOT s) =? 4)%nat eqn:El; simpl; [|discriminate].
  destruct (map_opt _parse_octet (split_on DOT s)) as [bs|] eqn:E; [|discriminate].
  intro H; injection H as <-.
  apply map_opt_spec in E. apply Nat.eqb_eq in El.
  pose proof (Forall2_length E) as Hlen. rewrite El in Hlen.
  destruct bs as [|b0 [|b1 [|b2 [|b3 [|]]]]]; try discriminate Hlen.
  destruct (split_on DOT s) as [|o0 [|o1 [|o2 [|o3 [|]]]]]; try discriminate El.
  inversion E as [|? ? ? ? H0 E1]; subst.
  inversion E1 as [|? ? ? ? H1 E2]; subst.
  inversion E2 as [|? ? ? ? H2 E3]; subst.
  inversion E3 as [|? ? ? ? H3 _]; subst.
  apply parse_octet_range in H0, H1, H2, H3.
  unfold from_bytes_big, _ALL_ONES. cbn. lia.
Qed.

Lemma parse_hextet_range (h : str) (v : Z) :
  _parse_hextet h = Some v -> 0 <= v < 2 ^ 16.
Proof.
  unfold _parse_hextet, py_int.
  destruct (forallb is_hex_digit h) eqn:Eh; simpl; [|discriminate].
  destruct (Nat.ltb_spec 4 (length h)); [discriminate|].
  destruct (nonempty h); simpl; [|discriminate].
  rewrite Eh. simpl.
  intro E; injection E as <-.
  pose proof (digits_value_range 16 is_hex_digit h ltac:(lia) digit_value_hex Eh) as Hr.
  assert (16 ^ Z.of_nat (length h) <= 16 ^ 4)
    by (apply Z.pow_le_mono_r; lia).
  change (2 ^ 16) with (16 ^ 4). lia.
Qed.

Lemma shift_in_hextet_some (parts : list str) (a i x : Z) :
  shift_in_hextet parts (Some a) i = Some x ->
  exists h, _parse_hextet (item parts i) = Some h /\ x = Z.lor (Z.shiftl a 16) h.
Proof.
  unfold shift_in_hextet.
  destruct (_parse_hextet (item parts i)) as [h|]; [|discriminate].
  intro E. exists h. split; [reflexivity|].
  injection E as E. symmetry. exact E.
Qed.

(** Shifting hextets in keeps the value within 16 bits per hextet. *)
Lemma shift_in_hextets_range (parts : list str) (idx : list Z) (acc : option Z)
    (k r : Z) :
  0 <= k ->
  (forall x, acc = Some x -> 0 <= x < 2 ^ (16 * k)) ->
  fold_left (shift_in_hextet parts) idx acc = Some r ->
  0 <= r < 2 ^ (16 * (k + Z.of_nat (length idx))).
Proof.
  revert acc k. induction idx as [|i idx IH]; intros acc k Hk Hacc.
  - simpl. intro E. rewrite Z.add_0_r. apply Hacc. exact E.
  - cbn [fold_left length].
    replace (k + Z.of_nat (S (length idx))) with ((k + 1) + Z.of_nat (length idx)) by lia.
    apply IH; [lia|].
    intros x Hx. destruct acc as [a|]; [|discriminate Hx].
    apply shift_in_hextet_some in Hx. destruct Hx as (h & Eh & ->).
    pose proof (Hacc a eq_refl) as Ha. apply parse_hextet_range in Eh.
    replace (16 * (k + 1)) with (16 * k + 16) by lia.
    apply lor_range; [lia| |].
    + rewrite Z.shiftl_mul_pow2, Z.pow_add_r by lia. nia.
    + assert (2 ^ 16 <= 2 ^ (16 * k + 16)) by (apply Z.pow_le_mono_r; lia). lia.
Qed.

Lemma find_skip_index_range (parts : list str) (i : Z) :
  find_skip_index parts = inr (Some i) -> 1 <= i <= Z.of_nat (length parts) - 2.
Proof.
  unfold find_skip_index.
  assert (G : forall (idx : list Z) (acc : result (option Z)) (lo hi : Z),
             (forall j, In j idx -> lo <= j <= hi) ->
             (forall j, acc = inr (Some j) -> lo <= j <= hi) ->
             fold_left
               (fun acc i =>
                  do skip_index <- acc;
                  if negb (nonempty (item parts i)) then
                    match skip_index with
                    | Some _ => inl AddressValueError
                    | None => inr (Some i)
                    end
                  else inr skip_index) idx acc = inr (Some i) ->
             lo <= i <= hi).
  { induction idx as [|j idx IH]; intros acc lo hi Hidx Hacc.
    - simpl. apply Hacc.
    - cbn [fold_left]. apply IH.
      + intros j' Hj'. apply Hidx. right. exact Hj'.
      + intros j' Hj'. unfold bind in Hj'.
        destruct acc as [e|[s0|]]; [discriminate| |].
        * destruct (negb (nonempty (item parts j))); [discriminate|].
          apply Hacc. exact Hj'.
        * destruct (negb (nonempty (item parts j))); [|discriminate].
          injection Hj' as <-. apply Hidx. left. reflexivity. }
  apply G.
  - intros j Hj. unfold range in Hj. apply in_map_iff in Hj.
    destruct Hj as (k & <- & Hk). apply in_seq in Hk. lia.
  - discriminate.
Qed.

Lemma hextet_layout_range (parts : list str) (skip : option Z) (hi lo skipped : Z) :
  (forall i, skip = Some i -> 1 <= i <= Z.of_nat (length parts) - 2) ->
  hextet_layout parts skip = inr (hi, lo, skipped) ->
  0 <= hi /\ 0 <= lo /\ 0 <= skipped /\ hi + lo + skipped = _HEXTET_COUNT.
Proof.
  intro Hs. unfold hextet_layout, _HEXTET_COUNT.
  destruct skip as [i|].
  - specialize (Hs i eq_refl).
    set (n := Z.of_nat (length parts)) in *.
    assert (Hhi : forall r : result Z,
              r = (if negb (nonempty (item parts 0)) then
                     if negb (i - 1 =? 0) then inl AddressValueError else inr (i - 1)
                   else inr i) ->
              forall h, r = inr h -> 0 <= h <= i).
    { intros r -> h.
      destruct (negb (nonempty (item parts 0))).
      - destruct (Z.eqb_spec (i - 1) 0); cbn [negb]; [|discriminate].
        intro E; injection E as <-. lia.
      - intro E; injection E as <-. lia. }
    assert (Hlo : forall r : result Z,
              r = (if negb (nonempty (item parts (-1))) then
                     if negb (n - i - 1 - 1 =? 0) then inl AddressValueError
                     else inr (n - i - 1 - 1)
                   else inr (n - i - 1)) ->
              forall l, r = inr l -> 0 <= l <= n - i - 1).
    { intros r -> l.
      destruct (negb (nonempty (item parts (-1)))).
      - destruct (Z.eqb_spec (n - i - 1 - 1) 0); cbn [negb]; [|discriminate].
        intro E; injection E as <-. lia.
      - intro E; injection E as <-. lia. }
    unfold bind.
    match goal with |- match ?r with _ => _ end = _ -> _ =>
      specialize (Hhi r eq_refl); destruct r as [e|h]; [discriminate|] end.
    match goal with |- match ?r with _ => _ end = _ -> _ =>
      specialize (Hlo r eq_refl); destruct r as [e|l]; [discriminate|] end.
    specialize (Hhi h eq_refl). specialize (Hlo l eq_refl).
    destruct (Z.ltb_spec (8 - (h + l)) 1); [discriminate|].
    intro E.
    assert (Heq : (h, l, 8 - (h + l)) = (hi, lo, skipped)) by congruence.
    apply pair_equal_spec in Heq. destruct Heq as [Heq <-].
    apply pair_equal_spec in Heq. destruct Heq as [<- <-]. lia.
  - destruct (Z.eqb_spec (Z.of_nat (length parts)) 8); cbn [negb]; [|discriminate].
    destruct (negb (nonempty (item parts 0))); [discriminate|].
    destruct (negb (nonempty (item parts (-1)))); [discriminate|].
    intro E; injection E as <- <- <-. lia.
Qed.

Lemma range_length (a b : Z) : length (range a b) = Z.to_nat (b - a).
Proof. unfold range. rewrite length_map, length_seq. reflexivity. Qed.

Lemma V6_string_range (s : str) (v : Z) :
  V6_ip_int_from_string s = inr v -> 0 <= v <= _ALL_ONES V6.
Proof.
  unfold V6_ip_int_from_string. cbv zeta.
  destruct (nonempty s); cbn [negb]; [|discriminate].
  destruct (Z.of_nat (length (split_on COLON s)) <? 3); [discriminate|].
  unfold bind at 1.
  match goal with |- match ?m with _ => _ end = _ -> _ =>
    destruct m as [e|parts] end; [discriminate|].
  destruct (_HEXTET_COUNT + 1 <? Z.of_nat (length parts)); [discriminate|].
  unfold bind at 1.
  destruct (find_skip_index parts) as [e|skip] eqn:Es; [discriminate|].
  unfold bind at 1.
  destruct (hextet_layout parts skip) as [e|[[hi lo] skipped]] eqn:El; [discriminate|].
  assert (Hlay : 0 <= hi /\ 0 <= lo /\ 0 <= skipped /\ hi + lo + skipped = _HEXTET_COUNT).
  { apply (hextet_layout_range parts skip); [|exact El].
    intros i ->. apply find_skip_index_range. exact Es. }
  destruct Hlay as (Hhi & Hlo & Hsk & Hsum). unfold _HEXTET_COUNT in Hsum.
  destruct (fold_left (shift_in_hextet parts) (range 0 hi) (Some 0)) as [x|] eqn:E1.
  2:{ cbn [option_map].
      assert (Hn : forall idx, fold_left (shift_in_hextet parts) idx None = None)
        by (induction idx; simpl; auto).
      rewrite Hn. discriminate. }
  cbn [option_map].
  destruct (fold_left (shift_in_hextet parts) (range (- lo) 0)
              (Some (Z.shiftl x (16 * skipped)))) as [y|] eqn:E2; [|discriminate].
  intro E; injection E as <-.
  pose proof (shift_in_hextets_range parts (range 0 hi) (Some 0) 0 x ltac:(lia)) as H1.
  rewrite range_length in H1.
  assert (Hx : 0 <= x < 2 ^ (16 * hi)).
  { replace (16 * hi) with (16 * (0 + Z.of_nat (Z.to_nat (hi - 0)))) by lia.
    apply H1; [|exact E1]. intros x0 Hx0. injection Hx0 as <-. simpl. lia. }
  pose proof (shift_in_hextets_range parts (range (- lo) 0)
                (Some (Z.shiftl x (16 * skipped))) (hi + skipped) y ltac:(lia)) as H2.
  rewrite range_length in H2.
  assert (Hy : 0 <= y < 2 ^ (16 * (hi + skipped + Z.of_nat (Z.to_nat (0 - - lo))))).
  { apply H2; [|exact E2]. intros x0 Hx0.
    assert (Hx0' : x0 = Z.shiftl x (16 * skipped)) by congruence. subst x0.
    rewrite Z.shiftl_mul_pow2 by lia.
    replace (16 * (hi + skipped)) with (16 * hi + 16 * skipped) by lia.
    rewrite Z.pow_add_r by lia.
    assert (0 < 2 ^ (16 * skipped)) by (apply Z.pow_pos_nonneg; lia). nia. }
  replace (16 * (hi + skipped + Z.of_nat (Z.to_nat (0 - - lo)))) with 128 in Hy by lia.
  unfold _ALL_ONES. cbn [_max_prefixlen]. lia.
Qed.

(** A parsed address fits the width of its family. *)
Lemma address_class_range (cls : family) (arg : Z + str) (a : Address) :
  _address_class cls arg = inr a -> 0 <= _ip a <= _ALL_ONES cls.
Proof.
  destruct arg as [n|s].
  - intro H. apply address_of_int in H. destruct H as [-> H]. exact H.
  - destruct cls; unfold _address_class, IPv4Address, IPv6Address, bind.
    + destruct (contains SLASH s); [discriminate|].
      destruct (V4_ip_int_from_string s) as [e|v] eqn:E; [discriminate|].
      intro H; injection H as <-. apply (V4_string_range _ _ E).
    + destruct (contains SLASH s); [discriminate|].
      destruct (_split_scope_id s) as [e|[a0 sc]]; [discriminate|].
      destruct (V6_ip_int_from_string a0) as [e|v] eqn:E; [discriminate|].
      intro H; injection H as <-. apply (V6_string_range _ _ E).
Qed.

Lemma ip_address_range (s : str) (a : Address) :
  ip_address s = inr a -> 0 <= _ip a <= _ALL_ONES (a_cls a).
Proof.
  unfold ip_address.
  destruct (IPv4Address (inr s)) as [e|a4] eqn:E4.
  - destruct (IPv6Address (inr s)) as [e6|a6] eqn:E6; [discriminate|].
    intro H; injection H as <-.
    rewrite (address_class_cls V6 _ _ E6). apply (address_class_range V6 _ _ E6).
  - intro H; injection H as <-.
    rewrite (address_class_cls V4 _ _ E4). apply (address_class_range V4 _ _ E4).
Qed.

(** *** Masking, in arithmetic *)

(** On an address of the family, masking to the prefix length [p]
    subtracts the host part: the low [max - p] bits. *)
Lemma mask_clears_low (cls : family) (p a : Z) :
  0 <= p <= _max_prefixlen cls ->
  0 <= a <= _ALL_ONES cls ->
  Z.land a (_ip_int_from_prefix cls p) = a - a mod 2 ^ (_max_prefixlen cls - p).
Proof.
  intros Hp Ha.
  set (k := _max_prefixlen cls - p).
  assert (Hk : 0 <= k) by (unfold k; lia).
  assert (Ha' : 0 <= a < 2 ^ _max_prefixlen cls) by (unfold _ALL_ONES in Ha; lia).
  assert (H : Z.land a (_ip_int_from_prefix cls p) = Z.ldiff a (Z.ones k)).
  { apply Z.bits_inj'. intros i Hi.
    rewrite Z.land_spec, Z.ldiff_spec, netmask_testbit, Z.testbit_ones_nonneg by lia.
    fold k.
    destruct (Z.leb_spec k i), (Z.ltb_spec i k); try lia; cbn [negb andb];
      rewrite ?andb_false_r, ?andb_true_r; try reflexivity.
    destruct (Z.ltb_spec i (_max_prefixlen cls)).
    - rewrite andb_true_r. reflexivity.
    - rewrite (testbit_above a _ i Ha') by lia. reflexivity. }
  rewrite H, Z.ldiff_ones_r, Z.shiftl_mul_pow2, Z.shiftr_div_pow2 by lia.
  pose proof (Z.div_mod a (2 ^ k) ltac:(apply Z.pow_nonzero; lia)). lia.
Qed.

(** A base address without host bits, as the multiple it is. *)
Lemma canonical_base (cls : family) (p base : Z) :
  0 <= p <= _max_prefixlen cls ->
  Z.land base (_ip_int_from_prefix cls p) = base ->
  base mod 2 ^ (_max_prefixlen cls - p) = 0.
Proof.
  intros Hp H. rewrite <- Z.land_ones by lia.
  rewrite <- (hostmask_ones cls p Hp), <- H.
  apply masked_host_bits. exact Hp.
Qed.

(** The masked address is the base exactly when the address lies in the
    block of [2 ^ (max - p)] addresses that starts at the base. *)
Lemma masked_iff_interval (cls : family) (p a base : Z) :
  0 <= p <= _max_prefixlen cls ->
  0 <= a <= _ALL_ONES cls ->
  base mod 2 ^ (_max_prefixlen cls - p) = 0 ->
  (Z.land a (_ip_int_from_prefix cls p) = base
   <-> base <= a < base + 2 ^ (_max_prefixlen cls - p)).
Proof.
  intros Hp Ha Hb. rewrite (mask_clears_low cls p a Hp Ha).
  set (m := 2 ^ (_max_prefixlen cls - p)) in *.
  assert (Hm : 0 < m) by (apply Z.pow_pos_nonneg; lia).
  pose proof (Z.mod_pos_bound a m Hm) as Hr.
  split.
  - intro H. lia.
  - intro H.
    pose proof (Z.div_mod a m ltac:(lia)) as Ha1.
    pose proof (Z.div_mod base m ltac:(lia)) as Hb1. rewrite Hb in Hb1.
    assert (a / m = base / m) by nia. nia.
Qed.

End ipaddress_facts.

(** ** What a run writes *)

Lemma stdout_one_line (ns : Namespace) (networks : list ipaddress.Network)
    (fh : handle) (line : str) :
  stdout (line_events ns networks fh line) =
  if count ns then [] else map (emitted_text ns) (selected_lines ns networks [line]).
Proof.
  unfold line_events, selected_lines, effective_match. cbn [filter].
  destruct (selected_field ns line) as [ip_s|] eqn:E; cbn [option_map].
  - destruct (xorb (ip_matches_any ip_s networks) (invert_match ns)); cbn.
    + unfold emitted_text. rewrite E.
      destruct (count ns), (only_matching ns); reflexivity.
    + destruct (count ns); reflexivity.
  - destruct (count ns); reflexivity.
Qed.

Lemma selected_lines_cons (ns : Namespace) (networks : list ipaddress.Network)
    (line : str) (lines : list str) :
  selected_lines ns networks (line :: lines)
  = selected_lines ns networks [line] ++ selected_lines ns networks lines.
Proof. unfold selected_lines. apply (filter_app _ [line] lines). Qed.

Lemma stdout_line_events (ns : Namespace) (networks : list ipaddress.Network)
    (fh : handle) (lines : list str) :
  stdout (flat_map (line_events ns networks fh) lines) =
  if count ns then [] else map (emitted_text ns) (selected_lines ns networks lines).
Proof.
  induction lines as [|line lines IH].
  - destruct (count ns); reflexivity.
  - cbn [flat_map].
    rewrite stdout_app, IH, stdout_one_line, (selected_lines_cons ns networks line lines).
    destruct (count ns); [reflexivity|]. rewrite map_app. reflexivity.
Qed.

Lemma stdout_close_events (fh : handle) : stdout (close_events fh) = [].
Proof. destruct fh; reflexivity. Qed.

Section RunOutput.

Variable repr : str -> str.
Variable env : Env.

(** Standard output of a run that gets as far as the loop: one text per
    selected line, or the count alone. *)
Lemma main_stdout (ns : Namespace) t1 networks infile t2 fh lines :
  1 <= field ns ->
  load_cidrs repr env ns = (t1, inr (networks, infile)) ->
  open_input env infile = (t2, inr (fh, lines)) ->
  snd (main repr env ns) = inr tt
  /\ stdout (fst (main repr env ns)) =
     if count ns
     then [str_of_int (Z.of_nat (length (selected_lines ns networks lines))) ++ NL]
     else map (emitted_text ns) (selected_lines ns networks lines).
Proof.
  intros Hf Hl Ho. rewrite (main_run repr env ns _ _ _ _ _ _ Hf Hl Ho).
  split; [reflexivity|]. cbn [fst].
  pose proof (load_cidrs_silent repr env ns) as [H1 _]. rewrite Hl in H1. cbn [fst] in H1.
  pose proof (open_input_silent env infile) as [H2 _]. rewrite Ho in H2. cbn [fst] in H2.
  rewrite !stdout_app, H1, H2, stdout_line_events, stdout_close_events.
  destruct (count ns); cbn; rewrite ?app_nil_r; reflexivity.
Qed.

(** How a run can end: it returns, or it exits with status 2 or 3. *)
Lemma load_cidrs_raises (ns : Namespace) t e :
  load_cidrs repr env ns = (t, inl e) -> e = SystemExit 2 \/ e = SystemExit 3.
Proof.
  destruct (resolve env ns) as [t0 [e0|[cs infile]]] eqn:E.
  - rewrite (load_cidrs_unresolved _ _ _ _ _ E). intro H; injection H as _ <-.
    right. unfold resolve, mbind in E.
    destruct (load_cidr_file env ns ([] ++ expr ns)) as [t' [e'|cs']] eqn:Ef.
    + injection E as _ <-. eapply load_cidr_file_raises; eauto.
    + discriminate E.
  - rewrite (load_cidrs_resolved _ _ _ _ _ _ E).
    destruct cs as [|c cs].
    + intro H; injection H as _ <-. left; reflexivity.
    + destruct (first_invalid (c :: cs)) as [[c' e']|]; [|discriminate].
      intro H; injection H as _ <-. left; reflexivity.
Qed.

Lemma open_input_raises (infile : option str) t e :
  open_input env infile = (t, inl e) -> e = SystemExit 3.
Proof.
  unfold open_input. destruct infile as [p|]; [|discriminate].
  destruct (nonempty p); cbn [negb]; [|discriminate].
  rewrite mbind_emit. destruct (fs_open env p); [|discriminate].
  cbn. intro E; injection E as _ <-. reflexivity.
Qed.

Lemma main_outcomes (ns : Namespace) :
  snd (main repr env ns) = inr tt
  \/ snd (main repr env ns) = inl (SystemExit 2)
  \/ snd (main repr env ns) = inl (SystemExit 3).
Proof.
  destruct (Z.ltb_spec (field ns) 1) as [Hlt|Hge].
  - rewrite (main_bad_field repr env ns Hlt). right; left; reflexivity.
  - destruct (load_cidrs repr env ns) as [t1 [e|[networks infile]]] eqn:El.
    + rewrite (main_load_fails repr env ns _ _ Hge El). cbn [snd].
      destruct (load_cidrs_raises _ _ _ El) as [->| ->]; auto.
    + destruct (open_input env infile) as [t2 [e|[fh lines]]] eqn:Eo.
      * rewrite (main_open_fails repr env ns _ _ _ _ _ Hge El Eo). cbn [snd].
        rewrite (open_input_raises _ _ _ Eo). auto.
      * left. apply (proj1 (main_stdout ns _ _ _ _ _ _ Hge El Eo)).
Qed.

Lemma resolve_stderr (ns : Namespace) t r :
  resolve env ns = (t, inr r) -> stderr t = [].
Proof.
  unfold resolve, mbind.
  destruct (load_cidr_file env ns ([] ++ expr ns)) as [t' [e|cs]] eqn:E; [discriminate|].
  intro H; injection H as <- _. rewrite app_nil_r.
  eapply load_cidr_file_stderr; eauto.
Qed.

End RunOutput.

(** ** The embedded library on the examples of its documentation *)

(** The docstring of [IPv4Network]: ['192.0.2.0/24'],
    ['192.0.2.0/255.255.255.0'] and ['192.0.2.0/0.0.0.255'] are the same
    network, and an address without a mask is a [/32]; the one of
    [IPv6Network]: ['2001:db8::'] is a [/128]. *)
Example ip_network_docstring_examples :
  ipaddress.ip_network (lit "192.0.2.0/255.255.255.0")
  = ipaddress.ip_network (lit "192.0.2.0/24")
  /\ ipaddress.ip_network (lit "192.0.2.0/0.0.0.255")
     = ipaddress.ip_network (lit "192.0.2.0/24")
  /\ ipaddress.ip_network (lit "192.0.2.1")
     = ipaddress.ip_network (lit "192.0.2.1/32")
  /\ ipaddress.ip_network (lit "2001:db8::")
     = ipaddress.ip_network (lit "2001:db8:0000:0000:0000:0000:0000:0000/128")
  /\ ipaddress.ip_network (lit "192.0.2.0/27")
     = inr (ipaddress.mkNetwork ipaddress.V4
              (ipaddress.mkAddress ipaddress.V4 3221225984 None)
              (ipaddress.mkAddress ipaddress.V4 4294967264 None) 27).
Proof. repeat split; vm_compute; reflexivity. Qed.

(** Texts that [ip_network] refuses: a file name, a leading zero in an
    octet, a prefix length beyond the width, two [::]. *)
Example ip_network_refuses :
  ipaddress.ip_network (lit "hosts.txt") = inl (ipaddress.not_a_network (lit "hosts.txt"))
  /\ ipaddress.ip_network (lit "010.0.0.0/8")
     = inl (ipaddress.not_a_network (lit "010.0.0.0/8"))
  /\ ipaddress.ip_network (lit "10.0.0.0/33")
     = inl (ipaddress.not_a_network (lit "10.0.0.0/33"))
  /\ ipaddress.ip_network (lit "1::2::3") = inl (ipaddress.not_a_network (lit "1::2::3")).
Proof. repeat split; vm_compute; reflexivity. Qed.

(** [main] tests [if infile:], so an empty file name, which
    [load_cidrs] can return for an empty last token, reads standard
    input. *)
Lemma open_input_empty_name (env : Env) :
  open_input env (Some []) = ret (sys_stdin, stdin_lines env).
Proof. reflexivity. Qed.

(** ** The claims *)

(** C1. For every non-empty positional token list, the resolver looks at
    the last token only.  If [ip_network] (lenient) accepts it, all the
    positional tokens, the last included, are added to the expressions
    and the input file stays [None] (standard input).  If it refuses it,
    the last token becomes the input file name and exactly the tokens
    before it are added.  The answer for the input file is the same
    whatever tokens stand before the last one. *)
Theorem C1_last_token_decides (positional cidr_strings : list str) :
  positional <> [] ->
  exists (init : list str) (last_token : str),
    positional = init ++ [last_token]
    /\ resolve_positional positional cidr_strings =
       match ipaddress.ip_network last_token with
       | inr _ => (cidr_strings ++ init ++ [last_token], None)
       | inl _ => (cidr_strings ++ init, Some last_token)
       end
    /\ forall init' : list str,
         snd (resolve_positional (init' ++ [last_token]) cidr_strings)
         = snd (resolve_positional positional cidr_strings).
Proof.
  intro Hne.
  destruct (exists_last Hne) as (init & last_token & ->).
  exists init, last_token.
  assert (Hres : forall pre : list str,
            resolve_positional (pre ++ [last_token]) cidr_strings =
            match ipaddress.ip_network last_token with
            | inr _ => (cidr_strings ++ pre ++ [last_token], None)
            | inl _ => (cidr_strings ++ pre, Some last_token)
            end).
  { intro pre. unfold resolve_positional.
    rewrite last_last, removelast_last.
    destruct pre; reflexivity. }
  split; [reflexivity|]. split; [apply Hres|].
  intro init'. rewrite !Hres.
  destruct (ipaddress.ip_network last_token); reflexivity.
Qed.

Lemma C1_witness :
  [lit "10.0.0.0/8"; lit "hosts.txt"] <> []
  /\ exists (init : list str) (last_token : str),
       [lit "10.0.0.0/8"; lit "hosts.txt"] = init ++ [last_token]
       /\ resolve_positional [lit "10.0.0.0/8"; lit "hosts.txt"] [] =
          match ipaddress.ip_network last_token with
          | inr _ => ([] ++ init ++ [last_token], None)
          | inl _ => ([] ++ init, Some last_token)
          end
       /\ forall init' : list str,
            snd (resolve_positional (init' ++ [last_token]) [])
            = snd (resolve_positional [lit "10.0.0.0/8"; lit "hosts.txt"] []).
Proof.
  assert (H : [lit "10.0.0.0/8"; lit "hosts.txt"] <> []) by discriminate.
  split; [exact H|].
  exact (C1_last_token_decides [lit "10.0.0.0/8"; lit "hosts.txt"] [] H).
Defined.

(** The two examples of the specification: two CIDR tokens are two
    expressions and no input file; a CIDR token and [hosts.txt] are one
    expression and the input file [hosts.txt]. *)
Example resolve_positional_examples :
  resolve_positional [lit "10.0.0.0/8"; lit "192.168.1.0/24"] []
  = ([lit "10.0.0.0/8"; lit "192.168.1.0/24"], None)
  /\ resolve_positional [lit "10.0.0.0/8"; lit "hosts.txt"] []
     = ([lit "10.0.0.0/8"], Some (lit "hosts.txt")).
Proof. split; vm_compute; reflexivity. Qed.

(** The loop of [ip_matches_any] finds a network when there is one. *)
Lemma matches_any_loop_exists (ip : ipaddress.Address) (networks : list ipaddress.Network) :
  matches_any_loop ip networks = true <->
  exists net, In net networks
    /\ (ipaddress.version ip =? ipaddress.net_version net)
       && ipaddress.__contains__ net ip = true.
Proof.
  induction networks as [|net rest IH]; simpl.
  - split; [discriminate|]. intros (n & [] & _).
  - destruct ((ipaddress.version ip =? ipaddress.net_version net)
              && ipaddress.__contains__ net ip) eqn:E.
    + split; [|reflexivity]. intros _. exists net. auto.
    + rewrite IH. split.
      * intros (n & Hn & H). exists n. auto.
      * intros (n & [<-|Hn] & H); [congruence|]. exists n. auto.
Qed.

(** Every network that [load_cidrs] builds is well formed. *)
Lemma parsed_wf (cidr_strings : list str) :
  Forall ipaddress.wf_network (parsed cidr_strings).
Proof.
  apply Forall_forall. intros N HN. unfold parsed in HN.
  apply in_flat_map in HN. destruct HN as (cidr & _ & HN).
  destruct (ipaddress.ip_network cidr) as [e|net] eqn:E; [contradiction|].
  destruct HN as [<-|[]]. eapply ipaddress_facts.ip_network_wf; eauto.
Qed.

(** Membership of a parsed address in a list of well-formed networks. *)
Lemma ip_matches_any_iff (ip_s : str) (A : ipaddress.Address)
    (networks : list ipaddress.Network) :
  ipaddress.ip_address ip_s = inr A ->
  Forall ipaddress.wf_network networks ->
  (ip_matches_any ip_s networks = true <->
   exists N, In N networks
     /\ ipaddress.n_cls N = ipaddress.a_cls A
     /\ Z.land (ipaddress._ip A)
               (ipaddress._ip_int_from_prefix (ipaddress.n_cls N) (ipaddress._prefixlen N))
        = ipaddress._ip (ipaddress.network_address N)).
Proof.
  intros HA Hwf. unfold ip_matches_any. rewrite HA, matches_any_loop_exists.
  rewrite Forall_forall in Hwf.
  split; intros (N & HN & H); exists N; (split; [exact HN|]).
  - apply andb_prop in H. destruct H as [Hv Hc].
    apply Z.eqb_eq in Hv. unfold ipaddress.version, ipaddress.net_version in Hv.
    apply ipaddress_facts.version_inj in Hv.
    unfold ipaddress.__contains__ in Hc. rewrite <- Hv, Z.eqb_refl in Hc.
    cbn [negb] in Hc. apply Z.eqb_eq in Hc.
    destruct (Hwf N HN) as (_ & Hnm & _). rewrite Hnm in Hc. cbn in Hc.
    split; [symmetry; exact Hv|exact Hc].
  - destruct H as [Hc Hl]. destruct (Hwf N HN) as (_ & Hnm & _).
    unfold ipaddress.version, ipaddress.net_version, ipaddress.__contains__.
    rewrite <- Hc, Z.eqb_refl, Hnm. cbn [negb andb ipaddress._ip].
    apply Z.eqb_eq. exact Hl.
Qed.

(** A network of the other family never contains the address. *)
Lemma other_family_no_match (ip_s : str) (A : ipaddress.Address) (N : ipaddress.Network) :
  ipaddress.ip_address ip_s = inr A ->
  ipaddress.n_cls N <> ipaddress.a_cls A ->
  ip_matches_any ip_s [N] = false.
Proof.
  intros HA Hne. unfold ip_matches_any. rewrite HA. cbn [matches_any_loop].
  unfold ipaddress.version, ipaddress.net_version.
  destruct (Z.eqb_spec (ipaddress._version (ipaddress.a_cls A))
                       (ipaddress._version (ipaddress.n_cls N))) as [Heq|]; [|reflexivity].
  apply ipaddress_facts.version_inj in Heq. congruence.
Qed.

(** C2. For every address text that [ip_address] accepts, as address
    [A], and every network set built by [load_cidrs]: [ip_matches_any]
    is true iff some network [N] of the set has the family of [A] and
    the bits of [A], masked to the prefix length of [N], are the base
    address of [N], which is to say that [A] lies in the block of
    [2 ^ (max - prefixlen)] addresses that starts at the base address; a
    network of the other family never matches, alone or in a set; and
    over the empty set the answer is false for every text. *)
Theorem C2_membership (repr : str -> str) (cidr_strings : list str) (t : list event)
    (networks : list ipaddress.Network) (ip_s : str) (A : ipaddress.Address) :
  build_networks repr cidr_strings = (t, inr networks) ->
  ipaddress.ip_address ip_s = inr A ->
  (ip_matches_any ip_s networks = true <->
   exists N, In N networks
     /\ ipaddress.n_cls N = ipaddress.a_cls A
     /\ Z.land (ipaddress._ip A)
               (ipaddress._ip_int_from_prefix (ipaddress.n_cls N) (ipaddress._prefixlen N))
        = ipaddress._ip (ipaddress.network_address N))
  /\ (forall N, In N networks -> ipaddress.n_cls N = ipaddress.a_cls A ->
        (Z.land (ipaddress._ip A)
                (ipaddress._ip_int_from_prefix (ipaddress.n_cls N) (ipaddress._prefixlen N))
         = ipaddress._ip (ipaddress.network_address N)
         <-> ipaddress._ip (ipaddress.network_address N) <= ipaddress._ip A
             < ipaddress._ip (ipaddress.network_address N)
               + 2 ^ (ipaddress._max_prefixlen (ipaddress.n_cls N) - ipaddress._prefixlen N)))
  /\ (forall N, In N networks -> ipaddress.n_cls N <> ipaddress.a_cls A ->
        ip_matches_any ip_s [N] = false)
  /\ ((forall N, In N networks -> ipaddress.n_cls N <> ipaddress.a_cls A) ->
        ip_matches_any ip_s networks = false)
  /\ (forall s : str, ip_matches_any s [] = false).
Proof.
  intros Hb HA.
  assert (Hwf : Forall ipaddress.wf_network networks).
  { rewrite build_networks_spec in Hb.
    destruct (first_invalid cidr_strings) as [[c e]|]; [discriminate|].
    injection Hb as _ <-. apply parsed_wf. }
  pose proof (ip_matches_any_iff ip_s A networks HA Hwf) as Hiff.
  split; [exact Hiff|]. split; [|split; [|split]].
  - intros N HN Hcls. rewrite Forall_forall in Hwf.
    destruct (Hwf N HN) as (_ & Hnm & Hp & Hcan).
    rewrite Hnm in Hcan. cbn [ipaddress._ip] in Hcan.
    apply ipaddress_facts.masked_iff_interval; [exact Hp| |].
    + rewrite Hcls. apply (ipaddress_facts.ip_address_range ip_s A HA).
    + apply (ipaddress_facts.canonical_base _ _ _ Hp Hcan).
  - intros N _ Hne. apply (other_family_no_match ip_s A N HA Hne).
  - intro Hall. apply not_true_is_false. intro E.
    apply Hiff in E. destruct E as (N & HN & Hc & _).
    apply (Hall N HN Hc).
  - intro s. unfold ip_matches_any.
    destruct (ipaddress.ip_address s); reflexivity.
Qed.

Lemma C2_witness :
  build_networks quote [lit "10.0.0.0/8"; lit "2001:db8::/32"]
  = ([], inr (parsed [lit "10.0.0.0/8"; lit "2001:db8::/32"]))
  /\ ipaddress.ip_address (lit "10.1.2.3")
     = inr (ipaddress.mkAddress ipaddress.V4 167838211 None)
  /\ ip_matches_any (lit "10.1.2.3") (parsed [lit "10.0.0.0/8"; lit "2001:db8::/32"]) = true
  /\ ip_matches_any (lit "10.1.2.3") (parsed [lit "2001:db8::/32"]) = false.
Proof.
  assert (Hb : build_networks quote [lit "10.0.0.0/8"; lit "2001:db8::/32"]
               = ([], inr (parsed [lit "10.0.0.0/8"; lit "2001:db8::/32"])))
    by (vm_compute; reflexivity).
  assert (HA : ipaddress.ip_address (lit "10.1.2.3")
               = inr (ipaddress.mkAddress ipaddress.V4 167838211 None))
    by (vm_compute; reflexivity).
  split; [exact Hb|]. split; [exact HA|].
  destruct (C2_membership quote _ _ _ _ _ Hb HA) as (Hiff & _ & Hone & _ & _).
  split.
  - apply Hiff. exists net_10_8.
    split; [left; vm_compute; reflexivity|]. split; vm_compute; reflexivity.
  - apply (Hone (ipaddress.mkNetwork ipaddress.V6
                   (ipaddress.mkAddress ipaddress.V6 42540766411282592856903984951653826560 None)
                   (ipaddress.mkAddress ipaddress.V6 340282366841710300949110269838224261120 None)
                   32)).
    + right; left. vm_compute. reflexivity.
    + discriminate.
Defined.

(** A field that is no address is a raw non-match. *)
Lemma unparseable_no_match (ip_s : str) (e : ipaddress.ValueError)
    (networks : list ipaddress.Network) :
  ipaddress.ip_address ip_s = inl e -> ip_matches_any ip_s networks = false.
Proof. intro H. unfold ip_matches_any. rewrite H. reflexivity. Qed.

Lemma selected_field_none (ns : Namespace) (line : str) :
  1 <= field ns ->
  Z.of_nat (length (py_split line)) < field ns -> selected_field ns line = None.
Proof.
  intros Hf H. unfold selected_field. apply nth_error_None. lia.
Qed.

(** C3 (as amended).  The two per-line soft failures never raise and
    never abort the run: the loop body returns for every line, and the
    loop over any input runs to its end.  They are handled in two ways:
    a line whose field count is below the configured field index is
    skipped whole, neither counted nor written, whatever the invert
    flag; a line whose selected field is no IP address is a raw
    non-match to which the invert flag applies, so it is selected
    exactly when the flag is on. *)
Theorem C3_soft_failures (ns : Namespace) (networks : list ipaddress.Network)
    (line : str) (selected : Z) :
  1 <= field ns ->
  (Z.of_nat (length (py_split line)) < field ns ->
     loop_body ns networks (field ns - 1) line selected = ret selected)
  /\ (forall (ip_s : str) (e : ipaddress.ValueError),
        selected_field ns line = Some ip_s ->
        ipaddress.ip_address ip_s = inl e ->
        ip_matches_any ip_s networks = false
        /\ loop_body ns networks (field ns - 1) line selected =
           if invert_match ns then
             ((if count ns then []
               else [Stdout (if only_matching ns then ip_s ++ NL else line)]),
              inr (selected + 1))
           else ret selected)
  /\ (exists (t : list event) (selected' : Z),
        loop_body ns networks (field ns - 1) line selected = (t, inr selected'))
  /\ (forall (fh : handle) (lines : list str),
        exists (t : list event) (selected' : Z),
          for_lines fh lines (loop_body ns networks (field ns - 1)) selected
          = (t, inr selected')).
Proof.
  intro Hf. split; [|split; [|split]].
  - intro Hlen. apply (loop_body_no_field ns networks Hf).
    apply (selected_field_none ns line Hf Hlen).
  - intros ip_s e Hs He.
    pose proof (unparseable_no_match ip_s e networks He) as Hm.
    split; [exact Hm|].
    rewrite (loop_body_field ns networks Hf line ip_s selected Hs), Hm.
    destruct (invert_match ns); reflexivity.
  - destruct (selected_field ns line) as [ip_s|] eqn:Hs.
    + rewrite (loop_body_field ns networks Hf line ip_s selected Hs).
      destruct (xorb (ip_matches_any ip_s networks) (invert_match ns)); eauto.
      unfold ret; eauto.
    + rewrite (loop_body_no_field ns networks Hf line selected Hs). unfold ret; eauto.
  - intros fh lines. rewrite (for_lines_loop ns networks Hf). eauto.
Qed.

Lemma C3_witness :
  1 <= field (demo_ns true false false 2)
  /\ loop_body (demo_ns true false false 2) [net_10_8] 1 (lit "short" ++ NL) 0 = ret 0
  /\ loop_body (demo_ns true false false 2) [net_10_8] 1 (lit "host3 nonsense x") 0
     = ([Stdout (lit "host3 nonsense x")], inr 1)
  /\ exists (t : list event) (selected' : Z),
       for_lines sys_stdin hosts_txt (loop_body (demo_ns true false false 2) [net_10_8] 1) 0
       = (t, inr selected').
Proof.
  assert (Hf : 1 <= field (demo_ns true false false 2)) by (cbn; lia).
  split; [exact Hf|].
  destruct (C3_soft_failures (demo_ns true false false 2)
              [net_10_8] (lit "short" ++ NL) 0 Hf) as (Hshort & _ & _ & Hrun).
  destruct (C3_soft_failures (demo_ns true false false 2)
              [net_10_8] (lit "host3 nonsense x") 0 Hf) as (_ & Hbad & _ & _).
  split; [|split].
  - apply Hshort. vm_compute. reflexivity.
  - apply (Hbad (lit "nonsense") (ipaddress.not_an_address (lit "nonsense")));
      vm_compute; reflexivity.
  - exact (Hrun sys_stdin hosts_txt).
Defined.

(** C3 as stated fails.  With the invert flag on and field 2, the line
    [short] has one field: the field index exceeds the field count.  A
    raw non-match to which the invert flag applied would be an effective
    match ([xorb false true]), and the line would be counted and
    written.  The loop skips it instead: no event, [selected] stays 0;
    in the whole run over [hosts.txt] the line is not written, while the
    line whose field 2 is no address is. *)
Lemma C3_counterexample :
  Z.of_nat (length (py_split (lit "short" ++ NL))) < field (demo_ns true false false 2)
  /\ invert_match (demo_ns true false false 2) = true
  /\ xorb false (invert_match (demo_ns true false false 2)) = true
  /\ loop_body (demo_ns true false false 2) [net_10_8]
       (field (demo_ns true false false 2) - 1) (lit "short" ++ NL) 0 = ([], inr 0)
  /\ stdout (fst (main quote demo_env (demo_ns true false false 2)))
     = [lit "host2 192.168.1.1 down" ++ NL; lit "host3 nonsense x"].
Proof.
  split; [vm_compute; reflexivity|].
  split; [reflexivity|]. split; [reflexivity|].
  split; vm_compute; reflexivity.
Qed.

(** C4. In count mode, for every input that the run gets to read, the
    program writes exactly one text to standard output: the decimal
    number of the lines whose effective match (raw membership XOR invert
    flag) was true, followed by a newline; and it returns normally. *)
Theorem C4_count_mode (repr : str -> str) (env : Env) (ns : Namespace)
    (t1 t2 : list event) (networks : list ipaddress.Network)
    (infile : option str) (fh : handle) (lines : list str) :
  count ns = true ->
  1 <= field ns ->
  load_cidrs repr env ns = (t1, inr (networks, infile)) ->
  open_input env infile = (t2, inr (fh, lines)) ->
  snd (main repr env ns) = inr tt
  /\ stdout (fst (main repr env ns)) =
     [str_of_int (Z.of_nat (length (selected_lines ns networks lines))) ++ NL].
Proof.
  intros Hc Hf Hl Ho.
  destruct (main_stdout repr env ns _ _ _ _ _ _ Hf Hl Ho) as [Hr Hout].
  split; [exact Hr|]. rewrite Hout, Hc. reflexivity.
Qed.

Lemma C4_witness :
  snd (main quote demo_env (demo_ns true true false 2)) = inr tt
  /\ stdout (fst (main quote demo_env (demo_ns true true false 2))) = [lit "2" ++ NL].
Proof.
  apply (C4_count_mode quote demo_env (demo_ns true true false 2)
           [] [Open (lit "hosts.txt")] [net_10_8] (Some (lit "hosts.txt"))
           (input_fh (lit "hosts.txt")) hosts_txt).
  - reflexivity.
  - cbn. lia.
  - vm_compute. reflexivity.
  - vm_compute. reflexivity.
Defined.

(** C5. For every line whose effective match is true, with count mode
    off, the loop writes exactly once: in only-matching mode the text of
    the selected field (which [print] ends with a newline), in default
    mode the text of the line as it was read, terminator and spacing
    included; [selected] grows by one. *)
Theorem C5_one_write_per_selected_line (ns : Namespace)
    (networks : list ipaddress.Network) (line : str) (selected : Z) :
  1 <= field ns ->
  count ns = false ->
  effective_match ns networks line = Some true ->
  exists ip_s : str,
    selected_field ns line = Some ip_s
    /\ loop_body ns networks (field ns - 1) line selected =
       ([Stdout (if only_matching ns then ip_s ++ NL else line)], inr (selected + 1)).
Proof.
  intros Hf Hc He. unfold effective_match in He.
  destruct (selected_field ns line) as [ip_s|] eqn:Hs; [|discriminate He].
  cbn [option_map] in He. injection He as He.
  exists ip_s. split; [reflexivity|].
  rewrite (loop_body_field ns networks Hf line ip_s selected Hs), He, Hc.
  reflexivity.
Qed.

Lemma C5_witness :
  (exists ip_s : str,
     selected_field (demo_ns false false true 2) (lit "host1 10.1.2.3 up" ++ NL) = Some ip_s
     /\ loop_body (demo_ns false false true 2) [net_10_8] (2 - 1)
          (lit "host1 10.1.2.3 up" ++ NL) 0
        = ([Stdout (ip_s ++ NL)], inr (0 + 1)))
  /\ selected_field (demo_ns false false true 2) (lit "host1 10.1.2.3 up" ++ NL)
     = Some (lit "10.1.2.3").
Proof.
  split.
  - apply (C5_one_write_per_selected_line (demo_ns false false true 2) [net_10_8]
             (lit "host1 10.1.2.3 up" ++ NL) 0).
    + cbn. lia.
    + reflexivity.
    + vm_compute. reflexivity.
  - vm_compute. reflexivity.
Defined.

(** C6. A line made of whitespace only, or empty, is skipped: for every
    combination of the flags, every field index and every network set
    the loop body writes nothing and leaves [selected] as it was; and a
    loop over lines gives the same count and the same output with the
    blank line as without it. *)
Theorem C6_blank_lines_skipped (ns : Namespace) (networks : list ipaddress.Network)
    (field_index : Z) (line : str) (selected : Z) (fh : handle)
    (before after : list str) :
  blank line ->
  loop_body ns networks field_index line selected = ret selected
  /\ snd (for_lines fh (before ++ line :: after)
            (loop_body ns networks field_index) selected)
     = snd (for_lines fh (before ++ after) (loop_body ns networks field_index) selected)
  /\ stdout (fst (for_lines fh (before ++ line :: after)
                    (loop_body ns networks field_index) selected))
     = stdout (fst (for_lines fh (before ++ after)
                      (loop_body ns networks field_index) selected)).
Proof.
  intro Hb.
  assert (Hbody : forall s, loop_body ns networks field_index line s = ret s).
  { intro s. unfold loop_body. apply strip_nil_iff in Hb. rewrite Hb. reflexivity. }
  split; [apply Hbody|].
  unfold for_lines.
  set (body := fun line0 acc =>
                 emit (Read fh line0) ;; loop_body ns networks field_index line0 acc).
  assert (Hstep : forall s, body line s = ([Read fh line], inr s)).
  { intro s. unfold body. rewrite mbind_emit, Hbody. reflexivity. }
  rewrite !for_each_app. cbn [for_each].
  destruct (for_each before body selected) as [t [e|s]]; unfold mbind;
    [split; reflexivity|].
  rewrite Hstep.
  destruct (for_each after body s) as [t2 r2]. cbn [fst snd].
  split; [reflexivity|].
  rewrite !stdout_app. reflexivity.
Qed.

Lemma C6_witness :
  blank (lit "  ")
  /\ loop_body (demo_ns true false false 1) [net_10_8] 0 (lit "  ") 0 = ret 0
  /\ loop_body (demo_ns false true true 1) [net_10_8] 0 (lit "  ") 0 = ret 0.
Proof.
  assert (Hb : blank (lit "  ")) by reflexivity.
  split; [exact Hb|]. split.
  - exact (proj1 (C6_blank_lines_skipped (demo_ns true false false 1) [net_10_8] 0
                    (lit "  ") 0 sys_stdin [] [] Hb)).
  - exact (proj1 (C6_blank_lines_skipped (demo_ns false true true 1) [net_10_8] 0
                    (lit "  ") 0 sys_stdin [] [] Hb)).
Defined.

(** C7. For every expression [addr/mask] whose address and mask the
    family accepts and whose host bits (the bits below the prefix
    length) are not all zero, the lenient [ip_network] accepts it and
    [load_cidrs] builds a network from it, writing nothing: the base
    address is the address with the host bits masked off (the address
    minus its host part), the bits of the prefix are those of the
    address, and the netmask is the one of the prefix length. *)
Theorem C7_host_bits_masked (repr : str -> str) (cls : ipaddress.family)
    (addr mask : str) (a nm : ipaddress.Address) (p : Z) :
  ipaddress._address_class cls (inr addr) = inr a ->
  ipaddress._make_netmask cls (inr mask) = inr (nm, p) ->
  ipaddress._ip a mod 2 ^ (ipaddress._max_prefixlen cls - p) <> 0 ->
  let base := ipaddress.mkAddress cls (Z.land (ipaddress._ip a) (ipaddress._ip nm)) None in
  let net := ipaddress.mkNetwork cls base nm p in
  ipaddress.ip_network (addr ++ SLASH :: mask) = inr net
  /\ build_networks repr [addr ++ SLASH :: mask] = ([], inr [net])
  /\ ipaddress._ip nm = ipaddress._ip_int_from_prefix cls p
  /\ ipaddress._ip base mod 2 ^ (ipaddress._max_prefixlen cls - p) = 0
  /\ ipaddress._ip base
     = ipaddress._ip a - ipaddress._ip a mod 2 ^ (ipaddress._max_prefixlen cls - p)
  /\ (forall i : Z,
        ipaddress._max_prefixlen cls - p <= i < ipaddress._max_prefixlen cls ->
        Z.testbit (ipaddress._ip base) i = Z.testbit (ipaddress._ip a) i).
Proof.
  intros Ha Hm Hhost base net.
  destruct (ipaddress_facts.make_netmask_inv _ _ _ _ Hm) as [Hnm Hp].
  assert (Hipnm : ipaddress._ip nm = ipaddress._ip_int_from_prefix cls p)
    by (rewrite Hnm; reflexivity).
  assert (Hk : 0 <= ipaddress._max_prefixlen cls - p) by lia.
  assert (Hzero : ipaddress._ip base mod 2 ^ (ipaddress._max_prefixlen cls - p) = 0).
  { rewrite <- Z.land_ones by exact Hk.
    rewrite <- (ipaddress_facts.hostmask_ones cls p Hp).
    unfold base. cbn [ipaddress._ip]. rewrite Hipnm.
    apply ipaddress_facts.masked_host_bits. exact Hp. }
  assert (Hne : Z.land (ipaddress._ip a) (ipaddress._ip nm) <> ipaddress._ip a).
  { intro Heq. apply Hhost. unfold base in Hzero. cbn [ipaddress._ip] in Hzero.
    rewrite Heq in Hzero. exact Hzero. }
  assert (Hnet : ipaddress.ip_network (addr ++ SLASH :: mask) = inr net).
  { rewrite (ipaddress_facts.ip_network_masks cls addr mask a nm p Ha Hm).
    destruct (Z.eqb_spec (Z.land (ipaddress._ip a) (ipaddress._ip nm)) (ipaddress._ip a));
      [contradiction|reflexivity]. }
  split; [exact Hnet|]. split; [|split; [exact Hipnm|split; [exact Hzero|split]]].
  - rewrite build_networks_spec. unfold parsed. cbn [first_invalid flat_map].
    rewrite Hnet. reflexivity.
  - unfold base. cbn [ipaddress._ip]. rewrite Hipnm.
    apply ipaddress_facts.mask_clears_low; [exact Hp|].
    apply (ipaddress_facts.address_class_range cls _ a Ha).
  - intros i Hi. unfold base. cbn [ipaddress._ip].
    rewrite Z.land_spec, Hipnm, ipaddress_facts.netmask_testbit by lia.
    destruct (Z.leb_spec (ipaddress._max_prefixlen cls - p) i); [|lia].
    destruct (Z.ltb_spec i (ipaddress._max_prefixlen cls)); [|lia].
    apply andb_true_r.
Qed.

Lemma C7_witness :
  ipaddress._ip (ipaddress.mkAddress ipaddress.V4 167838211 None) mod 2 ^ (32 - 8) <> 0
  /\ ipaddress.ip_network (lit "10.1.2.3/8") = inr net_10_8
  /\ build_networks quote [lit "10.1.2.3/8"] = ([], inr [net_10_8]).
Proof.
  assert (Hhost : ipaddress._ip (ipaddress.mkAddress ipaddress.V4 167838211 None)
                    mod 2 ^ (ipaddress._max_prefixlen ipaddress.V4 - 8) <> 0)
    by (vm_compute; discriminate).
  split; [exact Hhost|].
  destruct (C7_host_bits_masked quote ipaddress.V4 (lit "10.1.2.3") (lit "8")
              (ipaddress.mkAddress ipaddress.V4 167838211 None)
              (ipaddress.mkAddress ipaddress.V4 4278190080 None) 8
              eq_refl eq_refl Hhost) as (Hnet & Hbuild & _).
  split; [exact Hnet|exact Hbuild].
Defined.

(** The same for an IPv6 expression with host bits set. *)
Example ip_network_masks_v6 :
  ipaddress.ip_network (lit "2001:db8::1/32")
  = ipaddress.ip_network (lit "2001:db8::/32").
Proof. vm_compute. reflexivity. Qed.

(** C8. When the expressions are resolved (from the flags, the
    expression file and the positional tokens) and one of them is not an
    IP network, the run stops on [sys.exit(2)] after one message on
    standard error that gives the text of the first such expression and
    the reason; nothing is written to standard output and no line of
    the input is read. *)
Theorem C8_invalid_expression_aborts (repr : str -> str) (env : Env) (ns : Namespace)
    (t : list event) (cidr_strings : list str) (infile : option str) (bad : str) :
  1 <= field ns ->
  resolve env ns = (t, inr (cidr_strings, infile)) ->
  In bad cidr_strings ->
  (exists e, ipaddress.ip_network bad = inl e) ->
  exists cidr : str,
    In cidr cidr_strings
    /\ ipaddress.ip_network cidr = inl (ipaddress.not_a_network cidr)
    /\ main repr env ns =
       (t ++ [Stderr ((lit "Invalid CIDR: " ++ cidr ++ lit " ("
                        ++ (repr cidr ++ lit " does not appear to be an IPv4 or IPv6 network")
                        ++ lit ")") ++ NL)],
        inl (SystemExit 2))
    /\ stdout (fst (main repr env ns)) = []
    /\ input_read (fst (main repr env ns)) = [].
Proof.
  intros Hf Hr Hin Hbad.
  destruct (first_invalid_some cidr_strings bad Hin Hbad) as (cidr & e & Hfi).
  destruct (first_invalid_in cidr_strings cidr e Hfi) as (Hc & He & ->).
  exists cidr. split; [exact Hc|]. split; [exact He|].
  assert (Hl : load_cidrs repr env ns =
               (t ++ [Stderr (invalid_cidr_message repr cidr (ipaddress.not_a_network cidr))],
                inl (SystemExit 2))).
  { rewrite (load_cidrs_resolved repr env ns _ _ _ Hr), Hfi.
    destruct cidr_strings; [contradiction|reflexivity]. }
  pose proof (main_load_fails repr env ns _ _ Hf Hl) as Hmain.
  pose proof (load_cidrs_silent repr env ns) as [Hs1 Hs2].
  rewrite Hl in Hs1, Hs2. cbn [fst] in Hs1, Hs2.
  rewrite Hmain. cbn [fst]. split; [reflexivity|]. split; assumption.
Qed.

Lemma C8_witness :
  exists cidr : str,
    In cidr [lit "10.0.0.0/8"; lit "bogus/8"; lit "nonsense"]
    /\ ipaddress.ip_network cidr = inl (ipaddress.not_a_network cidr)
    /\ main quote demo_env
         (mkNamespace [lit "10.0.0.0/8"; lit "bogus/8"] None false false false 1
            [lit "nonsense"; lit "hosts.txt"]) =
       ([] ++ [Stderr ((lit "Invalid CIDR: " ++ cidr ++ lit " ("
                         ++ (quote cidr ++ lit " does not appear to be an IPv4 or IPv6 network")
                         ++ lit ")") ++ NL)],
        inl (SystemExit 2))
    /\ stdout (fst (main quote demo_env
         (mkNamespace [lit "10.0.0.0/8"; lit "bogus/8"] None false false false 1
            [lit "nonsense"; lit "hosts.txt"]))) = []
    /\ input_read (fst (main quote demo_env
         (mkNamespace [lit "10.0.0.0/8"; lit "bogus/8"] None false false false 1
            [lit "nonsense"; lit "hosts.txt"]))) = [].
Proof.
  apply (C8_invalid_expression_aborts quote demo_env
           (mkNamespace [lit "10.0.0.0/8"; lit "bogus/8"] None false false false 1
              [lit "nonsense"; lit "hosts.txt"])
           [] [lit "10.0.0.0/8"; lit "bogus/8"; lit "nonsense"]
           (Some (lit "hosts.txt")) (lit "nonsense")).
  - cbn. lia.
  - vm_compute. reflexivity.
  - right; right; left. reflexivity.
  - exists (ipaddress.not_a_network (lit "nonsense")). vm_compute. reflexivity.
Defined.

(** C9. The two configuration errors, a field number below 1 and an
    empty list of resolved expressions, end the run on [sys.exit(2)]
    after exactly one message on standard error; nothing is written to
    standard output and no line of the input is read. *)
Theorem C9_configuration_errors (repr : str -> str) (env : Env) (ns : Namespace) :
  field ns < 1
  \/ (exists (t : list event) (infile : option str),
        resolve env ns = (t, inr ([], infile))) ->
  snd (main repr env ns) = inl (SystemExit 2)
  /\ stderr (fst (main repr env ns)) =
     [(if field ns <? 1 then lit "Field number must be >= 1"
       else lit "No CIDRs provided.") ++ NL]
  /\ stdout (fst (main repr env ns)) = []
  /\ input_read (fst (main repr env ns)) = [].
Proof.
  intro H. destruct (Z.ltb_spec (field ns) 1) as [Hlt|Hge].
  - rewrite (main_bad_field repr env ns Hlt). repeat split; reflexivity.
  - destruct H as [Hlt|(t & infile & Hr)]; [lia|].
    assert (Hl : load_cidrs repr env ns =
                 (t ++ [Stderr (lit "No CIDRs provided." ++ NL)], inl (SystemExit 2)))
      by (rewrite (load_cidrs_resolved repr env ns _ _ _ Hr); reflexivity).
    pose proof (load_cidrs_silent repr env ns) as [Hs1 Hs2].
    rewrite Hl in Hs1, Hs2. cbn [fst] in Hs1, Hs2.
    rewrite (main_load_fails repr env ns _ _ Hge Hl). cbn [fst snd].
    split; [reflexivity|]. split; [|split; assumption].
    rewrite stderr_app, (resolve_stderr env ns _ _ Hr). reflexivity.
Qed.

Lemma C9_witness :
  (snd (main quote demo_env (demo_ns false false false 0)) = inl (SystemExit 2)
   /\ stderr (fst (main quote demo_env (demo_ns false false false 0)))
      = [lit "Field number must be >= 1" ++ NL]
   /\ stdout (fst (main quote demo_env (demo_ns false false false 0))) = []
   /\ input_read (fst (main quote demo_env (demo_ns false false false 0))) = [])
  /\ (snd (main quote demo_env
             (mkNamespace [] None false false false 1 [lit "hosts.txt"]))
      = inl (SystemExit 2)
      /\ stderr (fst (main quote demo_env
                        (mkNamespace [] None false false false 1 [lit "hosts.txt"])))
         = [lit "No CIDRs provided." ++ NL]
      /\ stdout (fst (main quote demo_env
                        (mkNamespace [] None false false false 1 [lit "hosts.txt"]))) = []
      /\ input_read (fst (main quote demo_env
                            (mkNamespace [] None false false false 1 [lit "hosts.txt"]))) = []).
Proof.
  split.
  - apply (C9_configuration_errors quote demo_env (demo_ns false false false 0)).
    left. cbn. lia.
  - apply (C9_configuration_errors quote demo_env
             (mkNamespace [] None false false false 1 [lit "hosts.txt"])).
    right. exists [], (Some (lit "hosts.txt")). vm_compute. reflexivity.
Defined.

(** C10. With the count flag and the only-matching flag both on, count
    mode wins: the loop body writes nothing for any line, the only
    output of the run is the final count line, and it is the output of
    the same run without the only-matching flag. *)
Theorem C10_count_over_only_matching (repr : str -> str) (env : Env) (ns : Namespace)
    (t1 t2 : list event) (networks : list ipaddress.Network)
    (infile : option str) (fh : handle) (lines : list str) :
  count ns = true ->
  only_matching ns = true ->
  1 <= field ns ->
  load_cidrs repr env ns = (t1, inr (networks, infile)) ->
  open_input env infile = (t2, inr (fh, lines)) ->
  (forall (line : str) (selected : Z),
     fst (loop_body ns networks (field ns - 1) line selected) = [])
  /\ stdout (fst (main repr env ns)) =
     [str_of_int (Z.of_nat (length (selected_lines ns networks lines))) ++ NL]
  /\ stdout (fst (main repr env (with_only_matching false ns)))
     = stdout (fst (main repr env ns)).
Proof.
  intros Hc Ho Hf Hl Hop. split; [|split].
  - intros line selected.
    destruct (selected_field ns line) as [ip_s|] eqn:Hs.
    + rewrite (loop_body_field ns networks Hf line ip_s selected Hs), Hc.
      destruct (xorb (ip_matches_any ip_s networks) (invert_match ns)); reflexivity.
    + rewrite (loop_body_no_field ns networks Hf line selected Hs). reflexivity.
  - rewrite (proj2 (main_stdout repr env ns _ _ _ _ _ _ Hf Hl Hop)), Hc. reflexivity.
  - assert (Hl' : load_cidrs repr env (with_only_matching false ns)
                  = (t1, inr (networks, infile)))
      by (rewrite <- Hl; destruct ns; reflexivity).
    assert (Hf' : 1 <= field (with_only_matching false ns)) by exact Hf.
    rewrite (proj2 (main_stdout repr env _ _ _ _ _ _ _ Hf' Hl' Hop)).
    rewrite (proj2 (main_stdout repr env ns _ _ _ _ _ _ Hf Hl Hop)).
    cbn [count with_only_matching]. rewrite Hc. reflexivity.
Qed.

Lemma C10_witness :
  (forall (line : str) (selected : Z),
     fst (loop_body (demo_ns false true true 2) [net_10_8] (2 - 1) line selected) = [])
  /\ stdout (fst (main quote demo_env (demo_ns false true true 2))) = [lit "1" ++ NL]
  /\ stdout (fst (main quote demo_env (with_only_matching false (demo_ns false true true 2))))
     = stdout (fst (main quote demo_env (demo_ns false true true 2))).
Proof.
  apply (C10_count_over_only_matching quote demo_env (demo_ns false true true 2)
           [] [Open (lit "hosts.txt")] [net_10_8] (Some (lit "hosts.txt"))
           (input_fh (lit "hosts.txt")) hosts_txt).
  - reflexivity.
  - reflexivity.
  - cbn. lia.
  - vm_compute. reflexivity.
  - vm_compute. reflexivity.
Defined.

(** * Further properties of the program *)

(** ** Further facts about the string primitives *)

(** [lstrip] drops a prefix of whitespace. *)
Lemma lstrip_suffix (s : str) :
  exists p, s = p ++ lstrip s /\ forallb py_isspace p = true.
Proof.
  induction s as [|c t [p [E Hp]]]; [exists []; split; reflexivity|].
  simpl. destruct (py_isspace c) eqn:Ec.
  - exists (c :: p). simpl. rewrite Ec, Hp. split; [f_equal; exact E|reflexivity].
  - exists []. split; reflexivity.
Qed.

(** [rstrip] drops a suffix of whitespace. *)
Lemma rstrip_prefix (s : str) :
  exists q, s = rstrip s ++ q /\ forallb py_isspace q = true.
Proof.
  destruct (lstrip_suffix (rev s)) as [p [E Hp]].
  exists (rev p). split.
  - unfold rstrip. rewrite <- rev_app_distr, <- E, rev_involutive. reflexivity.
  - rewrite forallb_rev. exact Hp.
Qed.

Lemma rstrip_last (s : str) (d : char) :
  rstrip s <> [] -> py_isspace (last (rstrip s) d) = false.
Proof.
  unfold rstrip. intro H.
  destruct (lstrip (rev s)) as [|c t] eqn:E; [contradiction H; reflexivity|].
  cbn [rev]. rewrite last_last. eapply lstrip_head; eauto.
Qed.

(** A stripped string begins and ends with a character that is no
    whitespace. *)
Lemma strip_edges (s : str) (c : char) (t : str) :
  strip s = c :: t ->
  py_isspace c = false /\ py_isspace (last (c :: t) c) = false.
Proof.
  unfold strip. intro E. split.
  - destruct (rstrip_prefix (lstrip s)) as [q [Eq _]].
    rewrite E in Eq. cbn [app] in Eq. eapply lstrip_head; eauto.
  - rewrite <- E. apply rstrip_last. rewrite E. discriminate.
Qed.



(** What the loop over the CIDR file computes. *)
Lemma fold_cidr_file_step (lines : list str) (cidr_strings : list str) :
  fold_left cidr_file_step lines cidr_strings
  = cidr_strings ++ filter is_expression_line (map strip lines).
Proof.
  revert cidr_strings. induction lines as [|l lines IH]; intro cs.
  - cbn. rewrite app_nil_r. reflexivity.
  - cbn [fold_left map filter]. rewrite IH. unfold cidr_file_step, is_expression_line.
    destruct (nonempty (strip l)); cbn [negb orb andb].
    + destruct (startswith (strip l) (lit "#")); cbn [negb];
        [reflexivity|rewrite <- app_assoc; reflexivity].
    + reflexivity.
Qed.

(** ** Further facts about the embedded [ipaddress] module *)

Module ipaddress_networks.
Import ipaddress ipaddress_facts.

Lemma land_all_ones (cls : family) (a : Z) :
  0 <= a <= _ALL_ONES cls -> Z.land a (_ALL_ONES cls) = a.
Proof.
  intro H. rewrite ALL_ONES_ones in *. pose proof (max_prefixlen_pos cls).
  rewrite Z.land_ones by lia. apply Z.mod_small.
  rewrite Z.ones_equiv in H. lia.
Qed.

Lemma make_netmask_max (cls : family) :
  _make_netmask cls (inl (_max_prefixlen cls))
  = inr (mkAddress cls (_ALL_ONES cls) None, _max_prefixlen cls).
Proof. destruct cls; vm_compute; reflexivity. Qed.

(** An expression with no mask: the network of that one address, scope
    identifier included. *)
Lemma Network_init_bare (cls : family) (s : str) (A : Address) :
  _address_class cls (inr s) = inr A ->
  Network_init cls s
  = inr (mkNetwork cls A (mkAddress cls (_ALL_ONES cls) None) (_max_prefixlen cls)).
Proof.
  intro H. unfold Network_init, _split_addr_prefix.
  rewrite (split_on_no_sep _ _ (address_no_slash _ _ _ H)).
  cbn [bind]. rewrite H. cbn [bind]. rewrite make_netmask_max. cbn [bind _ip].
  rewrite (land_all_ones cls (_ip A)) by (eapply address_class_range; eauto).
  rewrite Z.eqb_refl. reflexivity.
Qed.

Lemma ip_network_bare (s : str) (A : Address) :
  ip_address s = inr A ->
  ip_network s
  = inr (mkNetwork (a_cls A) A (mkAddress (a_cls A) (_ALL_ONES (a_cls A)) None)
           (_max_prefixlen (a_cls A))).
Proof.
  unfold ip_address, ip_network, IPv4Network, IPv6Network. intro H.
  destruct (IPv4Address (inr s)) as [e4|a4] eqn:E4.
  - destruct (IPv6Address (inr s)) as [e6|a6] eqn:E6; [discriminate|].
    injection H as <-.
    assert (Network_init V4 s = inl e4) as ->.
    { unfold Network_init, _split_addr_prefix.
      rewrite (split_on_no_sep _ _ (address_no_slash V6 _ _ E6)).
      cbn [bind _address_class]. rewrite E4. reflexivity. }
    rewrite (address_class_cls V6 _ _ E6).
    rewrite (Network_init_bare V6 s a6 E6). reflexivity.
  - injection H as <-. rewrite (address_class_cls V4 _ _ E4).
    rewrite (Network_init_bare V4 s a4 E4). reflexivity.
Qed.

Lemma prefix_zero_mask (cls : family) : _ip_int_from_prefix cls 0 = 0.
Proof. destruct cls; reflexivity. Qed.

(** The mask of a longer prefix keeps every bit the mask of a shorter
    one keeps. *)
Lemma netmask_nested (cls : family) (p q : Z) :
  0 <= q <= p -> p <= _max_prefixlen cls ->
  Z.land (_ip_int_from_prefix cls p) (_ip_int_from_prefix cls q)
  = _ip_int_from_prefix cls q.
Proof.
  intros Hq Hp. apply Z.bits_inj'. intros i Hi.
  rewrite Z.land_spec, !netmask_testbit by lia.
  destruct (Z.leb_spec (_max_prefixlen cls - p) i),
           (Z.leb_spec (_max_prefixlen cls - q) i),
           (Z.ltb_spec i (_max_prefixlen cls)); try reflexivity; lia.
Qed.

End ipaddress_networks.

(** ** Membership *)

Lemma matches_any_loop_app (ip : ipaddress.Address) (a b : list ipaddress.Network) :
  matches_any_loop ip (a ++ b) = matches_any_loop ip a || matches_any_loop ip b.
Proof.
  induction a as [|n a IH]; [reflexivity|]. cbn [app matches_any_loop].
  destruct ((ipaddress.version ip =? ipaddress.net_version n)
            && ipaddress.__contains__ n ip); [reflexivity|exact IH].
Qed.

(** One network: the test of line 114. *)
Lemma ip_matches_one (ip_s : str) (A : ipaddress.Address) (N : ipaddress.Network) :
  ipaddress.ip_address ip_s = inr A ->
  ipaddress.wf_network N ->
  (ip_matches_any ip_s [N] = true <->
   ipaddress.n_cls N = ipaddress.a_cls A
   /\ Z.land (ipaddress._ip A)
             (ipaddress._ip_int_from_prefix (ipaddress.n_cls N) (ipaddress._prefixlen N))
      = ipaddress._ip (ipaddress.network_address N)).
Proof.
  intros HA HN.
  rewrite (ip_matches_any_iff ip_s A [N] HA) by (constructor; [exact HN|constructor]).
  split.
  - intros [N' [[<-|[]] H]]. exact H.
  - intro H. exists N. split; [left; reflexivity|exact H].
Qed.

(** X1. Membership in a concatenation of two network lists is membership
    in one of them: for every text [ip_s], [ip_matches_any] on [a ++ b]
    is the disjunction of [ip_matches_any] on [a] and on [b]; so the
    order in which the expressions were given never changes the answer. *)
Theorem X1_membership_of_union (ip_s : str) (a b : list ipaddress.Network) :
  ip_matches_any ip_s (a ++ b) = ip_matches_any ip_s a || ip_matches_any ip_s b
  /\ ip_matches_any ip_s (a ++ b) = ip_matches_any ip_s (b ++ a).
Proof.
  unfold ip_matches_any. destruct (ipaddress.ip_address ip_s) as [e|ip].
  - split; reflexivity.
  - rewrite !matches_any_loop_app. split; [reflexivity|apply orb_comm].
Qed.

(** X2. [ip_matches_any] depends on the set of networks only: two lists
    with the same members, whatever their order and however often a
    network is repeated, give the same answer for every text. *)
Theorem X2_membership_same_networks (ip_s : str) (a b : list ipaddress.Network) :
  (forall N, In N a <-> In N b) ->
  ip_matches_any ip_s a = ip_matches_any ip_s b.
Proof.
  intro H. unfold ip_matches_any.
  destruct (ipaddress.ip_address ip_s) as [e|ip]; [reflexivity|].
  apply eq_true_iff_eq. rewrite !matches_any_loop_exists.
  split; intros [N [HN Hm]]; exists N; (split; [apply H; exact HN|exact Hm]).
Qed.

Lemma X2_witness :
  ip_matches_any (lit "10.1.2.3") [net_192_168; net_10_8; net_192_168]
  = ip_matches_any (lit "10.1.2.3") [net_10_8; net_192_168].
Proof.
  apply (X2_membership_same_networks (lit "10.1.2.3")
           [net_192_168; net_10_8; net_192_168] [net_10_8; net_192_168]).
  intro N. simpl. tauto.
Defined.

(** X3. An expression that is an address with no mask becomes the
    network of that one address: [ip_network] accepts it with the full
    prefix length, [build_networks] returns that network alone, and a
    text matches it exactly when it parses to an address of the same
    family and the same integer value (a scope identifier plays no
    part). *)
Theorem X3_bare_address_expression (repr : str -> str) (s : str) (A : ipaddress.Address) :
  ipaddress.ip_address s = inr A ->
  exists N : ipaddress.Network,
    ipaddress.ip_network s = inr N
    /\ build_networks repr [s] = ([], inr [N])
    /\ ipaddress.network_address N = A
    /\ ipaddress._prefixlen N = ipaddress._max_prefixlen (ipaddress.a_cls A)
    /\ ip_matches_any s [N] = true
    /\ forall (s' : str) (A' : ipaddress.Address),
         ipaddress.ip_address s' = inr A' ->
         (ip_matches_any s' [N] = true <->
          ipaddress.a_cls A' = ipaddress.a_cls A
          /\ ipaddress._ip A' = ipaddress._ip A).
Proof.
  intro HA.
  set (N := ipaddress.mkNetwork (ipaddress.a_cls A) A
              (ipaddress.mkAddress (ipaddress.a_cls A)
                 (ipaddress._ALL_ONES (ipaddress.a_cls A)) None)
              (ipaddress._max_prefixlen (ipaddress.a_cls A))).
  assert (HN : ipaddress.ip_network s = inr N)
    by (apply ipaddress_networks.ip_network_bare; exact HA).
  pose proof (ipaddress_facts.ip_network_wf _ _ HN) as Hwf.
  assert (Hm : ipaddress._ip_int_from_prefix (ipaddress.a_cls A)
                 (ipaddress._max_prefixlen (ipaddress.a_cls A))
               = ipaddress._ALL_ONES (ipaddress.a_cls A))
    by (destruct (ipaddress.a_cls A); reflexivity).
  exists N. split; [exact HN|].
  assert (Hone : forall (s' : str) (A' : ipaddress.Address),
             ipaddress.ip_address s' = inr A' ->
             (ip_matches_any s' [N] = true <->
              ipaddress.a_cls A' = ipaddress.a_cls A
              /\ ipaddress._ip A' = ipaddress._ip A)).
  { intros s' A' HA'. rewrite (ip_matches_one s' A' N HA' Hwf).
    cbn [N ipaddress.n_cls ipaddress._prefixlen ipaddress.network_address].
    rewrite Hm.
    split; intros [Hc Hv]; (split; [symmetry; exact Hc|]).
    - rewrite <- Hv. symmetry. rewrite Hc.
      apply ipaddress_networks.land_all_ones.
      eapply ipaddress_facts.ip_address_range; eauto.
    - rewrite <- Hv, <- Hc.
      apply ipaddress_networks.land_all_ones.
      eapply ipaddress_facts.ip_address_range; eauto. }
  split; [|split; [reflexivity|split; [reflexivity|split]]].
  - rewrite (build_networks_spec repr [s]). cbn [first_invalid parsed flat_map].
    rewrite HN. reflexivity.
  - apply (Hone s A HA). split; reflexivity.
  - exact Hone.
Qed.

Lemma X3_witness :
  exists N : ipaddress.Network,
    ipaddress.ip_network (lit "192.168.1.1") = inr N
    /\ build_networks quote [lit "192.168.1.1"] = ([], inr [N])
    /\ ipaddress.network_address N = ipaddress.mkAddress ipaddress.V4 3232235777 None
    /\ ipaddress._prefixlen N = 32
    /\ ip_matches_any (lit "192.168.1.1") [N] = true
    /\ forall (s' : str) (A' : ipaddress.Address),
         ipaddress.ip_address s' = inr A' ->
         (ip_matches_any s' [N] = true <->
          ipaddress.a_cls A' = ipaddress.V4 /\ ipaddress._ip A' = 3232235777).
Proof.
  apply (X3_bare_address_expression quote (lit "192.168.1.1")
           (ipaddress.mkAddress ipaddress.V4 3232235777 None)).
  vm_compute. reflexivity.
Defined.

(** X4. An expression with prefix length 0 matches every address of its
    own family and none of the other: for a network [N] that
    [ip_network] built with prefix length 0 and a text that parses to
    the address [A], [ip_matches_any] answers true exactly when [A] and
    [N] are of the same family. *)
Theorem X4_prefix_zero_matches_family (s ip_s : str) (N : ipaddress.Network)
    (A : ipaddress.Address) :
  ipaddress.ip_network s = inr N ->
  ipaddress._prefixlen N = 0 ->
  ipaddress.ip_address ip_s = inr A ->
  (ip_matches_any ip_s [N] = true <-> ipaddress.a_cls A = ipaddress.n_cls N).
Proof.
  intros HN Hp HA.
  pose proof (ipaddress_facts.ip_network_wf _ _ HN) as Hwf.
  rewrite (ip_matches_one ip_s A N HA Hwf).
  destruct Hwf as [_ [Hm [_ Hb]]].
  rewrite Hm, Hp, ipaddress_networks.prefix_zero_mask in Hb. cbn in Hb.
  rewrite Z.land_0_r in Hb.
  rewrite Hp, ipaddress_networks.prefix_zero_mask, Z.land_0_r, <- Hb.
  split; [intros [H _]; symmetry; exact H|intro H; split; [symmetry; exact H|reflexivity]].
Qed.

Lemma X4_witness :
  ip_matches_any (lit "10.1.2.3") [ipaddress.mkNetwork ipaddress.V4
                                     (ipaddress.mkAddress ipaddress.V4 0 None)
                                     (ipaddress.mkAddress ipaddress.V4 0 None) 0] = true
  <-> ipaddress.V4 = ipaddress.V4.
Proof.
  apply (X4_prefix_zero_matches_family (lit "1.2.3.4/0") (lit "10.1.2.3")
           (ipaddress.mkNetwork ipaddress.V4
              (ipaddress.mkAddress ipaddress.V4 0 None)
              (ipaddress.mkAddress ipaddress.V4 0 None) 0)
           (ipaddress.mkAddress ipaddress.V4 167838211 None)).
  - vm_compute. reflexivity.
  - reflexivity.
  - vm_compute. reflexivity.
Defined.

(** X5. A network that lies inside another one adds nothing: when [N1]
    and [N2] are built by [ip_network], the prefix of [N1] is at least
    as long as that of [N2] and the base address of [N1] is in [N2],
    every text that matches [N1] matches [N2], and putting [N1] in front
    of a list that holds [N2] leaves every answer of [ip_matches_any]
    as it was. *)
Theorem X5_subnet_absorbed (s1 s2 : str) (N1 N2 : ipaddress.Network) :
  ipaddress.ip_network s1 = inr N1 ->
  ipaddress.ip_network s2 = inr N2 ->
  ipaddress._prefixlen N2 <= ipaddress._prefixlen N1 ->
  ipaddress.__contains__ N2 (ipaddress.network_address N1) = true ->
  forall ip_s : str,
    (ip_matches_any ip_s [N1] = true -> ip_matches_any ip_s [N2] = true)
    /\ forall rest : list ipaddress.Network,
         ip_matches_any ip_s (N1 :: N2 :: rest) = ip_matches_any ip_s (N2 :: rest).
Proof.
  intros H1 H2 Hp Hin ip_s.
  pose proof (ipaddress_facts.ip_network_wf _ _ H1) as [Hc1 [Hm1 [Hr1 Hb1]]].
  pose proof (ipaddress_facts.ip_network_wf _ _ H2) as [Hc2 [Hm2 [Hr2 Hb2]]].
  unfold ipaddress.__contains__ in Hin.
  destruct (Z.eqb_spec (ipaddress._version (ipaddress.n_cls N2))
              (ipaddress._version (ipaddress.a_cls (ipaddress.network_address N1))))
    as [Hv|Hv]; [|discriminate]. cbn [negb] in Hin.
  apply Z.eqb_eq in Hin. apply ipaddress_facts.version_inj in Hv.
  rewrite Hc1 in Hv.
  assert (Hstep : forall ip : ipaddress.Address,
            (ipaddress.version ip =? ipaddress.net_version N1)
            && ipaddress.__contains__ N1 ip = true ->
            (ipaddress.version ip =? ipaddress.net_version N2)
            && ipaddress.__contains__ N2 ip = true).
  { intros ip H. apply andb_true_iff in H as [Hv1 Hk1].
    unfold ipaddress.__contains__ in Hk1.
    destruct (Z.eqb_spec (ipaddress._version (ipaddress.n_cls N1))
                (ipaddress._version (ipaddress.a_cls ip))) as [Hv'|Hv']; [|discriminate].
    cbn [negb] in Hk1. apply Z.eqb_eq in Hk1.
    unfold ipaddress.version, ipaddress.net_version, ipaddress.__contains__.
    rewrite Hv, Hv', !Z.eqb_refl. cbn [negb andb]. apply Z.eqb_eq.
    rewrite <- Hin, <- Hk1, <- Z.land_assoc. f_equal.
    rewrite Hm1, Hm2. cbn [ipaddress._ip]. rewrite Hv. symmetry.
    apply ipaddress_networks.netmask_nested; lia. }
  unfold ip_matches_any. destruct (ipaddress.ip_address ip_s) as [e|ip].
  - split; [discriminate|reflexivity].
  - split.
    + cbn [matches_any_loop]. intro H.
      destruct ((ipaddress.version ip =? ipaddress.net_version N1)
                && ipaddress.__contains__ N1 ip) eqn:E; [|discriminate].
      rewrite (Hstep ip E). reflexivity.
    + intro rest. cbn [matches_any_loop].
      destruct ((ipaddress.version ip =? ipaddress.net_version N1)
                && ipaddress.__contains__ N1 ip) eqn:E; [|reflexivity].
      rewrite (Hstep ip E). reflexivity.
Qed.

Lemma X5_witness :
  (ip_matches_any (lit "192.168.3.4") [net_192_168] = true ->
   ip_matches_any (lit "192.168.3.4")
     [ipaddress.mkNetwork ipaddress.V4
        (ipaddress.mkAddress ipaddress.V4 3221225472 None)
        (ipaddress.mkAddress ipaddress.V4 4278190080 None) 8] = true)
  /\ forall rest : list ipaddress.Network,
       ip_matches_any (lit "192.168.3.4")
         (net_192_168 ::
          ipaddress.mkNetwork ipaddress.V4
            (ipaddress.mkAddress ipaddress.V4 3221225472 None)
            (ipaddress.mkAddress ipaddress.V4 4278190080 None) 8 :: rest)
       = ip_matches_any (lit "192.168.3.4")
           (ipaddress.mkNetwork ipaddress.V4
              (ipaddress.mkAddress ipaddress.V4 3221225472 None)
              (ipaddress.mkAddress ipaddress.V4 4278190080 None) 8 :: rest).
Proof.
  apply (X5_subnet_absorbed (lit "192.168.0.0/16") (lit "192.0.0.0/8")).
  - vm_compute. reflexivity.
  - vm_compute. reflexivity.
  - cbn. lia.
  - vm_compute. reflexivity.
Defined.

(** ** The invert flag *)



(** ** The expressions of a run *)

Lemma resolve_positional_app (positional cidr_strings : list str) :
  resolve_positional positional cidr_strings
  = (cidr_strings ++ fst (resolve_positional positional []),
     snd (resolve_positional positional [])).
Proof.
  unfold resolve_positional. destruct (nonempty positional).
  - destruct (ipaddress.ip_network (last positional [])); reflexivity.
  - cbn. rewrite app_nil_r. reflexivity.
Qed.

Lemma resolve_value (env : Env) (ns : Namespace) t cidr_strings infile :
  resolve env ns = (t, inr (cidr_strings, infile)) ->
  cidr_strings
  = expr ns ++ cidr_file_expressions env ns ++ fst (resolve_positional (args ns) [])
  /\ infile = snd (resolve_positional (args ns) []).
Proof.
  unfold resolve. rewrite load_cidr_file_spec. unfold cidr_file_expressions.
  destruct (cidr_file ns) as [path|].
  2:{ cbn. rewrite resolve_positional_app. intro H. injection H as _ <- <-.
      split; reflexivity. }
  destruct (nonempty path).
  2:{ cbn. rewrite resolve_positional_app. intro H. injection H as _ <- <-.
      split; reflexivity. }
  destruct (fs_open env path) as [e|lines]; [discriminate|].
  cbn. rewrite resolve_positional_app. intro H. injection H as _ <- <-.
  rewrite fold_cidr_file_step, <- app_assoc. split; reflexivity.
Qed.

Lemma expression_lines_trimmed (lines : list str) :
  Forall (fun e => exists c t, e = c :: t
                     /\ startswith e (lit "#") = false
                     /\ py_isspace c = false
                     /\ py_isspace (last e c) = false)
         (filter is_expression_line (map strip lines)).
Proof.
  apply Forall_forall. intros e He. apply filter_In in He as [Hin He].
  apply in_map_iff in Hin as [l [<- _]]. unfold is_expression_line in He.
  apply andb_true_iff in He as [H1 H2].
  destruct (strip l) as [|c t] eqn:E; [discriminate|].
  exists c, t. split; [reflexivity|]. split.
  - destruct (startswith (c :: t) (lit "#")); [discriminate|reflexivity].
  - exact (strip_edges l c t E).
Qed.

(** X7. A CIDR file that opens is read to its end and closed, and what
    it adds to the expressions is, in file order, the stripped text of
    each line that is neither blank nor a comment: every expression
    taken from the file is non-empty, does not begin with [#], and
    neither begins nor ends with whitespace; the expressions that were
    there before stay in front, unchanged. *)
Theorem X7_cidr_file_lines (env : Env) (ns : Namespace) (path : str)
    (lines cidr_strings : list str) :
  cidr_file ns = Some path ->
  nonempty path = true ->
  fs_open env path = inr lines ->
  load_cidr_file env ns cidr_strings
  = (Open path :: map (Read (cidr_fh path)) lines ++ [Close (cidr_fh path)],
     inr (cidr_strings ++ filter is_expression_line (map strip lines)))
  /\ cidr_file_expressions env ns = filter is_expression_line (map strip lines)
  /\ Forall (fun e => exists c t, e = c :: t
                        /\ startswith e (lit "#") = false
                        /\ py_isspace c = false
                        /\ py_isspace (last e c) = false)
            (cidr_file_expressions env ns).
Proof.
  intros Hc Hp Ho.
  assert (He : cidr_file_expressions env ns = filter is_expression_line (map strip lines)).
  { unfold cidr_file_expressions. rewrite Hc, Hp, Ho. reflexivity. }
  split; [|split; [exact He|]].
  - rewrite load_cidr_file_spec, Hc, Hp, Ho, fold_cidr_file_step. reflexivity.
  - rewrite He. apply expression_lines_trimmed.
Qed.

Lemma X7_witness :
  load_cidr_file
    (mkEnv (fun _ => inr [lit "# private" ++ NL; lit "  10.0.0.0/8  " ++ NL; NL;
                          lit "   # more" ++ NL; lit "fe80::/10"])
           [])
    (mkNamespace [] (Some (lit "nets")) false false false 1 []) [lit "1.2.3.4"]
  = (Open (lit "nets")
       :: map (Read (cidr_fh (lit "nets")))
            [lit "# private" ++ NL; lit "  10.0.0.0/8  " ++ NL; NL;
             lit "   # more" ++ NL; lit "fe80::/10"]
       ++ [Close (cidr_fh (lit "nets"))],
     inr [lit "1.2.3.4"; lit "10.0.0.0/8"; lit "fe80::/10"]).
Proof.
  apply (X7_cidr_file_lines
           (mkEnv (fun _ => inr [lit "# private" ++ NL; lit "  10.0.0.0/8  " ++ NL; NL;
                                 lit "   # more" ++ NL; lit "fe80::/10"])
                  [])
           (mkNamespace [] (Some (lit "nets")) false false false 1 [])
           (lit "nets")
           [lit "# private" ++ NL; lit "  10.0.0.0/8  " ++ NL; NL;
            lit "   # more" ++ NL; lit "fe80::/10"]
           [lit "1.2.3.4"]); reflexivity.
Defined.

(** X8. When [load_cidrs] returns, it returns one network for each
    expression, in order: first the expressions of the [-e] flags, then
    those of the CIDR file, then the positional ones (all the positional
    tokens, or all but the last when the last is no network); each
    network is the one [ip_network] gives for its expression; there is
    at least one; the input file is what the positional tokens leave;
    and nothing was written to either output stream. *)
Theorem X8_expression_order (repr : str -> str) (env : Env) (ns : Namespace)
    (t : list event) (networks : list ipaddress.Network) (infile : option str) :
  load_cidrs repr env ns = (t, inr (networks, infile)) ->
  Forall2 (fun cidr net => ipaddress.ip_network cidr = inr net)
          (expr ns ++ cidr_file_expressions env ns
             ++ fst (resolve_positional (args ns) []))
          networks
  /\ length networks
     = length (expr ns ++ cidr_file_expressions env ns
                 ++ fst (resolve_positional (args ns) []))
  /\ networks <> []
  /\ infile = snd (resolve_positional (args ns) [])
  /\ stdout t = [] /\ stderr t = [].
Proof.
  intro H.
  destruct (resolve env ns) as [t0 [e0|[cs infile0]]] eqn:E.
  - rewrite (load_cidrs_unresolved repr env ns _ _ E) in H. discriminate.
  - rewrite (load_cidrs_resolved repr env ns _ _ _ E) in H.
    destruct (resolve_value env ns _ _ _ E) as [Hcs Hin].
    destruct cs as [|c cs]; [discriminate|].
    destruct (first_invalid (c :: cs)) as [[bad e]|] eqn:Ef; [discriminate|].
    injection H as <- <- <-.
    pose proof (first_invalid_none _ Ef) as HF. rewrite <- Hcs.
    split; [exact HF|]. split; [symmetry; eapply Forall2_length; eauto|].
    split; [|split; [exact Hin|split]].
    + inversion HF; discriminate.
    + pose proof (resolve_silent env ns) as [Hs _]. rewrite E in Hs. exact Hs.
    + eapply resolve_stderr; eauto.
Qed.

Lemma X8_witness :
  Forall2 (fun cidr net => ipaddress.ip_network cidr = inr net)
          ([lit "192.168.0.0/16"] ++ [] ++ [lit "10.0.0.0/8"])
          [net_192_168; net_10_8]
  /\ length [net_192_168; net_10_8]
     = length ([lit "192.168.0.0/16"] ++ [] ++ [lit "10.0.0.0/8"])
  /\ [net_192_168; net_10_8] <> []
  /\ Some (lit "hosts.txt") = Some (lit "hosts.txt")
  /\ stdout [] = [] /\ stderr [] = [].
Proof.
  apply (X8_expression_order quote demo_env
           (mkNamespace [lit "192.168.0.0/16"] None false false false 1
              [lit "10.0.0.0/8"; lit "hosts.txt"])
           [] [net_192_168; net_10_8] (Some (lit "hosts.txt"))).
  vm_compute. reflexivity.
Defined.

(** ** Files that do not open *)

(** X9. A CIDR file that cannot be opened ends the run with status 3
    before anything else is looked at: whatever the [-e] expressions and
    the positional tokens are (valid, invalid or absent), with a field
    number of at least 1 the run calls [open] once, writes the one line
    [Cannot open CIDR file '<path>': <error>] to standard error and
    exits. *)
Theorem X9_cidr_file_unreadable (repr : str -> str) (env : Env) (ns : Namespace)
    (path e : str) :
  1 <= field ns ->
  cidr_file ns = Some path ->
  nonempty path = true ->
  fs_open env path = inl e ->
  main repr env ns
  = ([Open path;
      Stderr ((lit "Cannot open CIDR file '" ++ path ++ lit "': " ++ e) ++ NL)],
     inl (SystemExit 3)).
Proof.
  intros Hf Hc Hp Ho. apply (main_load_fails repr env ns _ _ Hf).
  apply load_cidrs_unresolved. unfold resolve.
  rewrite load_cidr_file_spec, Hc, Hp, Ho. reflexivity.
Qed.

Lemma X9_witness :
  main quote demo_env
    (mkNamespace [lit "not a network"] (Some (lit "nets.txt")) false false false 1 [])
  = ([Open (lit "nets.txt");
      Stderr ((lit "Cannot open CIDR file '" ++ lit "nets.txt" ++ lit "': "
                 ++ lit "[Errno 2] No such file or directory: 'nets.txt'") ++ NL)],
     inl (SystemExit 3)).
Proof.
  apply (X9_cidr_file_unreadable quote demo_env
           (mkNamespace [lit "not a network"] (Some (lit "nets.txt")) false false false 1 [])
           (lit "nets.txt") (lit "[Errno 2] No such file or directory: 'nets.txt'")).
  - cbn. lia.
  - reflexivity.
  - reflexivity.
  - reflexivity.
Defined.

(** What [open_input] returns: standard input when there is no input
    file or its name is the empty string, the opened file otherwise. *)
Lemma open_input_value (env : Env) (infile : option str) t fh lines :
  open_input env infile = (t, inr (fh, lines)) ->
  (t = [] /\ fh = sys_stdin /\ lines = stdin_lines env
   /\ (infile = None \/ infile = Some []))
  \/ (exists path, infile = Some path /\ nonempty path = true
        /\ t = [Open path] /\ fh = input_fh path /\ fs_open env path = inr lines).
Proof.
  unfold open_input. destruct infile as [p|].
  2:{ intro H. injection H as <- <- <-. left. auto. }
  destruct p as [|c p]; cbn [nonempty negb].
  { intro H. injection H as <- <- <-. left. auto. }
  rewrite mbind_emit. destruct (fs_open env (c :: p)) as [e|ls] eqn:E; [discriminate|].
  cbn. intro H. injection H as <- <- <-. right. exists (c :: p). auto.
Qed.

(** X10. An input file that cannot be opened ends the run with status 3
    after the networks are built and before any line is read: when
    [load_cidrs] has returned with the input file [path], a non-empty
    name on which [open] fails, the run adds to what [load_cidrs] did
    one call of [open] and the one line [Cannot open file '<path>':
    <error>] on standard error, and writes nothing to standard
    output. *)
Theorem X10_input_file_unreadable (repr : str -> str) (env : Env) (ns : Namespace)
    (t : list event) (networks : list ipaddress.Network) (path e : str) :
  1 <= field ns ->
  load_cidrs repr env ns = (t, inr (networks, Some path)) ->
  nonempty path = true ->
  fs_open env path = inl e ->
  main repr env ns
  = (t ++ [Open path; Stderr ((lit "Cannot open file '" ++ path ++ lit "': " ++ e) ++ NL)],
     inl (SystemExit 3))
  /\ stdout (fst (main repr env ns)) = []
  /\ input_read (fst (main repr env ns)) = []
  /\ stderr (fst (main repr env ns))
     = [(lit "Cannot open file '" ++ path ++ lit "': " ++ e) ++ NL].
Proof.
  intros Hf Hl Hp Ho.
  assert (Hopen : open_input env (Some path)
                  = ([Open path;
                      Stderr ((lit "Cannot open file '" ++ path ++ lit "': " ++ e) ++ NL)],
                     inl (SystemExit 3))).
  { unfold open_input. rewrite Hp. cbn [negb]. rewrite mbind_emit, Ho. reflexivity. }
  rewrite (main_open_fails repr env ns _ _ _ _ _ Hf Hl Hopen). cbn [fst].
  pose proof (load_cidrs_silent repr env ns) as [H1 H2]. rewrite Hl in H1, H2.
  cbn [fst] in H1, H2.
  destruct (resolve env ns) as [t0 [e0|[cs infile0]]] eqn:E.
  { rewrite (load_cidrs_unresolved repr env ns _ _ E) in Hl. discriminate. }
  assert (H3 : stderr t = []).
  { rewrite (load_cidrs_resolved repr env ns _ _ _ E) in Hl.
    destruct cs as [|c cs]; [discriminate|].
    destruct (first_invalid (c :: cs)) as [[bad e']|]; [discriminate|].
    injection Hl as <- _ _. eapply resolve_stderr; eauto. }
  split; [reflexivity|].
  rewrite stdout_app, input_read_app, stderr_app, H1, H2, H3. repeat split; reflexivity.
Qed.

Lemma X10_witness :
  main quote demo_env
    (mkNamespace [] None false false false 1 [lit "10.0.0.0/8"; lit "missing.txt"])
  = ([] ++ [Open (lit "missing.txt");
            Stderr ((lit "Cannot open file '" ++ lit "missing.txt" ++ lit "': "
                       ++ lit "[Errno 2] No such file or directory: 'missing.txt'") ++ NL)],
     inl (SystemExit 3)).
Proof.
  apply (X10_input_file_unreadable quote demo_env
           (mkNamespace [] None false false false 1 [lit "10.0.0.0/8"; lit "missing.txt"])
           [] [net_10_8] (lit "missing.txt")
           (lit "[Errno 2] No such file or directory: 'missing.txt'")).
  - cbn. lia.
  - vm_compute. reflexivity.
  - reflexivity.
  - reflexivity.
Defined.

(** ** What a run reads and writes *)

Lemma input_read_line_events (ns : Namespace) (networks : list ipaddress.Network)
    (fh : handle) (lines : list str) :
  (forall path, fh <> cidr_fh path) ->
  input_read (flat_map (line_events ns networks fh) lines) = lines.
Proof.
  intro Hfh. induction lines as [|line lines IH]; [reflexivity|].
  cbn [flat_map]. rewrite input_read_app, IH. unfold line_events.
  destruct fh as [|p|p]; [|exfalso; apply (Hfh p); reflexivity|];
    (destruct (selected_field ns line) as [ip_s|];
     [destruct (xorb (ip_matches_any ip_s networks) (invert_match ns));
      [destruct (count ns)|]|]); reflexivity.
Qed.

Lemma stderr_line_events (ns : Namespace) (networks : list ipaddress.Network)
    (fh : handle) (lines : list str) :
  stderr (flat_map (line_events ns networks fh) lines) = [].
Proof.
  induction lines as [|line lines IH]; [reflexivity|].
  cbn [flat_map]. rewrite stderr_app, IH, app_nil_r. unfold line_events.
  destruct (selected_field ns line) as [ip_s|];
    [destruct (xorb (ip_matches_any ip_s networks) (invert_match ns));
     [destruct (count ns)|]|]; reflexivity.
Qed.

Lemma load_cidrs_ok_stderr (repr : str -> str) (env : Env) (ns : Namespace) t r :
  load_cidrs repr env ns = (t, inr r) -> stderr t = [].
Proof.
  intro Hl.
  destruct (resolve env ns) as [t0 [e0|[cs infile0]]] eqn:E.
  { rewrite (load_cidrs_unresolved repr env ns _ _ E) in Hl. discriminate. }
  rewrite (load_cidrs_resolved repr env ns _ _ _ E) in Hl.
  destruct cs as [|c cs]; [discriminate|].
  destruct (first_invalid (c :: cs)) as [[bad e']|]; [discriminate|].
  injection Hl as <- _. eapply resolve_stderr; eauto.
Qed.

(** A run that gets as far as the loop reads every line of its input
    source, and writes nothing to standard error. *)
Lemma main_input_read (repr : str -> str) (env : Env) (ns : Namespace)
    (t1 t2 : list event) (networks : list ipaddress.Network)
    (infile : option str) (fh : handle) (lines : list str) :
  1 <= field ns ->
  load_cidrs repr env ns = (t1, inr (networks, infile)) ->
  open_input env infile = (t2, inr (fh, lines)) ->
  input_read (fst (main repr env ns)) = lines.
Proof.
  intros Hf Hl Ho.
  rewrite (main_run repr env ns _ _ _ _ _ _ Hf Hl Ho). cbn [fst].
  pose proof (load_cidrs_silent repr env ns) as [_ H1]. rewrite Hl in H1.
  pose proof (open_input_silent env infile) as [_ H2]. rewrite Ho in H2.
  cbn [fst] in H1, H2.
  rewrite !input_read_app, H1, H2, input_read_line_events.
  - destruct fh, (count ns); cbn; rewrite ?app_nil_r; reflexivity.
  - destruct (open_input_value env infile _ _ _ Ho)
      as [[_ [-> _]]|[p [_ [_ [_ [-> _]]]]]]; discriminate.
Qed.

Lemma main_run_stderr (repr : str -> str) (env : Env) (ns : Namespace)
    (t1 t2 : list event) (networks : list ipaddress.Network)
    (infile : option str) (fh : handle) (lines : list str) :
  1 <= field ns ->
  load_cidrs repr env ns = (t1, inr (networks, infile)) ->
  open_input env infile = (t2, inr (fh, lines)) ->
  stderr (fst (main repr env ns)) = [].
Proof.
  intros Hf Hl Ho.
  rewrite (main_run repr env ns _ _ _ _ _ _ Hf Hl Ho). cbn [fst].
  rewrite !stderr_app, (load_cidrs_ok_stderr repr env ns _ _ Hl), stderr_line_events.
  destruct (open_input_value env infile _ _ _ Ho)
    as [[-> [-> _]]|[p [_ [_ [-> [-> _]]]]]]; destruct (count ns); reflexivity.
Qed.

(** X11. A run that gets as far as the loop takes every line of its
    input source, once and in order, writes nothing to standard error,
    and, with neither [-c] nor [-o], its standard output is the input
    with the lines that are not selected left out: the selected lines,
    each exactly as it was read, in input order. *)
Theorem X11_output_is_filtered_input (repr : str -> str) (env : Env) (ns : Namespace)
    (t1 t2 : list event) (networks : list ipaddress.Network)
    (infile : option str) (fh : handle) (lines : list str) :
  1 <= field ns ->
  load_cidrs repr env ns = (t1, inr (networks, infile)) ->
  open_input env infile = (t2, inr (fh, lines)) ->
  input_read (fst (main repr env ns)) = lines
  /\ stderr (fst (main repr env ns)) = []
  /\ (count ns = false -> only_matching ns = false ->
      stdout (fst (main repr env ns))
      = filter (fun line => match effective_match ns networks line with
                            | Some true => true
                            | _ => false
                            end)
               (input_read (fst (main repr env ns)))).
Proof.
  intros Hf Hl Ho.
  pose proof (main_input_read repr env ns _ _ _ _ _ _ Hf Hl Ho) as Hread.
  split; [exact Hread|]. split; [eapply main_run_stderr; eauto|].
  intros Hc Ho'. rewrite Hread.
  destruct (main_stdout repr env ns _ _ _ _ _ _ Hf Hl Ho) as [_ ->].
  rewrite Hc. unfold emitted_text. rewrite Ho'. apply map_id.
Qed.

Lemma X11_witness :
  input_read (fst (main quote demo_env (demo_ns false false false 2))) = hosts_txt
  /\ stderr (fst (main quote demo_env (demo_ns false false false 2))) = []
  /\ (false = false -> false = false ->
      stdout (fst (main quote demo_env (demo_ns false false false 2)))
      = filter (fun line => match effective_match (demo_ns false false false 2)
                                    [net_10_8] line with
                            | Some true => true
                            | _ => false
                            end)
               (input_read (fst (main quote demo_env (demo_ns false false false 2))))).
Proof.
  apply (X11_output_is_filtered_input quote demo_env (demo_ns false false false 2)
           [] [Open (lit "hosts.txt")] [net_10_8] (Some (lit "hosts.txt"))
           (input_fh (lit "hosts.txt")) hosts_txt).
  - cbn. lia.
  - vm_compute. reflexivity.
  - vm_compute. reflexivity.
Defined.



(** X13. The number that [-c] prints is the number of lines the same
    run prints without [-c]: for every run that gets as far as the
    loop, standard output with the count flag on is the one line that
    holds the decimal length of standard output with the count flag
    off, and both runs read the same lines. *)
Theorem X13_count_is_number_of_outputs (repr : str -> str) (env : Env) (ns : Namespace)
    (t1 t2 : list event) (networks : list ipaddress.Network)
    (infile : option str) (fh : handle) (lines : list str) :
  1 <= field ns ->
  load_cidrs repr env ns = (t1, inr (networks, infile)) ->
  open_input env infile = (t2, inr (fh, lines)) ->
  stdout (fst (main repr env (with_count true ns)))
  = [str_of_int (Z.of_nat (length (stdout (fst (main repr env (with_count false ns))))))
       ++ NL]
  /\ input_read (fst (main repr env (with_count true ns)))
     = input_read (fst (main repr env (with_count false ns))).
Proof.
  intros Hf Hl Ho.
  assert (Hl' : forall b, load_cidrs repr env (with_count b ns)
                          = (t1, inr (networks, infile))) by (intro b; exact Hl).
  assert (Hf' : forall b, 1 <= field (with_count b ns)) by (intro b; exact Hf).
  destruct (main_stdout repr env _ _ _ _ _ _ _ (Hf' true) (Hl' true) Ho) as [_ ->].
  destruct (main_stdout repr env _ _ _ _ _ _ _ (Hf' false) (Hl' false) Ho) as [_ ->].
  cbn [count with_count]. rewrite length_map. split; [reflexivity|].
  rewrite (main_input_read repr env _ _ _ _ _ _ _ (Hf' true) (Hl' true) Ho).
  rewrite (main_input_read repr env _ _ _ _ _ _ _ (Hf' false) (Hl' false) Ho).
  reflexivity.
Qed.

Lemma X13_witness :
  stdout (fst (main quote demo_env (with_count true (demo_ns true false false 2))))
  = [str_of_int (Z.of_nat (length (stdout (fst (main quote demo_env
                                                  (with_count false
                                                     (demo_ns true false false 2)))))))
       ++ NL]
  /\ input_read (fst (main quote demo_env (with_count true (demo_ns true false false 2))))
     = input_read (fst (main quote demo_env (with_count false (demo_ns true false false 2)))).
Proof.
  apply (X13_count_is_number_of_outputs quote demo_env (demo_ns true false false 2)
           [] [Open (lit "hosts.txt")] [net_10_8] (Some (lit "hosts.txt"))
           (input_fh (lit "hosts.txt")) hosts_txt).
  - cbn. lia.
  - vm_compute. reflexivity.
  - vm_compute. reflexivity.
Defined.

(** ** How a run ends *)




(** ** Files *)

Lemma opened_app (a b : list event) : opened (a ++ b) = opened a ++ opened b.
Proof. apply flat_map_app. Qed.

Lemma closed_app (a b : list event) : closed (a ++ b) = closed a ++ closed b.
Proof. apply flat_map_app. Qed.

Lemma releases_files_app (env : Env) (a b : list event) :
  releases_files env a -> releases_files env b -> releases_files env (a ++ b).
Proof.
  intros [Ha1 Ha2] [Hb1 Hb2]. split.
  - rewrite closed_app, opened_app, filter_app, Ha1, Hb1. reflexivity.
  - intro H. apply in_app_or in H as [H|H]; [exact (Ha2 H)|exact (Hb2 H)].
Qed.

(** Events that touch no file. *)
Lemma releases_files_output (env : Env) (t : list event) :
  Forall (fun e => match e with Open _ | Close _ => False | _ => True end) t ->
  releases_files env t.
Proof.
  induction 1 as [|e t He _ [IH1 IH2]]; [split; [reflexivity|intros []]|].
  split.
  - destruct e; try contradiction; exact IH1.
  - intros [H|H]; [subst e; exact He|exact (IH2 H)].
Qed.

Lemma line_events_touch_no_file (ns : Namespace) (networks : list ipaddress.Network)
    (fh : handle) (lines : list str) :
  closed (flat_map (line_events ns networks fh) lines) = []
  /\ opened (flat_map (line_events ns networks fh) lines) = []
  /\ ~ In (Close sys_stdin) (flat_map (line_events ns networks fh) lines).
Proof.
  assert (H : Forall (fun e => match e with Open _ | Close _ => False | _ => True end)
                (flat_map (line_events ns networks fh) lines)).
  { apply Forall_forall. intros e He.
    apply in_flat_map in He as [line [_ He]]. unfold line_events in He.
    destruct He as [<-|He]; [exact I|].
    destruct (selected_field ns line) as [ip_s|]; [|destruct He].
    destruct (xorb (ip_matches_any ip_s networks) (invert_match ns)); [|destruct He].
    destruct (count ns); [destruct He|]. destruct He as [<-|[]]. exact I. }
  induction H as [|e t He _ [IH1 [IH2 IH3]]]; [repeat split; intros []|].
  repeat split.
  - destruct e; try contradiction; exact IH1.
  - destruct e; try contradiction; exact IH2.
  - intros [H|H]; [subst e; exact He|exact (IH3 H)].
Qed.

Lemma reads_touch_no_file (fh : handle) (lines : list str) :
  closed (map (Read fh) lines) = [] /\ opened (map (Read fh) lines) = []
  /\ ~ In (Close sys_stdin) (map (Read fh) lines).
Proof.
  induction lines as [|l ls [IH1 [IH2 IH3]]]; [repeat split; intros []|].
  repeat split; [exact IH1|exact IH2|].
  intros [H|H]; [discriminate|exact (IH3 H)].
Qed.

Lemma releases_files_load_cidr_file (env : Env) (ns : Namespace) (cidr_strings : list str) :
  releases_files env (fst (load_cidr_file env ns cidr_strings)).
Proof.
  rewrite load_cidr_file_spec.
  destruct (cidr_file ns) as [path|]; [|apply (releases_files_output env []); constructor].
  destruct (nonempty path); [|apply (releases_files_output env []); constructor].
  destruct (fs_open env path) as [e|lines] eqn:E; cbn [fst].
  - split; [|intros [H|[H|[]]]; discriminate].
    cbn. unfold can_open. rewrite E. reflexivity.
  - change (releases_files env ([Open path] ++ map (Read (cidr_fh path)) lines
                                  ++ [Close (cidr_fh path)])).
    destruct (reads_touch_no_file (cidr_fh path) lines) as [H1 [H2 H3]].
    split.
    + rewrite !closed_app, !opened_app, H1, H2. cbn. unfold can_open. rewrite E.
      reflexivity.
    + intro H. apply in_app_or in H as [[H|[]]|H]; [discriminate|].
      apply in_app_or in H as [H|[H|[]]]; [exact (H3 H)|discriminate].
Qed.

Lemma releases_files_load_cidrs (repr : str -> str) (env : Env) (ns : Namespace) :
  releases_files env (fst (load_cidrs repr env ns)).
Proof.
  assert (Hr : releases_files env (fst (resolve env ns))).
  { pose proof (releases_files_load_cidr_file env ns ([] ++ expr ns)) as H.
    unfold resolve, mbind.
    destruct (load_cidr_file env ns ([] ++ expr ns)) as [t [e|cs]]; simpl in *.
    - exact H.
    - rewrite app_nil_r. exact H. }
  destruct (resolve env ns) as [t [e|[cs infile]]] eqn:E; cbn [fst] in Hr.
  - rewrite (load_cidrs_unresolved repr env ns _ _ E). exact Hr.
  - rewrite (load_cidrs_resolved repr env ns _ _ _ E).
    destruct cs as [|c cs]; cbn [fst].
    + apply releases_files_app; [exact Hr|].
      apply releases_files_output. repeat constructor.
    + destruct (first_invalid (c :: cs)) as [[bad e]|]; cbn [fst]; [|exact Hr].
      apply releases_files_app; [exact Hr|].
      apply releases_files_output. repeat constructor.
Qed.

(** X15. Every run of [main], however it ends, closes exactly the files
    it opened: the paths it closes are, in order, the paths on which
    [open] returned a file (the CIDR file, then the input file); a path
    on which [open] failed is not closed, and standard input is never
    closed.  A fatal error after the CIDR file was read leaves no file
    open. *)
Theorem X15_files_are_closed (repr : str -> str) (env : Env) (ns : Namespace) :
  closed (fst (main repr env ns))
  = filter (can_open env) (opened (fst (main repr env ns)))
  /\ ~ In (Close sys_stdin) (fst (main repr env ns)).
Proof.
  change (releases_files env (fst (main repr env ns))).
  destruct (Z.ltb_spec (field ns) 1) as [Hlt|Hge].
  { rewrite (main_bad_field repr env ns Hlt).
    apply releases_files_output. repeat constructor. }
  pose proof (releases_files_load_cidrs repr env ns) as Hl.
  destruct (load_cidrs repr env ns) as [t1 [e|[networks infile]]] eqn:El; cbn [fst] in Hl.
  { rewrite (main_load_fails repr env ns _ _ Hge El). exact Hl. }
  destruct (open_input env infile) as [t2 [e|[fh lines]]] eqn:Eo.
  { rewrite (main_open_fails repr env ns _ _ _ _ _ Hge El Eo). cbn [fst].
    apply releases_files_app; [exact Hl|].
    unfold open_input in Eo. destruct infile as [p|]; [|discriminate].
    destruct (nonempty p); cbn [negb] in Eo; [|discriminate].
    rewrite mbind_emit in Eo. destruct (fs_open env p) as [msg|ls] eqn:Ef; [|discriminate].
    cbn in Eo. injection Eo as <- _. split; [|intros [H|[H|[]]]; discriminate].
    cbn. unfold can_open. rewrite Ef. reflexivity. }
  rewrite (main_run repr env ns _ _ _ _ _ _ Hge El Eo). cbn [fst].
  apply releases_files_app; [exact Hl|].
  assert (Hcount : releases_files env
                     (if count ns
                      then [Stdout (str_of_int
                                      (Z.of_nat (length (selected_lines ns networks lines)))
                                    ++ NL)]
                      else []))
    by (apply releases_files_output; destruct (count ns); repeat constructor).
  pose proof (line_events_touch_no_file ns networks fh lines) as [Hb1 [Hb3 Hb2]].
  destruct (open_input_value env infile _ _ _ Eo)
    as [[-> [-> _]]|[p [_ [_ [-> [-> Ef]]]]]].
  - cbn [close_events app]. apply releases_files_app; [|exact Hcount].
    split; [rewrite Hb1, Hb3; reflexivity|exact Hb2].
  - cbn [close_events]. rewrite (app_assoc _ [Close (input_fh p)]), app_assoc.
    apply releases_files_app; [|exact Hcount]. split.
    + rewrite !closed_app, !opened_app, Hb1, Hb3. cbn. unfold can_open. rewrite Ef.
      reflexivity.
    + intro H. apply in_app_or in H as [H|H].
      * destruct H as [H|[]]. discriminate.
      * apply in_app_or in H as [H|[H|[]]]; [exact (Hb2 H)|discriminate].
Qed.

(** ** Whitespace around a line *)

Lemma py_split_lstrip (s : str) : py_split (lstrip s) = py_split s.
Proof.
  induction s as [|c t IH]; [reflexivity|].
  cbn [lstrip]. destruct (py_isspace c) eqn:E; [|reflexivity].
  rewrite IH. cbn [py_split]. rewrite E. reflexivity.
Qed.

Lemma py_split_blank_prefix (p s : str) :
  blank p -> py_split (p ++ s) = py_split s.
Proof.
  unfold blank. induction p as [|c p IH]; [reflexivity|]. cbn [forallb app py_split].
  intro H. apply andb_true_iff in H as [Hc Hp]. rewrite Hc. exact (IH Hp).
Qed.

Lemma py_split_blank_suffix (s q : str) :
  blank q -> py_split (s ++ q) = py_split s.
Proof.
  intro Hq. assert (Hnil : py_split q = []) by (apply py_split_nil_iff; exact Hq).
  induction s as [|c t IH]; [exact Hnil|].
  cbn [app py_split]. destruct (py_isspace c); [exact IH|].
  destruct t as [|d t'].
  - cbn [app]. destruct q as [|d q']; [reflexivity|].
    unfold blank in Hq. cbn [forallb] in Hq. apply andb_true_iff in Hq as [Hd _].
    rewrite Hd, Hnil. reflexivity.
  - cbn [app] in *. destruct (py_isspace d); rewrite IH; reflexivity.
Qed.

Lemma py_split_strip (s : str) : py_split (strip s) = py_split s.
Proof.
  unfold strip. rewrite <- (py_split_lstrip s).
  destruct (rstrip_prefix (lstrip s)) as [q [E Hq]].
  rewrite E at 2. symmetry. apply py_split_blank_suffix. exact Hq.
Qed.

(** X16. Whitespace around a line takes no part in the decision: the
    fields of a line are those of the stripped line, so the selected
    field and the effective match of a line do not change when
    whitespace (the line's newline included) is put before or after
    it or taken away from it. *)
Theorem X16_surrounding_whitespace (ns : Namespace) (networks : list ipaddress.Network)
    (line : str) :
  py_split (strip line) = py_split line
  /\ effective_match ns networks (strip line) = effective_match ns networks line
  /\ effective_match ns networks (line ++ NL) = effective_match ns networks line
  /\ (forall pre post : str, blank pre -> blank post ->
        selected_field ns (pre ++ line ++ post) = selected_field ns line
        /\ effective_match ns networks (pre ++ line ++ post)
           = effective_match ns networks line).
Proof.
  assert (H : forall pre post : str, blank pre -> blank post ->
                py_split (pre ++ line ++ post) = py_split line).
  { intros pre post Hpre Hpost.
    rewrite (py_split_blank_prefix pre _ Hpre). apply py_split_blank_suffix. exact Hpost. }
  split; [apply py_split_strip|].
  unfold effective_match, selected_field. split; [rewrite py_split_strip; reflexivity|].
  split.
  - rewrite (py_split_blank_suffix line NL); reflexivity.
  - intros pre post Hpre Hpost. rewrite (H pre post Hpre Hpost). split; reflexivity.
Qed.

(** ** The input source *)

(** X17. Where a run reads from is decided by the last positional
    token alone.  When [load_cidrs] has returned: if the last token is
    a non-empty text that [ip_network] refuses, the run opens that path
    (after whatever [load_cidrs] opened) and reads the lines of that
    file; in every other case (no positional token, a last token that
    is a network, or an empty last token) it opens nothing more and
    reads standard input to its end. *)
Theorem X17_input_source (repr : str -> str) (env : Env) (ns : Namespace)
    (t : list event) (networks : list ipaddress.Network) (infile : option str) :
  1 <= field ns ->
  load_cidrs repr env ns = (t, inr (networks, infile)) ->
  if nonempty (last (args ns) [])
     && match ipaddress.ip_network (last (args ns) []) with
        | inl _ => true
        | inr _ => false
        end
  then opened (fst (main repr env ns)) = opened t ++ [last (args ns) []]
       /\ (forall lines, fs_open env (last (args ns) []) = inr lines ->
             input_read (fst (main repr env ns)) = lines)
  else opened (fst (main repr env ns)) = opened t
       /\ input_read (fst (main repr env ns)) = stdin_lines env.
Proof.
  intros Hf Hl.
  assert (Hin : infile = snd (resolve_positional (args ns) [])).
  { destruct (resolve env ns) as [t0 [e0|[cs infile0]]] eqn:E.
    - rewrite (load_cidrs_unresolved repr env ns _ _ E) in Hl. discriminate.
    - rewrite (load_cidrs_resolved repr env ns _ _ _ E) in Hl.
      destruct (resolve_value env ns _ _ _ E) as [_ Hin].
      destruct cs as [|c cs]; [discriminate|].
      destruct (first_invalid (c :: cs)) as [[bad e]|]; [discriminate|].
      injection Hl as _ _ <-. exact Hin. }
  assert (Hopened : forall t2 fh lines,
            open_input env infile = (t2, inr (fh, lines)) ->
            opened (fst (main repr env ns)) = opened t ++ opened t2).
  { intros t2 fh lines Ho. rewrite (main_run repr env ns _ _ _ _ _ _ Hf Hl Ho). cbn [fst].
    rewrite !opened_app.
    destruct (line_events_touch_no_file ns networks fh lines) as [_ [-> _]].
    destruct fh, (count ns); cbn; rewrite ?app_nil_r; reflexivity. }
  assert (Hstdin : open_input env infile = ([], inr (sys_stdin, stdin_lines env)) ->
            opened (fst (main repr env ns)) = opened t
            /\ input_read (fst (main repr env ns)) = stdin_lines env).
  { intro Ho. split.
    - rewrite (Hopened _ _ _ Ho). apply app_nil_r.
    - exact (main_input_read repr env ns _ _ _ _ _ _ Hf Hl Ho). }
  unfold resolve_positional in Hin.
  destruct (args ns) as [|a rest] eqn:Ea.
  { cbn in Hin |- *. subst infile. apply Hstdin. reflexivity. }
  rewrite <- Ea in *. assert (Hne : nonempty (args ns) = true) by (rewrite Ea; reflexivity).
  rewrite Hne in Hin. cbv zeta in Hin.
  destruct (ipaddress.ip_network (last (args ns) [])) as [e|N].
  2:{ rewrite andb_false_r. cbn in Hin. subst infile. apply Hstdin. reflexivity. }
  rewrite andb_true_r. cbn [snd] in Hin. subst infile.
  destruct (last (args ns) []) as [|c p] eqn:El; cbn [nonempty].
  { apply Hstdin. reflexivity. }
  destruct (fs_open env (c :: p)) as [msg|lines] eqn:Eo.
  - assert (Ho : open_input env (Some (c :: p))
                 = ([Open (c :: p);
                     Stderr ((lit "Cannot open file '" ++ (c :: p) ++ lit "': " ++ msg) ++ NL)],
                    inl (SystemExit 3))).
    { unfold open_input. cbn [nonempty negb]. rewrite mbind_emit, Eo. reflexivity. }
    rewrite (main_open_fails repr env ns _ _ _ _ _ Hf Hl Ho). cbn [fst].
    split; [rewrite opened_app; reflexivity|]. intros lines H. discriminate.
  - assert (Ho : open_input env (Some (c :: p))
                 = ([Open (c :: p)], inr (input_fh (c :: p), lines))).
    { unfold open_input. cbn [nonempty negb]. rewrite mbind_emit, Eo. reflexivity. }
    split; [exact (Hopened _ _ _ Ho)|].
    intros lines' H. injection H as <-.
    exact (main_input_read repr env ns _ _ _ _ _ _ Hf Hl Ho).
Qed.

Lemma X17_witness :
  opened (fst (main quote demo_env (demo_ns false false false 2)))
  = opened [] ++ [lit "hosts.txt"]
  /\ (forall lines, fs_open demo_env (lit "hosts.txt") = inr lines ->
        input_read (fst (main quote demo_env (demo_ns false false false 2))) = lines).
Proof.
  apply (X17_input_source quote demo_env (demo_ns false false false 2)
           [] [net_10_8] (Some (lit "hosts.txt"))).
  - cbn. lia.
  - vm_compute. reflexivity.
Defined.

(** ** The decimal text of the count *)

Ltac digit_values :=
  repeat match goal with
         | |- context [digit_value ?c] =>
             let v := eval vm_compute in (digit_value c) in
             change (digit_value c) with v
         end.

Lemma uint_digits_acc (d : Decimal.uint) (acc : positive) :
  fold_left (fun acc c => acc * 10 + digit_value c)
            (lit (DecimalString.NilEmpty.string_of_uint d)) (Z.pos acc)
  = Z.pos (Pos.of_uint_acc d acc).
Proof.
  revert acc. unfold lit.
  induction d; intro acc;
    cbn [DecimalString.NilEmpty.string_of_uint Pos.of_uint_acc
         list_ascii_of_string map fold_left];
    [reflexivity|..]; digit_values; rewrite <- IHd; f_equal; lia.
Qed.

Lemma uint_digits (d : Decimal.uint) :
  digits_value 10 (lit (DecimalString.NilEmpty.string_of_uint d))
  = Z.of_N (Pos.of_uint d).
Proof.
  unfold digits_value, lit.
  induction d;
    cbn [DecimalString.NilEmpty.string_of_uint Pos.of_uint
         list_ascii_of_string map fold_left];
    [reflexivity|exact IHd|..]; digit_values; cbn [Z.mul Z.add Z.of_N];
    apply (uint_digits_acc d).
Qed.

Lemma uint_digits_ascii (d : Decimal.uint) :
  forallb is_ascii_digit (lit (DecimalString.NilEmpty.string_of_uint d)) = true.
Proof.
  unfold lit.
  induction d;
    cbn [DecimalString.NilEmpty.string_of_uint list_ascii_of_string map forallb];
    [reflexivity|..]; rewrite IHd; reflexivity.
Qed.

(** [str(n)] of a number that is not negative is its decimal numeral. *)
Lemma str_of_int_decimal (n : Z) :
  0 <= n ->
  isascii_isdigit (str_of_int n) = true /\ digits_value 10 (str_of_int n) = n.
Proof.
  intro Hn. unfold str_of_int. destruct n as [|p|p]; [split; reflexivity| |lia].
  cbn [Z.to_int DecimalString.NilZero.string_of_int].
  pose proof (DecimalPos.Unsigned.of_to p) as Hp.
  unfold DecimalString.NilZero.string_of_uint.
  destruct (Pos.to_uint p) as [|d|d|d|d|d|d|d|d|d|d] eqn:E;
    [discriminate Hp|..];
    (split;
     [unfold isascii_isdigit; rewrite uint_digits_ascii; reflexivity
     |rewrite uint_digits, Hp; reflexivity]).
Qed.

(** X18. The line that count mode prints is the decimal numeral of the
    number of selected lines: for every run that gets as far as the
    loop with [-c], standard output is one text made of ASCII digits
    (at least one) and a newline, the digits read in base ten give the
    number of selected lines, and that number is at most the number of
    input lines. *)
Theorem X18_count_line_is_decimal (repr : str -> str) (env : Env) (ns : Namespace)
    (t1 t2 : list event) (networks : list ipaddress.Network)
    (infile : option str) (fh : handle) (lines : list str) :
  count ns = true ->
  1 <= field ns ->
  load_cidrs repr env ns = (t1, inr (networks, infile)) ->
  open_input env infile = (t2, inr (fh, lines)) ->
  exists digits : str,
    stdout (fst (main repr env ns)) = [digits ++ NL]
    /\ isascii_isdigit digits = true
    /\ digits_value 10 digits = Z.of_nat (length (selected_lines ns networks lines))
    /\ (length (selected_lines ns networks lines) <= length lines)%nat.
Proof.
  intros Hc Hf Hl Ho.
  exists (str_of_int (Z.of_nat (length (selected_lines ns networks lines)))).
  destruct (main_stdout repr env ns _ _ _ _ _ _ Hf Hl Ho) as [_ ->]. rewrite Hc.
  destruct (str_of_int_decimal (Z.of_nat (length (selected_lines ns networks lines))))
    as [H1 H2]; [lia|].
  repeat split; [exact H1|exact H2|apply filter_length_le].
Qed.

Lemma X18_witness :
  exists digits : str,
    stdout (fst (main quote demo_env (demo_ns false true false 2))) = [digits ++ NL]
    /\ isascii_isdigit digits = true
    /\ digits_value 10 digits
       = Z.of_nat (length (selected_lines (demo_ns false true false 2) [net_10_8] hosts_txt))
    /\ (length (selected_lines (demo_ns false true false 2) [net_10_8] hosts_txt)
        <= length hosts_txt)%nat.
Proof.
  apply (X18_count_line_is_decimal quote demo_env (demo_ns false true false 2)
           [] [Open (lit "hosts.txt")] [net_10_8] (Some (lit "hosts.txt"))
           (input_fh (lit "hosts.txt")) hosts_txt).
  - reflexivity.
  - cbn. lia.
  - vm_compute. reflexivity.
  - vm_compute. reflexivity.
Defined.

(** ** Fields that are no address *)

Module ipaddress_texts.
Import ipaddress ipaddress_facts.

Lemma IPv6_text_colon (addr : str) (a : Address) :
  IPv6Address (inr addr) = inr a -> contains COLON addr = true.
Proof.
  unfold IPv6Address, bind, _split_scope_id.
  destruct (contains SLASH addr); [discriminate|].
  destruct (partition_on PERCENT addr) as [[a0 sep] sc] eqn:Ep.
  intro H.
  assert (exists v, V6_ip_int_from_string a0 = inr v) as [v Hv].
  { destruct sep; simpl in H.
    - destruct (negb (nonempty sc) || contains PERCENT sc); [discriminate|].
      destruct (V6_ip_int_from_string a0); [discriminate|eauto].
    - destruct (V6_ip_int_from_string a0); [discriminate|eauto]. }
  apply (partition_on_before PERCENT). rewrite Ep. simpl.
  eapply V6_string_colon; eauto.
Qed.

Lemma IPv4_text_chars (addr : str) (a : Address) :
  IPv4Address (inr addr) = inr a ->
  forallb (fun c => is_ascii_digit c || N.eqb c DOT) addr = true.
Proof.
  unfold IPv4Address, bind. destruct (contains SLASH addr); [discriminate|].
  destruct (V4_ip_int_from_string addr) as [e|v] eqn:E; [discriminate|].
  intros _. eapply V4_string_chars; eauto.
Qed.

End ipaddress_texts.

(** X19. A field matches only when it is the text of an address and
    nothing else.  A field that holds a slash (an address with a prefix
    length, say), or that holds no colon and some character other than
    a digit or a dot (a host name, an address followed by a comma or
    put in brackets), is refused by [ip_address], so [ip_matches_any]
    is false on it for every list of networks, and the line is selected
    exactly when the invert flag is on. *)
Theorem X19_field_must_be_an_address (ns : Namespace) (networks : list ipaddress.Network)
    (line ip_s : str) :
  contains SLASH ip_s = true
  \/ (contains COLON ip_s = false
      /\ forallb (fun c => is_ascii_digit c || N.eqb c DOT) ip_s = false) ->
  ipaddress.ip_address ip_s = inl (ipaddress.not_an_address ip_s)
  /\ ip_matches_any ip_s networks = false
  /\ (selected_field ns line = Some ip_s ->
      effective_match ns networks line = Some (invert_match ns)).
Proof.
  intro H.
  assert (Ha : ipaddress.ip_address ip_s = inl (ipaddress.not_an_address ip_s)).
  { unfold ipaddress.ip_address.
    destruct (ipaddress.IPv4Address (inr ip_s)) as [e4|a4] eqn:E4.
    - destruct (ipaddress.IPv6Address (inr ip_s)) as [e6|a6] eqn:E6; [reflexivity|].
      exfalso. destruct H as [H|[H _]].
      + rewrite (ipaddress_facts.address_no_slash ipaddress.V6 _ _ E6) in H. discriminate.
      + rewrite (ipaddress_texts.IPv6_text_colon _ _ E6) in H. discriminate.
    - exfalso. destruct H as [H|[_ H]].
      + rewrite (ipaddress_facts.address_no_slash ipaddress.V4 _ _ E4) in H. discriminate.
      + rewrite (ipaddress_texts.IPv4_text_chars _ _ E4) in H. discriminate. }
  assert (Hm : ip_matches_any ip_s networks = false)
    by (unfold ip_matches_any; rewrite Ha; reflexivity).
  split; [exact Ha|]. split; [exact Hm|].
  intro Hs. unfold effective_match. rewrite Hs. cbn [option_map]. rewrite Hm.
  destruct (invert_match ns); reflexivity.
Qed.

Lemma X19_witness :
  ipaddress.ip_address (lit "10.1.2.3,")
  = inl (ipaddress.not_an_address (lit "10.1.2.3,"))
  /\ ip_matches_any (lit "10.1.2.3,") [net_10_8] = false
  /\ (selected_field (demo_ns true false false 2) (lit "host1 10.1.2.3, up")
      = Some (lit "10.1.2.3,") ->
      effective_match (demo_ns true false false 2) [net_10_8] (lit "host1 10.1.2.3, up")
      = Some true).
Proof.
  apply (X19_field_must_be_an_address (demo_ns true false false 2) [net_10_8]
           (lit "host1 10.1.2.3, up") (lit "10.1.2.3,")).
  right. split; reflexivity.
Defined.

(** ** The text of an IPv4 address *)

Module ipaddress_dotted.
Import ipaddress ipaddress_facts.

Lemma octet_texts :
  forallb (fun n => match _parse_octet (str_of_int (Z.of_nat n)) with
                    | Some v => (v =? Z.of_nat n)
                                && negb (contains DOT (str_of_int (Z.of_nat n)))
                                && negb (contains SLASH (str_of_int (Z.of_nat n)))
                    | None => false
                    end) (seq 0 256) = true.
Proof. vm_compute. reflexivity. Qed.

Lemma parse_octet_text (o : Z) :
  0 <= o <= 255 ->
  _parse_octet (str_of_int o) = Some o
  /\ contains DOT (str_of_int o) = false
  /\ contains SLASH (str_of_int o) = false.
Proof.
  intro Ho. pose proof octet_texts as H. rewrite forallb_forall in H.
  specialize (H (Z.to_nat o)). rewrite Z2Nat.id in H by lia.
  assert (Hin : In (Z.to_nat o) (seq 0 256)) by (apply in_seq; lia).
  specialize (H Hin).
  destruct (_parse_octet (str_of_int o)) as [v|]; [|discriminate].
  apply andb_true_iff in H as [H H3]. apply andb_true_iff in H as [H1 H2].
  apply Z.eqb_eq in H1. subst v.
  destruct (contains DOT (str_of_int o)); [discriminate|].
  destruct (contains SLASH (str_of_int o)); [discriminate|]. auto.
Qed.

Lemma contains_app (c : char) (a b : str) :
  contains c (a ++ b) = contains c a || contains c b.
Proof. apply existsb_app. Qed.

End ipaddress_dotted.

(** X20. Four decimal numbers between 0 and 255, written without
    leading zeros and joined by dots, are the text of the IPv4 address
    whose integer is [((a * 256 + b) * 256 + c) * 256 + d]:
    [ip_address] accepts that text and returns that address, so
    [ip_matches_any] puts it in a network exactly when that integer,
    masked, is the base address of the network. *)
Theorem X20_dotted_quad (a b c d : Z) (N : ipaddress.Network) (s : str) :
  0 <= a <= 255 -> 0 <= b <= 255 -> 0 <= c <= 255 -> 0 <= d <= 255 ->
  ipaddress.ip_network s = inr N ->
  let text := str_of_int a ++ DOT :: str_of_int b ++ DOT :: str_of_int c
                ++ DOT :: str_of_int d in
  let value := ((a * 256 + b) * 256 + c) * 256 + d in
  ipaddress.ip_address text = inr (ipaddress.mkAddress ipaddress.V4 value None)
  /\ (ip_matches_any text [N] = true <->
      ipaddress.n_cls N = ipaddress.V4
      /\ Z.land value (ipaddress._ip_int_from_prefix ipaddress.V4 (ipaddress._prefixlen N))
         = ipaddress._ip (ipaddress.network_address N)).
Proof.
  intros Ha Hb Hc Hd HN. cbv zeta.
  destruct (ipaddress_dotted.parse_octet_text a Ha) as [Pa [Da Sa]].
  destruct (ipaddress_dotted.parse_octet_text b Hb) as [Pb [Db Sb]].
  destruct (ipaddress_dotted.parse_octet_text c Hc) as [Pc [Dc Sc]].
  destruct (ipaddress_dotted.parse_octet_text d Hd) as [Pd [Dd Sd]].
  assert (HA : ipaddress.ip_address
                 (str_of_int a ++ DOT :: str_of_int b ++ DOT :: str_of_int c
                    ++ DOT :: str_of_int d)
               = inr (ipaddress.mkAddress ipaddress.V4
                        (((a * 256 + b) * 256 + c) * 256 + d) None)).
  { unfold ipaddress.ip_address, ipaddress.IPv4Address.
    assert (Hs : contains SLASH
                   (str_of_int a ++ DOT :: str_of_int b ++ DOT :: str_of_int c
                      ++ DOT :: str_of_int d) = false).
    { rewrite ipaddress_dotted.contains_app, Sa. cbn [orb contains existsb].
      change (existsb (N.eqb SLASH) ?x) with (contains SLASH x).
      rewrite ipaddress_dotted.contains_app, Sb. cbn [orb contains existsb].
      change (existsb (N.eqb SLASH) ?x) with (contains SLASH x).
      rewrite ipaddress_dotted.contains_app, Sc. cbn [orb contains existsb].
      change (existsb (N.eqb SLASH) ?x) with (contains SLASH x).
      rewrite Sd. reflexivity. }
    rewrite Hs. unfold ipaddress.V4_ip_int_from_string.
    assert (Hne : nonempty (str_of_int a ++ DOT :: str_of_int b ++ DOT :: str_of_int c
                              ++ DOT :: str_of_int d) = true)
      by (destruct (str_of_int a); reflexivity).
    rewrite Hne. cbn [negb].
    rewrite (ipaddress_facts.split_on_app DOT _ _ Da),
            (ipaddress_facts.split_on_app DOT _ _ Db),
            (ipaddress_facts.split_on_app DOT _ _ Dc),
            (ipaddress_facts.split_on_no_sep DOT _ Dd).
    cbn [length Nat.eqb negb ipaddress.map_opt]. rewrite Pa, Pb, Pc, Pd.
    cbn [option_map ipaddress.bind]. unfold ipaddress.from_bytes_big. cbn [fold_left].
    reflexivity. }
  split; [exact HA|].
  rewrite (ip_matches_one _ _ N HA (ipaddress_facts.ip_network_wf _ _ HN)).
  cbn [ipaddress.a_cls ipaddress._ip].
  split; intros [H1 H2]; (split; [exact H1|]); rewrite H1 in *; exact H2.
Qed.

Lemma X20_witness :
  ipaddress.ip_address (lit "10.1.2.3")
  = inr (ipaddress.mkAddress ipaddress.V4 167838211 None)
  /\ (ip_matches_any (lit "10.1.2.3") [net_10_8] = true <->
      ipaddress.V4 = ipaddress.V4
      /\ Z.land 167838211 (ipaddress._ip_int_from_prefix ipaddress.V4 8) = 167772160).
Proof.
  apply (X20_dotted_quad 10 1 2 3 net_10_8 (lit "10.0.0.0/8")); try lia.
  vm_compute. reflexivity.
Defined.

(** ** Netmasks *)

Module ipaddress_netmasks.
Import ipaddress ipaddress_facts.

Lemma netmask_value (cls : family) (p : Z) :
  0 <= p <= _max_prefixlen cls ->
  _ip_int_from_prefix cls p = 2 ^ _max_prefixlen cls - 2 ^ (_max_prefixlen cls - p).
Proof.
  intro Hp. pose proof (max_prefixlen_pos cls) as Hm.
  pose proof (netmask_range cls p Hp) as Hr.
  assert (Ha : 0 <= _ALL_ONES cls <= _ALL_ONES cls).
  { rewrite ALL_ONES_ones, Z.ones_equiv.
    pose proof (Z.pow_pos_nonneg 2 (_max_prefixlen cls)). lia. }
  pose proof (mask_clears_low cls p (_ALL_ONES cls) Hp Ha) as H.
  rewrite Z.land_comm, (ipaddress_networks.land_all_ones cls _ Hr) in H.
  rewrite H, ALL_ONES_ones, Z.ones_equiv.
  set (k := _max_prefixlen cls - p).
  assert (Hk : 0 <= k <= _max_prefixlen cls) by (unfold k; lia).
  assert (Hmod : Z.pred (2 ^ _max_prefixlen cls) mod 2 ^ k = 2 ^ k - 1).
  { replace (_max_prefixlen cls) with (k + (_max_prefixlen cls - k)) by lia.
    rewrite Z.pow_add_r by lia.
    assert (0 < 2 ^ k) by (apply Z.pow_pos_nonneg; lia).
    assert (0 < 2 ^ (_max_prefixlen cls - k)) by (apply Z.pow_pos_nonneg; lia).
    replace (Z.pred (2 ^ k * 2 ^ (_max_prefixlen cls - k)))
      with ((2 ^ k - 1) + (2 ^ (_max_prefixlen cls - k) - 1) * 2 ^ k) by lia.
    rewrite Z.mod_add by lia. apply Z.mod_small. lia. }
  rewrite Hmod. lia.
Qed.

Lemma bit_length_ones (k : Z) : 0 <= k -> bit_length (Z.ones k) = k.
Proof.
  intro Hk. unfold bit_length. rewrite Z.ones_equiv.
  assert (0 < 2 ^ k) by (apply Z.pow_pos_nonneg; lia).
  rewrite Z.abs_eq by lia.
  destruct (Z.eqb_spec (Z.pred (2 ^ k)) 0) as [E|E].
  - destruct (Z.eq_dec k 0) as [->|Hk0]; [reflexivity|].
    assert (2 ^ 1 <= 2 ^ k) by (apply Z.pow_le_mono_r; lia). change (2 ^ 1) with 2 in *. lia.
  - assert (Hk1 : 1 <= k).
    { destruct (Z.eq_dec k 0) as [->|]; [exfalso; apply E; reflexivity|lia]. }
    rewrite (Z.log2_unique (Z.pred (2 ^ k)) (k - 1)); [lia|lia|].
    replace (k - 1 + 1) with k by lia.
    replace k with (Z.succ (k - 1)) at 2 3 by lia. rewrite Z.pow_succ_r by lia. lia.
Qed.

(** The trailing zero bits of a netmask are its host bits. *)
Lemma count_righthand_netmask (cls : family) (p : Z) :
  0 <= p <= _max_prefixlen cls ->
  _count_righthand_zero_bits (_ip_int_from_prefix cls p) (_max_prefixlen cls)
  = _max_prefixlen cls - p.
Proof.
  intro Hp. pose proof (max_prefixlen_pos cls) as Hm.
  unfold _count_righthand_zero_bits.
  set (k := _max_prefixlen cls - p).
  assert (Hk : 0 <= k <= _max_prefixlen cls) by (unfold k; lia).
  destruct (Z.eqb_spec (_ip_int_from_prefix cls p) 0) as [E|E].
  - rewrite netmask_value in E by lia. fold k in E.
    destruct (Z.eq_dec k (_max_prefixlen cls)) as [->|Hne]; [reflexivity|].
    assert (2 ^ k < 2 ^ _max_prefixlen cls) by (apply Z.pow_lt_mono_r; lia). lia.
  - assert (Hp1 : 1 <= p).
    { destruct (Z.eq_dec p 0) as [->|]; [|lia].
      exfalso. apply E. apply ipaddress_networks.prefix_zero_mask. }
    assert (Hones : Z.land (Z.lnot (_ip_int_from_prefix cls p))
                      (_ip_int_from_prefix cls p - 1) = Z.ones k).
    { assert (Hsub : _ip_int_from_prefix cls p - 1
                     = Z.ldiff (_ALL_ONES cls) (2 ^ k)).
      { rewrite <- Z.sub_nocarry_ldiff.
        - rewrite netmask_value, ALL_ONES_ones, Z.ones_equiv by lia. fold k. lia.
        - apply Z.bits_inj'. intros i Hi.
          rewrite Z.ldiff_spec, Z.bits_0, Z.pow2_bits_eqb, ALL_ONES_ones by lia.
          destruct (Z.eqb_spec k i) as [<-|]; [|reflexivity].
          rewrite Z.ones_spec_low by lia. reflexivity. }
      rewrite Hsub. apply Z.bits_inj'. intros i Hi.
      rewrite Z.land_spec, Z.lnot_spec, Z.ldiff_spec, netmask_testbit,
        Z.pow2_bits_eqb, ALL_ONES_ones by lia.
      fold k.
      destruct (Z.ltb_spec i k) as [Hlt|Hge].
      - rewrite !Z.ones_spec_low by lia.
        destruct (Z.leb_spec k i); [lia|].
        destruct (Z.eqb_spec k i); [lia|]. reflexivity.
      - rewrite (Z.ones_spec_high k i) by lia.
        destruct (Z.leb_spec k i); [|lia].
        destruct (Z.ltb_spec i (_max_prefixlen cls)) as [Hlt|Hge'].
        + reflexivity.
        + rewrite Z.ones_spec_high by lia. reflexivity. }
    rewrite Hones, bit_length_ones by lia. lia.
Qed.

(** Reading a netmask back gives its prefix length. *)
Lemma prefix_from_netmask (cls : family) (p : Z) :
  0 <= p <= _max_prefixlen cls ->
  _prefix_from_ip_int cls (_ip_int_from_prefix cls p) = Some p.
Proof.
  intro Hp. pose proof (max_prefixlen_pos cls) as Hm.
  unfold _prefix_from_ip_int. cbv zeta. rewrite count_righthand_netmask by lia.
  replace (_max_prefixlen cls - (_max_prefixlen cls - p)) with p by lia.
  rewrite netmask_value, Z.shiftr_div_pow2, Z.shiftl_1_l by lia.
  set (k := _max_prefixlen cls - p).
  assert (Hdiv : (2 ^ _max_prefixlen cls - 2 ^ k) / 2 ^ k = 2 ^ p - 1).
  { replace (_max_prefixlen cls) with (p + k) by (unfold k; lia).
    rewrite Z.pow_add_r by (unfold k; lia).
    assert (0 < 2 ^ k) by (apply Z.pow_pos_nonneg; unfold k; lia).
    replace (2 ^ p * 2 ^ k - 2 ^ k) with ((2 ^ p - 1) * 2 ^ k) by lia.
    apply Z.div_mul. lia. }
  rewrite Hdiv, Z.eqb_refl. reflexivity.
Qed.

End ipaddress_netmasks.

Module ipaddress_dotted_masks.
Import ipaddress ipaddress_facts.

Lemma prefix_texts :
  forallb (fun n => match _prefix_from_prefix_string V4 (str_of_int (Z.of_nat n)) with
                    | inr q => q =? Z.of_nat n
                    | inl _ => false
                    end) (seq 0 33) = true.
Proof. vm_compute. reflexivity. Qed.

Lemma prefix_from_prefix_text (p : Z) :
  0 <= p <= 32 -> _prefix_from_prefix_string V4 (str_of_int p) = inr p.
Proof.
  intro Hp. pose proof prefix_texts as H. rewrite forallb_forall in H.
  specialize (H (Z.to_nat p)). rewrite Z2Nat.id in H by lia.
  assert (Hin : In (Z.to_nat p) (seq 0 33)) by (apply in_seq; lia).
  specialize (H Hin).
  destruct (_prefix_from_prefix_string V4 (str_of_int p)) as [e|q]; [discriminate|].
  apply Z.eqb_eq in H. subst q. reflexivity.
Qed.

Lemma V4_text_not_digits (m : str) (v : Z) :
  V4_ip_int_from_string m = inr v -> isascii_isdigit m = false.
Proof.
  intro H. unfold isascii_isdigit.
  destruct (forallb is_ascii_digit m) eqn:E; [|apply andb_false_r].
  exfalso. pose proof (forallb_not_contains _ _ DOT E eq_refl) as Hd.
  unfold V4_ip_int_from_string in H. rewrite (split_on_no_sep DOT m Hd) in H.
  destruct (nonempty m); discriminate.
Qed.

Lemma make_netmask_of_prefix (p : Z) :
  0 <= p <= 32 ->
  _address_class V4 (inl (_ip_int_from_prefix V4 p))
  = inr (mkAddress V4 (_ip_int_from_prefix V4 p) None).
Proof. intro Hp. apply address_of_int_ok. apply netmask_range. exact Hp. Qed.

Lemma make_netmask_dotted (m : str) (p : Z) :
  0 <= p <= 32 ->
  V4_ip_int_from_string m = inr (_ip_int_from_prefix V4 p) ->
  _make_netmask V4 (inr m) = inr (mkAddress V4 (_ip_int_from_prefix V4 p) None, p).
Proof.
  intros Hp Hm. unfold _make_netmask, _prefix_from_prefix_string.
  rewrite (V4_text_not_digits m _ Hm). cbn [negb].
  unfold _prefix_from_ip_string. cbn [_ip_int_from_string]. rewrite Hm.
  rewrite (ipaddress_netmasks.prefix_from_netmask V4 p Hp). cbn [bind].
  rewrite (make_netmask_of_prefix p Hp). reflexivity.
Qed.

Lemma make_netmask_prefix_text (p : Z) :
  0 <= p <= 32 ->
  _make_netmask V4 (inr (str_of_int p))
  = inr (mkAddress V4 (_ip_int_from_prefix V4 p) None, p).
Proof.
  intro Hp. unfold _make_netmask. rewrite (prefix_from_prefix_text p Hp). cbn [bind].
  rewrite (make_netmask_of_prefix p Hp). reflexivity.
Qed.

End ipaddress_dotted_masks.

(** X21. An IPv4 expression may give its mask as a dotted netmask: when
    [m] is the dotted text of the netmask of prefix length [p], the
    expression [addr/m] is the network of [addr/p], the address masked
    to [p] bits; and in both families reading a netmask back gives the
    prefix length it was made from. *)
Theorem X21_dotted_netmask (addr m : str) (a : ipaddress.Address) (p : Z) :
  ipaddress.IPv4Address (inr addr) = inr a ->
  0 <= p <= 32 ->
  ipaddress.V4_ip_int_from_string m = inr (ipaddress._ip_int_from_prefix ipaddress.V4 p) ->
  ipaddress.ip_network (addr ++ SLASH :: m)
  = inr (ipaddress.mkNetwork ipaddress.V4
           (ipaddress.mkAddress ipaddress.V4
              (Z.land (ipaddress._ip a) (ipaddress._ip_int_from_prefix ipaddress.V4 p)) None)
           (ipaddress.mkAddress ipaddress.V4
              (ipaddress._ip_int_from_prefix ipaddress.V4 p) None) p)
  /\ ipaddress.ip_network (addr ++ SLASH :: m)
     = ipaddress.ip_network (addr ++ SLASH :: str_of_int p)
  /\ (forall (cls : ipaddress.family) (q : Z),
        0 <= q <= ipaddress._max_prefixlen cls ->
        ipaddress._prefix_from_ip_int cls (ipaddress._ip_int_from_prefix cls q) = Some q).
Proof.
  intros Ha Hp Hm.
  pose proof (ipaddress_dotted_masks.make_netmask_dotted m p Hp Hm) as H1.
  pose proof (ipaddress_dotted_masks.make_netmask_prefix_text p Hp) as H2.
  pose proof (ipaddress_facts.ip_network_masks ipaddress.V4 addr _ a _ _ Ha H1) as N1.
  pose proof (ipaddress_facts.ip_network_masks ipaddress.V4 addr _ a _ _ Ha H2) as N2.
  split; [|split; [rewrite N1, N2; reflexivity
                  |exact ipaddress_netmasks.prefix_from_netmask]].
  rewrite N1. cbn [ipaddress._ip]. do 2 f_equal.
  destruct (Z.eqb_spec (Z.land (ipaddress._ip a)
                          (ipaddress._ip_int_from_prefix ipaddress.V4 p))
              (ipaddress._ip a)) as [E|E]; [|reflexivity].
  rewrite E. unfold ipaddress.IPv4Address in Ha.
  destruct (contains SLASH addr); [discriminate|].
  destruct (ipaddress.V4_ip_int_from_string addr); [discriminate|].
  cbn in Ha. injection Ha as <-. reflexivity.
Qed.

Lemma X21_witness :
  ipaddress.ip_network (lit "192.168.1.7" ++ SLASH :: lit "255.255.0.0")
  = inr net_192_168
  /\ ipaddress.ip_network (lit "192.168.1.7" ++ SLASH :: lit "255.255.0.0")
     = ipaddress.ip_network (lit "192.168.1.7" ++ SLASH :: str_of_int 16)
  /\ (forall (cls : ipaddress.family) (q : Z),
        0 <= q <= ipaddress._max_prefixlen cls ->
        ipaddress._prefix_from_ip_int cls (ipaddress._ip_int_from_prefix cls q) = Some q).
Proof.
  apply (X21_dotted_netmask (lit "192.168.1.7") (lit "255.255.0.0")
           (ipaddress.mkAddress ipaddress.V4 3232235783 None) 16).
  - vm_compute. reflexivity.
  - lia.
  - vm_compute. reflexivity.
Defined.

(** ** The fields of a line *)

(** A word followed by whitespace, or by nothing, is the first field. *)
Lemma py_split_word (w rest : str) :
  w <> [] -> no_space w = true ->
  (rest = [] \/ exists d r, rest = d :: r /\ py_isspace d = true) ->
  py_split (w ++ rest) = w :: py_split rest.
Proof.
  intros Hw Hns Hrest. induction w as [|c w IH]; [contradiction Hw; reflexivity|].
  unfold no_space in *. cbn [forallb] in Hns. apply andb_true_iff in Hns as [Hc Hns].
  apply negb_true_iff in Hc. cbn [app py_split]. rewrite Hc.
  destruct w as [|c' w'].
  - cbn [app]. destruct Hrest as [->|[d [r [-> Hd]]]]; [reflexivity|].
    rewrite Hd. reflexivity.
  - cbn [app] in *. pose proof Hns as Hns'. cbn [forallb] in Hns'.
    apply andb_true_iff in Hns' as [Hc' _]. apply negb_true_iff in Hc'.
    rewrite Hc'. rewrite IH; [reflexivity|discriminate|exact Hns].
Qed.

Lemma blank_head (s : str) :
  blank s -> s = [] \/ exists d r, s = d :: r /\ py_isspace d = true.
Proof.
  unfold blank. destruct s as [|d r]; [left; reflexivity|].
  cbn [forallb]. intro H. apply andb_true_iff in H as [Hd _].
  right. exists d, r. split; [reflexivity|exact Hd].
Qed.

Lemma py_split_words (pairs : list (str * str)) (tail : str) :
  Forall (fun p => blank (fst p) /\ fst p <> []
                   /\ snd p <> [] /\ no_space (snd p) = true) pairs ->
  blank tail ->
  py_split (concat (map (fun p => fst p ++ snd p) pairs) ++ tail) = map snd pairs
  /\ (concat (map (fun p => fst p ++ snd p) pairs) ++ tail = []
      \/ exists d r, concat (map (fun p => fst p ++ snd p) pairs) ++ tail = d :: r
                     /\ py_isspace d = true).
Proof.
  intros HF Htail. induction HF as [|[sep w] pairs [Hs [Hsne [Hw Hns]]] _ [IH1 IH2]].
  - cbn [map concat app]. split; [apply py_split_nil_iff; exact Htail|].
    apply blank_head. exact Htail.
  - cbn [map concat fst snd] in *. rewrite <- !app_assoc. split.
    + rewrite (py_split_blank_prefix sep _ Hs), (py_split_word w _ Hw Hns IH2), IH1.
      reflexivity.
    + right. destruct sep as [|d r]; [contradiction Hsne; reflexivity|].
      exists d, (r ++ w ++ concat (map (fun p => fst p ++ snd p) pairs) ++ tail).
      split; [reflexivity|].
      unfold blank in Hs. cbn [forallb] in Hs. apply andb_true_iff in Hs as [Hd _].
      exact Hd.
Qed.

(** X22. The fields of a line are its words: for a line made of a
    first word, then further words each after a non-empty run of
    whitespace, with any whitespace before the first word and after the
    last (every word non-empty and free of whitespace), [line.split()]
    is the list of those words in order, so with field number [k] the
    text handed to [ip_matches_any] is the [k]-th word, and there is
    none when the line has fewer than [k] words. *)
Theorem X22_fields_are_words (ns : Namespace) (pre first : str)
    (pairs : list (str * str)) (tail : str) :
  blank pre -> first <> [] -> no_space first = true ->
  Forall (fun p => blank (fst p) /\ fst p <> []
                   /\ snd p <> [] /\ no_space (snd p) = true) pairs ->
  blank tail ->
  1 <= field ns ->
  let line := pre ++ first ++ concat (map (fun p => fst p ++ snd p) pairs) ++ tail in
  py_split line = first :: map snd pairs
  /\ selected_field ns line
     = nth_error (first :: map snd pairs) (Z.to_nat (field ns - 1))
  /\ (Z.of_nat (length (first :: map snd pairs)) < field ns ->
      selected_field ns line = None).
Proof.
  intros Hpre Hf Hns HF Htail Hfield. cbv zeta.
  destruct (py_split_words pairs tail HF Htail) as [H1 H2].
  assert (Hsplit : py_split (pre ++ first
                               ++ concat (map (fun p => fst p ++ snd p) pairs) ++ tail)
                   = first :: map snd pairs).
  { rewrite (py_split_blank_prefix pre _ Hpre), (py_split_word first _ Hf Hns H2), H1.
    reflexivity. }
  split; [exact Hsplit|]. unfold selected_field. rewrite Hsplit.
  split; [reflexivity|]. intro Hlen. apply nth_error_None. lia.
Qed.

Lemma X22_witness :
  py_split ([] ++ lit "host1" ++ concat (map (fun p => fst p ++ snd p)
                                           [(lit "  ", lit "10.1.2.3"); (lit " ", lit "up")])
              ++ NL)
  = lit "host1" :: map snd [(lit "  ", lit "10.1.2.3"); (lit " ", lit "up")]
  /\ selected_field (demo_ns false false false 2)
       ([] ++ lit "host1" ++ concat (map (fun p => fst p ++ snd p)
                                       [(lit "  ", lit "10.1.2.3"); (lit " ", lit "up")])
          ++ NL)
     = Some (lit "10.1.2.3")
  /\ (Z.of_nat (length (lit "host1"
                          :: map snd [(lit "  ", lit "10.1.2.3"); (lit " ", lit "up")])) < 2 ->
      selected_field (demo_ns false false false 2)
        ([] ++ lit "host1" ++ concat (map (fun p => fst p ++ snd p)
                                        [(lit "  ", lit "10.1.2.3"); (lit " ", lit "up")])
           ++ NL)
      = None).
Proof.
  apply (X22_fields_are_words (demo_ns false false false 2) [] (lit "host1")
           [(lit "  ", lit "10.1.2.3"); (lit " ", lit "up")] NL).
  - reflexivity.
  - discriminate.
  - reflexivity.
  - repeat constructor; try discriminate.
  - reflexivity.
  - cbn. lia.
Defined.

(** ** More networks *)

